(** * Kwacha Tracker backend: sync-and-insight pipeline

    A shallow embedding of the Go sources ([internal/handlers],
    [internal/services], [cmd/server]) together with the properties of the
    pipeline: batch sync with deduplication, pagination, the spending
    aggregate, insight generation with its fallback, the reduction to a push
    notification, and the daily sweep.

    Conventions.
    - Amounts are [Z] hundredths of a Kwacha: the value a [DECIMAL(15, 2)]
      column holds.  The Go side carries them as [float64]; binary rounding
      of the scanned sums is outside the model.
    - Instants are [Z] milliseconds since the Unix epoch (the unit of
      [TransactionInput.Date]); a location is a fixed offset from UTC.
    - A request handler runs at one instant: its readings of the clock are
      taken as one.  The sweep and its scheduler read the clock again after
      their calls; for them the time the calls take passes, as much as the
      collaborators say.
    - Go packages are Rocq modules and keep their names. *)

From Stdlib Require Import ZArith Lia.
From stdpp Require Import gmap strings list fin_maps pretty sorting.

Open Scope Z_scope.

(** ** Package [time] *)

Module time.

Definition Millisecond : Z := 1.
Definition Second : Z := 1000.
Definition Minute : Z := 60 * Second.
Definition Hour : Z := 60 * Minute.
Definition day : Z := 24 * Hour.

(** Days since 1970-01-01 of the civil date [y]-[m]-[d] (proleptic
    Gregorian calendar); [d] may overflow the month, as in [time.Date]. *)
Definition days_from_civil (y m d : Z) : Z :=
  let y' := if m <=? 2 then y - 1 else y in
  let era := y' / 400 in
  let yoe := y' - era * 400 in
  let mp := if 2 <? m then m - 3 else m + 9 in
  let doy := (153 * mp + 2) / 5 + d - 1 in
  let doe := yoe * 365 + yoe / 4 - yoe / 100 + doy in
  era * 146097 + doe - 719468.

(** The civil date (year, month, day) of a day number. *)
Definition civil_from_days (n : Z) : Z * Z * Z :=
  let z := n + 719468 in
  let era := z / 146097 in
  let doe := z - era * 146097 in
  let yoe := (doe - doe / 1460 + doe / 36524 - doe / 146096) / 365 in
  let doy := doe - (365 * yoe + yoe / 4 - yoe / 100) in
  let mp := (5 * doy + 2) / 153 in
  let d := doy - (153 * mp + 2) / 5 + 1 in
  let m := if mp <? 10 then mp + 3 else mp - 9 in
  let y := yoe + era * 400 in
  (if m <=? 2 then y + 1 else y, m, d).

(** [time.Date(year, month, day, 0, 0, 0, 0, loc)] plus a time of day
    [tod], for a location [loc] at a fixed offset (ms east of UTC).
    Months outside 1..12 are normalised into the year. *)
Definition Date (year month dayOfMonth tod loc : Z) : Z :=
  let y := year + (month - 1) / 12 in
  let m := (month - 1) mod 12 + 1 in
  (days_from_civil y m 1 + (dayOfMonth - 1)) * day + tod - loc.

(** [t.AddDate(years, months, days)] in location [loc]. *)
Definition AddDate (loc : Z) (t years months days : Z) : Z :=
  let wall := t + loc in
  let '(y, m, d) := civil_from_days (wall / day) in
  Date (y + years) (m + months) (d + days) (wall mod day) loc.

End time.

(** ** Package [models] *)

Module models.

(** [TransactionInput]: one candidate of a sync batch. *)
Record TransactionInput := {
  Amount : Z;
  Type_ : string;
  Category : string;
  Operator : string;
  Recipient : option string;
  Balance : option Z;
  Reference : option string;
  Description : option string;
  SMSHash : Z;
  Date : Z
}.

(** [SyncRequest]. *)
Record SyncRequest := {
  DeviceID : string;
  Transactions : list TransactionInput;
  Timestamp : Z
}.

End models.

(** ** Package [database]: the tables of [Migrate] and the statements the
    handlers issue *)

Module database.

(** A row of [users] (the columns the pipeline reads). *)
Record UserRow := {
  usr_id : string;
  usr_device_id : string;
  usr_fcm_token : option string;
  usr_consent_given : bool
}.

(** A row of [transactions]. *)
Record TransactionRow := {
  tx_id : N;
  tx_user_id : string;
  tx_amount : Z;
  tx_type : string;
  tx_category : string;
  tx_operator : string;
  tx_recipient : option string;
  tx_balance : option Z;
  tx_reference : option string;
  tx_description : option string;
  tx_sms_hash : Z;
  tx_date : Z
}.

(** A row of [user_insights]. *)
Record InsightRow := {
  ins_user_id : string;
  ins_title : string;
  ins_message : string;
  ins_category : string;
  ins_priority : string;
  ins_generated_at : Z
}.

Record DB := {
  users : list UserRow;
  transactions : list TransactionRow;
  user_insights : list InsightRow
}.

(** The statements sent to the database; an environment decides which of
    them fail (connection loss, a value the schema rejects, ...). *)
Inductive Stmt :=
| SelectConsent (userID : string)
| Begin
| InsertTransaction (row : TransactionRow)
| Commit
| SelectPage (userID : string) (limit offset : Z)
| SelectSweepUsers
| SelectTotals (userID : string) (startDate : Z)
| SelectByCategory (userID : string) (startDate : Z)
| SelectSavings (userID : string) (startDate : Z)
| InsertInsight (row : InsightRow).

(** SQL aggregates: [SUM] of no row is [NULL]. *)
Definition SUM (l : list Z) : option Z :=
  match l with
  | [] => None
  | _ => Some (foldl Z.add 0 l)
  end.

Definition COALESCE (o : option Z) (d : Z) : Z :=
  match o with
  | Some v => v
  | None => d
  end.

Definition COUNT {A} (l : list A) : Z := Z.of_nat (length l).

(** The key of [UNIQUE(user_id, sms_hash)]. *)
Definition same_key (a b : TransactionRow) : bool :=
  bool_decide (tx_user_id a = tx_user_id b) && (tx_sms_hash a =? tx_sms_hash b).

(** [INSERT INTO transactions ... ON CONFLICT (user_id, sms_hash) DO NOTHING]
    on the rows [tbl]: the rows affected and the rows afterwards. *)
Definition insert_on_conflict_do_nothing
    (row : TransactionRow) (tbl : list TransactionRow) : Z * list TransactionRow :=
  if existsb (same_key row) tbl then (0, tbl) else (1, tbl ++ [row]).

(** [SELECT consent_given FROM users WHERE id = $1]; [None] is
    [sql.ErrNoRows]. *)
Definition select_consent (userID : string) (d : DB) : option bool :=
  usr_consent_given <$> List.find (fun u => bool_decide (usr_id u = userID)) (users d).

End database.

(** ** The world the handlers run in *)

Module runtime.

(** [context.Context]; Go's [nil] context is [None]. *)
Inductive Context := Background | RequestContext.

(** What leaves the process, in order of occurrence.  [EvVisit] is a ghost
    event: it marks that the body of the sweep loop ran for a row. *)
Inductive Event :=
| EvGenerate (ctx : option Context) (prompt : string)
| EvPush (ctx : option Context) (token title body : string)
| EvSleep (d : Z)
| EvVisit (userID : string)
| EvSweepStart
| EvSweepFetchFailed
| EvSweepComplete (successCount errorCount : Z).

Record World := {
  db : database.DB;
  clock : Z;
  zone : Z;
  uuid_next : N;
  events : list Event
}.

Definition emit (e : Event) (w : World) : World :=
  {| db := db w; clock := clock w; zone := zone w;
     uuid_next := uuid_next w; events := events w ++ [e] |}.

Definition set_db (d : database.DB) (w : World) : World :=
  {| db := d; clock := clock w; zone := zone w;
     uuid_next := uuid_next w; events := events w |}.

(** [uuid.New()]: a fresh identifier. *)
Definition uuid_New (w : World) : N * World :=
  (uuid_next w,
   {| db := db w; clock := clock w; zone := zone w;
      uuid_next := N.succ (uuid_next w); events := events w |}).

(** [time.Sleep(d)]: returns at once when [d <= 0]. *)
Definition Sleep (d : Z) (w : World) : World :=
  {| db := db w; clock := clock w + Z.max 0 d; zone := zone w;
     uuid_next := uuid_next w; events := events w ++ [EvSleep d] |}.

(** Time passes while the process waits for the answer to a call: [d]
    ticks of the clock, which does not go back. *)
Definition elapse (d : Z) (w : World) : World :=
  {| db := db w; clock := clock w + Z.max 0 d; zone := zone w;
     uuid_next := uuid_next w; events := events w |}.

(** The outcome of the HTTP round trip of [generateContent] ([Do],
    [ReadAll]) for a request that could be created. *)
Inductive HTTPResult :=
| RequestError (msg : string)
| Response (StatusCode : Z) (body : string).

(** The anonymous struct [parseInsights] decodes into. *)
Record RawInsight := {
  rawTitle : string;
  rawMessage : string;
  rawCategory : string;
  rawPriority : string
}.

(** The collaborators outside the repository.  Every property below holds
    for all of them. *)
Class External := {
  (** database/sql: does this statement return an error? *)
  db_fails : database.Stmt → bool;
  (** The text-generation service, reached over HTTP; [generateContent]
      asks it with a context only. *)
  http_post : World → option Context → string → HTTPResult;
  (** [json.Unmarshal] into [GeminiResponse]: the part texts of each
      candidate. *)
  json_candidates : string → option (list (list string));
  (** [json.Unmarshal] into the slice of raw insights. *)
  json_insights : string → option (list RawInsight);
  (** [messaging.Client.Send]: [Some msg] is an error. *)
  fcm_send : World → option Context → string → string → string → option string;
  (** How long the calls take that the sweep makes next from this world,
      in ticks of the clock. *)
  takes : World → Z
}.

End runtime.

(** ** Package [fmt]: the verbs the services use, on hundredths *)

Module fmt.

Definition digits2 (n : Z) : string :=
  if n <? 10 then "0" +:+ pretty n else pretty n.

(** [%.2f]. *)
Definition f2 (z : Z) : string :=
  let a := Z.abs z in
  (if z <? 0 then "-" else "") +:+ pretty (a / 100) +:+ "." +:+ digits2 (a mod 100).

(** [%.0f]: round to nearest, ties to even. *)
Definition f0 (z : Z) : string :=
  let a := Z.abs z in
  let q := a / 100 in
  let r := a mod 100 in
  let up := (50 <? r) || ((r =? 50) && Z.odd q) in
  (if z <? 0 then "-" else "") +:+ pretty (if up then q + 1 else q).

(** [%d]. *)
Definition d (z : Z) : string := pretty z.

End fmt.

(** ** Package [strings] *)

Module gostrings.

Definition is_c2 (c : Ascii.ascii) : bool := bool_decide (Ascii.nat_of_ascii c = 194%nat).
Definition is_nel_nbsp (c : Ascii.ascii) : bool :=
  bool_decide (Ascii.nat_of_ascii c = 133%nat) || bool_decide (Ascii.nat_of_ascii c = 160%nat).

(** The two bytes are the UTF-8 encoding of U+0085 or U+00A0. *)
Definition space2 (c1 c2 : Ascii.ascii) : bool := is_c2 c1 && is_nel_nbsp c2.

(** The three bytes are the UTF-8 encoding of a white space character
    beyond Latin-1: U+1680, U+2000 to U+200A, U+2028, U+2029, U+202F, U+205F
    or U+3000. *)
Definition space3 (c1 c2 c3 : Ascii.ascii) : bool :=
  let b1 := Ascii.nat_of_ascii c1 in
  let b2 := Ascii.nat_of_ascii c2 in
  let b3 := Ascii.nat_of_ascii c3 in
  (Nat.eqb b1 225 && Nat.eqb b2 154 && Nat.eqb b3 128)
  || (Nat.eqb b1 226 && Nat.eqb b2 128
      && ((Nat.leb 128 b3 && Nat.leb b3 138)
          || Nat.eqb b3 168 || Nat.eqb b3 169 || Nat.eqb b3 175))
  || (Nat.eqb b1 226 && Nat.eqb b2 129 && Nat.eqb b3 159)
  || (Nat.eqb b1 227 && Nat.eqb b2 128 && Nat.eqb b3 128).

(** Leading white space, as [unicode.IsSpace] has it: the six ASCII space
    characters, and the encodings of the others. *)
Fixpoint TrimLeftSpace (s : string) : string :=
  match s with
  | String c s1 =>
      if Ascii.is_space c then TrimLeftSpace s1
      else match s1 with
           | String c2 s2 =>
               if space2 c c2 then TrimLeftSpace s2
               else match s2 with
                    | String c3 s3 => if space3 c c2 c3 then TrimLeftSpace s3 else s
                    | EmptyString => s
                    end
           | EmptyString => s
           end
  | EmptyString => EmptyString
  end.

(** The same on a reversed string. *)
Fixpoint TrimLeftSpace_rev (s : string) : string :=
  match s with
  | String c s1 =>
      if Ascii.is_space c then TrimLeftSpace_rev s1
      else match s1 with
           | String c2 s2 =>
               if space2 c2 c then TrimLeftSpace_rev s2
               else match s2 with
                    | String c3 s3 => if space3 c3 c2 c then TrimLeftSpace_rev s3 else s
                    | EmptyString => s
                    end
           | EmptyString => s
           end
  | EmptyString => EmptyString
  end.

Definition TrimSpace (s : string) : string :=
  String.rev (TrimLeftSpace_rev (String.rev (TrimLeftSpace s))).

Definition drop (n : nat) (s : string) : string :=
  String.substring n (String.length s - n) s.

Definition TrimPrefix (s p : string) : string :=
  if String.prefix p s then drop (String.length p) s else s.

Definition TrimSuffix (s p : string) : string :=
  if String.prefix (String.rev p) (String.rev s)
  then String.substring 0 (String.length s - String.length p) s
  else s.

Definition dquote : string := String (Ascii.ascii_of_nat 34) EmptyString.
Definition nl : string := String (Ascii.ascii_of_nat 10) EmptyString.
Definition fence : string := "```".

Fixpoint lines (l : list string) : string :=
  match l with
  | [] => ""
  | [x] => x
  | x :: r => x +:+ nl +:+ lines r
  end.

End gostrings.

(** ** Package [services] *)

Module services.

Import runtime.

(** [SpendingData].  The fields [TopMerchants] and [PreviousPeriod] are
    never written or read by the repository and are left out. *)
Record SpendingData := {
  UserID : string;
  Period : string;
  TotalIncome : Z;
  TotalExpenses : Z;
  NetBalance : Z;
  ByCategory : gmap string Z;
  TransactionCount : Z;
  SavingsDeposits : Z
}.

(** [AIInsight]. *)
Record AIInsight := {
  Title : string;
  Message : string;
  Category : string;
  Priority : string;
  GeneratedAt : Z
}.

(** The zero value of [AIInsight]. *)
Definition zeroInsight : AIInsight :=
  {| Title := ""; Message := ""; Category := ""; Priority := ""; GeneratedAt := 0 |}.

Inductive FCMService := FCMClient.

(** [buildAnalysisPrompt].  Go ranges over the map in an unspecified
    order; the model takes the order of [map_to_list]. *)
Definition buildAnalysisPrompt (data : SpendingData) : string :=
  let categoryBreakdown :=
    foldl (λ acc ca, acc +:+ "- " +:+ ca.1 +:+ ": K" +:+ fmt.f2 ca.2 +:+ gostrings.nl)
          "" (map_to_list (ByCategory data)) in
  gostrings.lines [
    "You are a friendly financial advisor for a Zambian mobile money tracking app called "
      +:+ gostrings.dquote +:+ "Kwacha Tracker" +:+ gostrings.dquote +:+ ".";
    "";
    "Analyze this user's spending data and generate 2-3 personalized insights.";
    "";
    "**Spending Data (" +:+ Period data +:+ "):**";
    "- Total Income: K" +:+ fmt.f2 (TotalIncome data);
    "- Total Expenses: K" +:+ fmt.f2 (TotalExpenses data);
    "- Net Balance: K" +:+ fmt.f2 (NetBalance data);
    "- Savings Deposits: K" +:+ fmt.f2 (SavingsDeposits data);
    "- Transaction Count: " +:+ fmt.d (TransactionCount data);
    "";
    "**Category Breakdown:**";
    categoryBreakdown;
    "";
    "**Instructions:**";
    "1. Be encouraging and positive, especially about savings";
    "2. Use Zambian Kwacha (K) for amounts";
    "3. Keep each insight under 50 words";
    "4. Focus on actionable tips";
    "5. If savings > 10% of income, congratulate them";
    "";
    "**Output Format (JSON array):**";
    "[";
    "  {" +:+ gostrings.dquote +:+ "title" +:+ gostrings.dquote +:+ ": "
      +:+ gostrings.dquote +:+ "..." +:+ gostrings.dquote +:+ ", "
      +:+ gostrings.dquote +:+ "message" +:+ gostrings.dquote +:+ ": "
      +:+ gostrings.dquote +:+ "..." +:+ gostrings.dquote +:+ ", "
      +:+ gostrings.dquote +:+ "category" +:+ gostrings.dquote +:+ ": "
      +:+ gostrings.dquote +:+ "spending|savings|tip" +:+ gostrings.dquote +:+ ", "
      +:+ gostrings.dquote +:+ "priority" +:+ gostrings.dquote +:+ ": "
      +:+ gostrings.dquote +:+ "high|medium|low" +:+ gostrings.dquote +:+ "}";
    "]";
    "";
    "Only output valid JSON, no additional text."
  ].

(** The first lines of [parseInsights]: the optional code fence around
    the answer is removed. *)
Definition cleanResponse (response : string) : string :=
  let response := gostrings.TrimSpace response in
  let response := gostrings.TrimPrefix response (gostrings.fence +:+ "json") in
  let response := gostrings.TrimPrefix response gostrings.fence in
  let response := gostrings.TrimSuffix response gostrings.fence in
  gostrings.TrimSpace response.

Section Gemini.

Context `{External}.

(** [generateContent]: one attempt, no retry.  With a [nil] context
    [http.NewRequestWithContext] returns an error and no request is made. *)
Definition generateContent (ctx : option Context) (prompt : string) (w : World)
    : result string string * World :=
  match ctx with
  | None => (Error "failed to create request: net/http: nil Context", w)
  | Some _ =>
      let w1 := emit (EvGenerate ctx prompt) w in
      match http_post w ctx prompt with
      | RequestError msg => (Error msg, w1)
      | Response StatusCode body =>
          if negb (StatusCode =? 200)
          then (Error ("API returned status " +:+ fmt.d StatusCode +:+ ": " +:+ body), w1)
          else match json_candidates body with
               | None => (Error "failed to parse response", w1)
               | Some ((text :: _) :: _) => (Ok text, w1)
               | Some _ => (Error "no content in response", w1)
               end
      end
  end.

(** [parseInsights]; [now] is what [time.Now()] returns. *)
Definition parseInsights (response : string) (now : Z) : result (list AIInsight) string :=
  match json_insights (cleanResponse response) with
  | None => Error "failed to unmarshal insights"
  | Some rawInsights =>
      Ok ((λ raw, {| Title := rawTitle raw;
                     Message := rawMessage raw;
                     Category := rawCategory raw;
                     Priority := rawPriority raw;
                     GeneratedAt := now |}) <$> rawInsights)
  end.

(** [fallbackInsights]. *)
Definition fallbackInsights (data : SpendingData) (now : Z) : list AIInsight :=
  let insights := [] in
  let insights :=
    if 0 <? SavingsDeposits data
    then insights ++ [ {| Title := "💰 Great Saving Habit!";
                          Message := "You've saved K" +:+ fmt.f0 (SavingsDeposits data)
                                     +:+ " this period. Keep it up!";
                          Category := "savings";
                          Priority := "high";
                          GeneratedAt := now |} ]
    else insights in
  if 0 <? NetBalance data
  then insights ++ [ {| Title := "📈 Positive Balance";
                        Message := "Your income exceeds expenses by K"
                                   +:+ fmt.f0 (NetBalance data)
                                   +:+ ". Consider saving the surplus!";
                        Category := "tip";
                        Priority := "medium";
                        GeneratedAt := now |} ]
  else if NetBalance data <? 0
  then insights ++ [ {| Title := "⚠️ Spending Alert";
                        Message := "You've spent K" +:+ fmt.f0 (- NetBalance data)
                                   +:+ " more than earned. Review your expenses.";
                        Category := "spending";
                        Priority := "high";
                        GeneratedAt := now |} ]
  else insights.

(** [AnalyzeSpending]. *)
Definition AnalyzeSpending (ctx : option Context) (data : SpendingData) (w : World)
    : result (list AIInsight) string * World :=
  let prompt := buildAnalysisPrompt data in
  match generateContent ctx prompt w with
  | (Error err, w1) => (Error ("failed to generate content: " +:+ err), w1)
  | (Ok response, w1) =>
      match parseInsights response (clock w1) with
      | Error _ => (Ok (fallbackInsights data (clock w1)), w1)
      | Ok insights => (Ok insights, w1)
      end
  end.

(** [GenerateNotificationText]. *)
Definition GenerateNotificationText (insights : list AIInsight) : string * string :=
  if bool_decide (length insights = 0%nat)
  then ("📊 Daily Summary", "Check your spending insights in the app!")
  else
    let best :=
      foldl (λ best insight,
               if bool_decide (Priority insight = "high") || bool_decide (Title best = "")
               then insight else best)
            zeroInsight insights in
    (Title best, Message best).

(** [FCMService.SendNotification]: [Some msg] is the error returned. *)
Definition SendNotification (s : FCMService) (ctx : option Context)
    (token title body : string) (w : World) : option string * World :=
  (fcm_send w ctx token title body, emit (EvPush ctx token title body) w).

End Gemini.

End services.

(** ** Package [handlers] *)

Module handlers.

Import runtime database.

(** *** [SyncHandler] *)

(** What [Sync] writes with [c.JSON]. *)
Inductive SyncResponse :=
| SyncBadRequest
| SyncForbidden
| SyncInternalServerError (error : string)
| SyncCompleted (inserted skipped total : Z).

(** The row an [INSERT] of [Sync] carries. *)
Definition row_of (id : N) (userID : string) (t : models.TransactionInput) : TransactionRow :=
  {| tx_id := id;
     tx_user_id := userID;
     tx_amount := models.Amount t;
     tx_type := models.Type_ t;
     tx_category := models.Category t;
     tx_operator := models.Operator t;
     tx_recipient := models.Recipient t;
     tx_balance := models.Balance t;
     tx_reference := models.Reference t;
     tx_description := models.Description t;
     tx_sms_hash := models.SMSHash t;
     tx_date := models.Date t |}.

(** The variables of the loop of [Sync]: the two counters, the rows as
    the open transaction sees them, and the world. *)
Record SyncLoop := {
  insertedCount : Z;
  skippedCount : Z;
  tx_rows : list TransactionRow;
  loop_world : World
}.

(** [GetTransactions] answers with the rows of the page and the effective
    [limit] and [offset]. *)
Inductive ListResponse :=
| ListInternalServerError
| ListOK (rows : list TransactionRow) (limit offset : Z).

(** *** [InsightsHandler] *)

Record InsightsHandler := {
  fcm : option services.FCMService
}.

Inductive InsightsResponse :=
| InsightsFetchFailed
| InsightsNoTransactions
| InsightsAnalysisFailed
| InsightsOK (insights : list services.AIInsight) (period : string) (analyzed : Z).

(** The variables of the loop of [RunDailyAnalysis]. *)
Record SweepLoop := {
  successCount : Z;
  errorCount : Z;
  sweep_world : World
}.

(** The row [storeInsights] inserts for an insight. *)
Definition insight_row (userID : string) (insight : services.AIInsight) : InsightRow :=
  {| ins_user_id := userID;
     ins_title := services.Title insight;
     ins_message := services.Message insight;
     ins_category := services.Category insight;
     ins_priority := services.Priority insight;
     ins_generated_at := services.GeneratedAt insight |}.

(** [fmt.Sscanf(s, "%d", &i)]: leading spaces, ASCII or not, are skipped
    (a newline is an error), then an optional sign and at least one decimal digit; what
    follows the digits is not read.  The value must fit 64 bits. *)
Definition digit_of (c : Ascii.ascii) : option Z :=
  let n := Z.of_nat (Ascii.nat_of_ascii c) in
  if (48 <=? n) && (n <=? 57) then Some (n - 48) else None.

Fixpoint scan_digits (s : string) (acc : Z) : Z :=
  match s with
  | String c s' =>
      match digit_of c with
      | Some v => scan_digits s' (10 * acc + v)
      | None => acc
      end
  | EmptyString => acc
  end.

Definition scan_number (neg : bool) (s : string) : option Z :=
  match s with
  | String c _ =>
      match digit_of c with
      | Some _ =>
          let v := if neg then - scan_digits s 0 else scan_digits s 0 in
          if (- 2 ^ 63 <=? v) && (v <? 2 ^ 63) then Some v else None
      | None => None
      end
  | EmptyString => None
  end.

Fixpoint skip_space (s : string) : option string :=
  match s with
  | String c s1 =>
      if bool_decide (Ascii.nat_of_ascii c = 10%nat) then None
      else if Ascii.is_space c then skip_space s1
      else match s1 with
           | String c2 s2 =>
               if gostrings.space2 c c2 then skip_space s2
               else match s2 with
                    | String c3 s3 =>
                        if gostrings.space3 c c2 c3 then skip_space s3 else Some s
                    | EmptyString => Some s
                    end
           | EmptyString => Some s
           end
  | EmptyString => None
  end.

Definition parseInt (s : string) : option Z :=
  match skip_space s with
  | Some (String c s' as tok) =>
      if bool_decide (Ascii.nat_of_ascii c = 45%nat) then scan_number true s'
      else if bool_decide (Ascii.nat_of_ascii c = 43%nat) then scan_number false s'
      else scan_number false tok
  | _ => None
  end.

(** The pagination block of [GetTransactions]: [l] and [o] are what
    [c.Query] returns (the empty string when the parameter is absent). *)
Definition page_limit (l : string) : Z :=
  let limit := 50 in
  if bool_decide (l ≠ "")
  then match parseInt l with
       | Some parsed => if (0 <? parsed) && (parsed <=? 100) then parsed else limit
       | None => limit
       end
  else limit.

Definition page_offset (o : string) : Z :=
  let offset := 0 in
  if bool_decide (o ≠ "")
  then match parseInt o with
       | Some parsed => if 0 <=? parsed then parsed else offset
       | None => offset
       end
  else offset.

(** The time window of [fetchSpendingData]: its start. *)
Definition startDate (period : string) (w : World) : Z :=
  let now := clock w in
  if bool_decide (period = "daily") then time.AddDate (zone w) now 0 0 (-1)
  else if bool_decide (period = "weekly") then time.AddDate (zone w) now 0 0 (-7)
  else if bool_decide (period = "monthly") then time.AddDate (zone w) now 0 (-1) 0
  else time.AddDate (zone w) now 0 0 (-1).

(** [WHERE user_id = $1 AND date >= $2]. *)
Definition in_window (userID : string) (start : Z) (r : TransactionRow) : Prop :=
  tx_user_id r = userID ∧ start ≤ tx_date r.

#[global] Instance in_window_dec userID start r : Decision (in_window userID start r).
Proof. unfold in_window. apply _. Defined.

Definition CASE_WHEN_type (kind : string) (r : TransactionRow) : Z :=
  if bool_decide (tx_type r = kind) then tx_amount r else 0.

(** The three columns of the totals query. *)
Definition select_totals (userID : string) (start : Z) (d : DB) : Z * Z * Z :=
  let rows := filter (in_window userID start) (transactions d) in
  (COALESCE (SUM (CASE_WHEN_type "INCOME" <$> rows)) 0,
   COALESCE (SUM (CASE_WHEN_type "EXPENSE" <$> rows)) 0,
   COUNT rows).

(** [SELECT category, COALESCE(SUM(amount), 0) ... AND type = 'EXPENSE'
    ... GROUP BY category]: one row per category. *)
Definition select_by_category (userID : string) (start : Z) (d : DB) : list (string * Z) :=
  let rows :=
    filter (λ r, tx_type r = "EXPENSE")
           (filter (in_window userID start) (transactions d)) in
  (λ cat, (cat, COALESCE (SUM (tx_amount <$> filter (λ r, tx_category r = cat) rows)) 0))
    <$> remove_dups (tx_category <$> rows).

(** [... AND category = 'SAVINGS' AND type = 'EXPENSE' ...]. *)
Definition select_savings (userID : string) (start : Z) (d : DB) : Z :=
  COALESCE
    (SUM (tx_amount <$>
            filter (λ r, tx_category r = "SAVINGS" ∧ tx_type r = "EXPENSE")
                   (filter (in_window userID start) (transactions d))))
    0.

(** The users of the sweep:
    [WHERE consent_given = true AND fcm_token IS NOT NULL]. *)
Definition select_sweep_users (d : DB) : list (string * option string) :=
  (λ u, (usr_id u, usr_fcm_token u))
    <$> filter (λ u, usr_consent_given u = true ∧ is_Some (usr_fcm_token u)) (users d).

Definition date_desc (a b : TransactionRow) : Prop := tx_date b ≤ tx_date a.

#[global] Instance date_desc_dec a b : Decision (date_desc a b).
Proof. unfold date_desc. apply _. Defined.

(** [ORDER BY date DESC LIMIT $2 OFFSET $3] over the rows of a user. *)
Definition select_page (userID : string) (limit offset : Z) (d : DB) : list TransactionRow :=
  take (Z.to_nat limit)
       (drop (Z.to_nat offset)
             (merge_sort date_desc
                         (filter (λ r, tx_user_id r = userID) (transactions d)))).

Section Handlers.

Context `{External}.

(** The body of the loop of [Sync] for one candidate [t]. *)
Definition sync_step (userID : string) (st : SyncLoop) (t : models.TransactionInput)
    : SyncLoop :=
  let '(id, w) := uuid_New (loop_world st) in
  let row := row_of id userID t in
  if db_fails (InsertTransaction row)
  then {| insertedCount := insertedCount st;
          skippedCount := skippedCount st + 1;
          tx_rows := tx_rows st;
          loop_world := w |}
  else
    let '(rowsAffected, rows) := insert_on_conflict_do_nothing row (tx_rows st) in
    if 0 <? rowsAffected
    then {| insertedCount := insertedCount st + 1;
            skippedCount := skippedCount st;
            tx_rows := rows;
            loop_world := w |}
    else {| insertedCount := insertedCount st;
            skippedCount := skippedCount st + 1;
            tx_rows := rows;
            loop_world := w |}.

(** [Sync]: [body] is the request as [ShouldBindJSON] decoded it, [None]
    when binding failed. *)
Definition Sync (userID : string) (body : option models.SyncRequest) (w : World)
    : SyncResponse * World :=
  match body with
  | None => (SyncBadRequest, w)
  | Some req =>
      let consent :=
        if db_fails (SelectConsent userID) then None
        else select_consent userID (db w) in
      match consent with
      | Some true =>
          if db_fails Begin
          then (SyncInternalServerError "Database error", w)
          else
            let st := foldl (sync_step userID)
                            {| insertedCount := 0;
                               skippedCount := 0;
                               tx_rows := transactions (db w);
                               loop_world := w |}
                            (models.Transactions req) in
            if db_fails Commit
            then (SyncInternalServerError "Failed to commit transaction", loop_world st)
            else (SyncCompleted (insertedCount st) (skippedCount st)
                                (Z.of_nat (length (models.Transactions req))),
                  set_db {| users := users (db w);
                            transactions := tx_rows st;
                            user_insights := user_insights (db w) |}
                         (loop_world st))
      | _ => (SyncForbidden, w)
      end
  end.

(** [GetTransactions]. *)
Definition GetTransactions (userID l o : string) (w : World) : ListResponse :=
  let limit := page_limit l in
  let offset := page_offset o in
  if db_fails (SelectPage userID limit offset) then ListInternalServerError
  else ListOK (select_page userID limit offset (db w)) limit offset.

(** [fetchSpendingData]; [None] is the error of the totals query. *)
Definition fetchSpendingData (h : InsightsHandler) (userID period : string) (w : World)
    : option services.SpendingData :=
  let start := startDate period w in
  if db_fails (SelectTotals userID start) then None
  else
    let '(totalIncome, totalExpenses, count) := select_totals userID start (db w) in
    let byCategory :=
      if db_fails (SelectByCategory userID start) then ∅
      else foldl (λ (m : gmap string Z) ca, <[ca.1 := ca.2]> m) ∅
                 (select_by_category userID start (db w)) in
    let savingsDeposits :=
      if db_fails (SelectSavings userID start) then 0
      else select_savings userID start (db w) in
    Some {| services.UserID := userID;
            services.Period := period;
            services.TotalIncome := totalIncome;
            services.TotalExpenses := totalExpenses;
            services.NetBalance := totalIncome - totalExpenses;
            services.ByCategory := byCategory;
            services.TransactionCount := count;
            services.SavingsDeposits := savingsDeposits |}.

(** [GenerateInsights]: the on-demand endpoint. *)
Definition GenerateInsights (h : InsightsHandler) (userID : string) (w : World)
    : InsightsResponse * World :=
  match fetchSpendingData h userID "daily" w with
  | None => (InsightsFetchFailed, w)
  | Some spendingData =>
      if services.TransactionCount spendingData =? 0
      then (InsightsNoTransactions, w)
      else match services.AnalyzeSpending (Some RequestContext) spendingData w with
           | (Error _, w1) => (InsightsAnalysisFailed, w1)
           | (Ok insights, w1) =>
               (InsightsOK insights "daily" (services.TransactionCount spendingData), w1)
           end
  end.

(** [storeInsights]: one [INSERT] per insight, errors ignored. *)
Definition storeInsights (userID : string) (insights : list services.AIInsight) (w : World)
    : World :=
  foldl (λ w insight,
           let row := insight_row userID insight in
           if db_fails (InsertInsight row) then w
           else set_db {| users := users (db w);
                          transactions := transactions (db w);
                          user_insights := user_insights (db w) ++ [row] |} w)
        w insights.

(** The body of the loop of [RunDailyAnalysis] for one row of the users
    query, as [rows.Scan] read it ([id] is never [NULL], so the scan of a row
    does not fail).  The aggregate reads the clock when the turn begins;
    the time the calls of the turn take has passed when the next turn
    begins. *)
Definition sweep_step (h : InsightsHandler) (st : SweepLoop) (row : string * option string)
    : SweepLoop :=
  let '(userID, fcmToken) := row in
  let w := emit (EvVisit userID) (sweep_world st) in
  let took := takes w in
  match fetchSpendingData h userID "daily" w with
  | None =>
      {| successCount := successCount st; errorCount := errorCount st;
         sweep_world := elapse took w |}
  | Some spendingData =>
      if services.TransactionCount spendingData =? 0
      then {| successCount := successCount st; errorCount := errorCount st;
              sweep_world := elapse took w |}
      else
        match services.AnalyzeSpending None spendingData w with
        | (Error _, w1) =>
            {| successCount := successCount st; errorCount := errorCount st + 1;
               sweep_world := elapse took w1 |}
        | (Ok insights, w1) =>
            let w2 := storeInsights userID insights (elapse took w1) in
            let w3 :=
              match fcmToken, fcm h with
              | Some token, Some s =>
                  let '(title, body) := services.GenerateNotificationText insights in
                  (services.SendNotification s None token title body w2).2
              | _, _ => w2
              end in
            {| successCount := successCount st + 1; errorCount := errorCount st;
               sweep_world := Sleep (500 * time.Millisecond) w3 |}
        end
  end.

(** [RunDailyAnalysis].  The clock of the program is finer than a tick
    of the model and has moved on when it is read after a call; the model
    keeps this by letting the users query take at least one tick. *)
Definition RunDailyAnalysis (h : InsightsHandler) (w : World) : World :=
  let w := emit EvSweepStart w in
  let w := elapse (Z.max 1 (takes w)) w in
  if db_fails SelectSweepUsers then emit EvSweepFetchFailed w
  else
    let st := foldl (sweep_step h)
                    {| successCount := 0; errorCount := 0; sweep_world := w |}
                    (select_sweep_users (db w)) in
    emit (EvSweepComplete (successCount st) (errorCount st)) (sweep_world st).

End Handlers.

End handlers.

(** ** Package [main] *)

Module main.

Import runtime.

(** The instant the scheduler sleeps until: 06:00 of the current day in
    the local zone, or 24 hours later when that is already past. *)
Definition next_run (w : World) : Z :=
  let now := clock w in
  let '(y, m, d) := time.civil_from_days ((now + zone w) / time.day) in
  let next := time.Date y m d (6 * time.Hour) (zone w) in
  if next <? now then next + 24 * time.Hour else next.

(** [startDailyScheduler]: the first [n] turns of its endless loop. *)
Fixpoint startDailyScheduler `{External} (n : nat) (handler : handlers.InsightsHandler)
    (w : World) : World :=
  match n with
  | O => w
  | S n' =>
      let duration := next_run w - clock w in
      let w := Sleep duration w in
      let w := handlers.RunDailyAnalysis handler w in
      startDailyScheduler n' handler w
  end.

End main.

(** ** Package [middleware] *)

Module middleware.

(** [JWTClaims], with the registered claims [GenerateToken] sets. *)
Record JWTClaims := {
  UserID : string;
  DeviceID : string;
  ExpiresAt : Z;
  IssuedAt : Z;
  Issuer : string
}.

(** What [jwt.ParseWithClaims] and the checks after it find in a token:
    an error or an invalid token, claims of another type, or the claims. *)
Inductive Parsed :=
| InvalidToken
| OtherClaims
| ValidClaims (claims : JWTClaims).

(** The JWT library: signing with HS256 ([None] is an error), and parsing
    with validation at the instant [now]. *)
Class JWT := {
  SignedString : string → JWTClaims → option string;
  ParseWithClaims : string → string → Z → Parsed
}.

(** [jwt.NewNumericDate]: the instant, truncated to the second. *)
Definition NewNumericDate (t : Z) : Z := t / time.Second * time.Second.

(** [strings.Split(s, " ")]. *)
Definition space : Ascii.ascii := Ascii.ascii_of_nat 32.

Fixpoint Split (s : string) : list string :=
  match s with
  | EmptyString => [EmptyString]
  | String c s' =>
      if bool_decide (c = space) then EmptyString :: Split s'
      else match Split s' with
           | part :: parts => String c part :: parts
           | [] => [String c EmptyString]
           end
  end.

(** What the middleware does with the request: abort with a status and an
    error, or set the two keys and call the next handler. *)
Inductive Outcome :=
| Abort (status : Z) (error : string)
| Next (user_id device_id : string).

Section Auth.

Context `{JWT}.

(** [AuthMiddleware]: the handler it returns, on the value of the
    [Authorization] header. *)
Definition AuthMiddleware (jwtSecret : string) (authHeader : string) (now : Z) : Outcome :=
  if bool_decide (authHeader = "")
  then Abort 401 "Authorization header required"
  else
    match Split authHeader with
    | [bearer; tokenString] =>
        if bool_decide (bearer = "Bearer")
        then match ParseWithClaims tokenString jwtSecret now with
             | InvalidToken => Abort 401 "Invalid token"
             | OtherClaims => Abort 401 "Invalid token claims"
             | ValidClaims claims => Next (UserID claims) (DeviceID claims)
             end
        else Abort 401 "Invalid authorization format"
    | _ => Abort 401 "Invalid authorization format"
    end.

(** [GenerateToken]; the two readings of the clock are taken as one
    instant [now]. *)
Definition GenerateToken (userID deviceID jwtSecret : string) (expirationHours : Z) (now : Z)
    : option string :=
  let claims :=
    {| UserID := userID;
       DeviceID := deviceID;
       ExpiresAt := NewNumericDate (now + expirationHours * time.Hour);
       IssuedAt := NewNumericDate now;
       Issuer := "kwachatracker" |} in
  SignedString jwtSecret claims.

End Auth.

(** The variables the handler of [RateLimiter] closes over. *)
Record Limiter := {
  requestCounts : gmap string Z;
  lastReset : Z
}.

(** What the limiter does with a request. *)
Inductive Verdict := TooManyRequests | Pass.

#[global] Instance Verdict_eq_dec : EqDecision Verdict.
Proof. solve_decision. Defined.

(** [RateLimiter(requestsPerMinute)]: its two variables as it returns the
    handler at the instant [now]. *)
Definition RateLimiter_start (now : Z) : Limiter :=
  {| requestCounts := ∅; lastReset := now |}.

(** The handler [RateLimiter] returns, for a request of [clientIP] at the
    instant [now]; the two readings of the clock are taken as one.  The
    handler runs for one request at a time. *)
Definition RateLimiter (requestsPerMinute : Z) (now : Z) (clientIP : string) (st : Limiter)
    : Verdict * Limiter :=
  let st :=
    if time.Minute <? now - lastReset st
    then {| requestCounts := ∅; lastReset := now |}
    else st in
  let count := default 0 (requestCounts st !! clientIP) + 1 in
  let st := {| requestCounts := <[clientIP := count]> (requestCounts st);
               lastReset := lastReset st |} in
  if requestsPerMinute <? count then (TooManyRequests, st) else (Pass, st).

(** The handler on a sequence of requests, each with its instant and its
    client address: the verdicts in order, and the variables at the end. *)
Fixpoint serve (requestsPerMinute : Z) (requests : list (Z * string)) (st : Limiter)
    : list Verdict * Limiter :=
  match requests with
  | [] => ([], st)
  | (now, clientIP) :: requests =>
      let '(verdict, st) := RateLimiter requestsPerMinute now clientIP st in
      let '(verdicts, st) := serve requestsPerMinute requests st in
      (verdict :: verdicts, st)
  end.

End middleware.

(** ** Package [config] *)

Module config.

(** The fields of [Config] the handlers read; [JWTExpiration] is in
    hours. *)
Record Config := {
  JWTSecret : string;
  JWTExpiration : Z
}.

End config.

(** ** Package [handlers]: [AuthHandler] and the stored insights *)

Module accounts.

Import runtime database.

Record AuthHandler := {
  Config : config.Config
}.

(** [RegisterRequest]; [device_id] is bound as required. *)
Record RegisterRequest := {
  DeviceID : string;
  FCMToken : string;
  Operator : string
}.

(** The statements of these handlers. *)
Inductive Stmt :=
| SelectUserByDevice (deviceID : string)
| InsertUser (row : UserRow)
| UpdateToken (token userID : string)
| UpdateConsentGiven (consentGiven : bool) (userID : string)
| DeleteTransactions (userID : string)
| DeleteUser (userID : string)
| SelectInsights (userID : string).

(** database/sql for these statements: does the statement return an error
    of its own (other than [sql.ErrNoRows] and the violation of a
    constraint, which the tables decide)? *)
Class Store := {
  exec_fails : Stmt → bool
}.

(** [uuid.UUID.String]: one text per identifier. *)
Definition uuid_String (id : N) : string := pretty id.

(** [SELECT id FROM users WHERE device_id = $1], as [QueryRow] scans it:
    the first row, [None] for [sql.ErrNoRows]. *)
Definition select_user_by_device (deviceID : string) (d : DB) : option string :=
  usr_id <$> head (filter (λ u, usr_device_id u = deviceID) (users d)).

(** [INSERT INTO users (id, device_id, fcm_token, operator)]: [None] when
    the primary key or [UNIQUE(device_id)] is violated.  The column
    [consent_given] takes its default. *)
Definition insert_user (row : UserRow) (d : DB) : option DB :=
  if bool_decide (usr_id row ∈ usr_id <$> users d)
     || bool_decide (usr_device_id row ∈ usr_device_id <$> users d)
  then None
  else Some {| users := users d ++ [row];
               transactions := transactions d;
               user_insights := user_insights d |}.

(** [UPDATE users SET ... WHERE id = $n]. *)
Definition update_user (f : UserRow → UserRow) (userID : string) (d : DB) : DB :=
  {| users := (λ u, if bool_decide (usr_id u = userID) then f u else u) <$> users d;
     transactions := transactions d;
     user_insights := user_insights d |}.

Definition set_token (token : string) (u : UserRow) : UserRow :=
  {| usr_id := usr_id u; usr_device_id := usr_device_id u;
     usr_fcm_token := Some token; usr_consent_given := usr_consent_given u |}.

Definition set_consent (consentGiven : bool) (u : UserRow) : UserRow :=
  {| usr_id := usr_id u; usr_device_id := usr_device_id u;
     usr_fcm_token := usr_fcm_token u; usr_consent_given := consentGiven |}.

(** [DELETE FROM transactions WHERE user_id = $1]. *)
Definition delete_transactions (userID : string) (d : DB) : DB :=
  {| users := users d;
     transactions := filter (λ r, tx_user_id r ≠ userID) (transactions d);
     user_insights := user_insights d |}.

(** [DELETE FROM users WHERE id = $1]; both tables that reference
    [users(id)] do so [ON DELETE CASCADE]. *)
Definition delete_user (userID : string) (d : DB) : DB :=
  {| users := filter (λ u, usr_id u ≠ userID) (users d);
     transactions := filter (λ r, tx_user_id r ≠ userID) (transactions d);
     user_insights := filter (λ r, ins_user_id r ≠ userID) (user_insights d) |}.

(** What the handlers write with [c.JSON]. *)
Inductive RegisterResponse :=
| RegisterBadRequest
| RegisterInternalServerError (error : string)
| RegisterOK (user_id token : string) (is_new_user : bool) (expires_in : Z).

Inductive ConsentResponse :=
| ConsentBadRequest
| ConsentInternalServerError (error : string)
| ConsentUpdated.

Inductive DeleteResponse :=
| DeleteInternalServerError (error : string)
| AllDataDeleted.

Inductive StoredInsightsResponse :=
| StoredInsightsInternalServerError
| StoredInsights (insights : list services.AIInsight).

(** The insight [GetUserInsights] scans from a row. *)
Definition insight_of_row (r : InsightRow) : services.AIInsight :=
  {| services.Title := ins_title r;
     services.Message := ins_message r;
     services.Category := ins_category r;
     services.Priority := ins_priority r;
     services.GeneratedAt := ins_generated_at r |}.

Definition generated_desc (a b : InsightRow) : Prop :=
  ins_generated_at b ≤ ins_generated_at a.

#[global] Instance generated_desc_dec a b : Decision (generated_desc a b).
Proof. unfold generated_desc. apply _. Defined.

(** [... WHERE user_id = $1 ORDER BY generated_at DESC LIMIT 10]. *)
Definition select_insights (userID : string) (d : DB) : list InsightRow :=
  take 10 (merge_sort generated_desc
                      (filter (λ r, ins_user_id r = userID) (user_insights d))).

Section Handlers.

Context `{Store} `{middleware.JWT}.

(** The end of [Register]: the token and the answer. *)
Definition respond (h : AuthHandler) (userID deviceID : string) (exists_ : bool) (w : World)
    : RegisterResponse * World :=
  match middleware.GenerateToken userID deviceID (config.JWTSecret (Config h))
                                 (config.JWTExpiration (Config h)) (clock w) with
  | None => (RegisterInternalServerError "Failed to generate token", w)
  | Some token =>
      (RegisterOK userID token (negb exists_) (config.JWTExpiration (Config h) * 3600), w)
  end.

(** [Register]: [body] is the request as the JSON decoder read it, [None]
    when it could not. *)
Definition Register (h : AuthHandler) (body : option RegisterRequest) (w : World)
    : RegisterResponse * World :=
  match body with
  | None => (RegisterBadRequest, w)
  | Some req =>
      if bool_decide (DeviceID req = "") then (RegisterBadRequest, w)
      else if exec_fails (SelectUserByDevice (DeviceID req))
      then (RegisterInternalServerError "Database error", w)
      else
        match select_user_by_device (DeviceID req) (db w) with
        | None =>
            let '(id, w) := uuid_New w in
            let userID := uuid_String id in
            let row := {| usr_id := userID;
                          usr_device_id := DeviceID req;
                          usr_fcm_token := Some (FCMToken req);
                          usr_consent_given := false |} in
            if exec_fails (InsertUser row)
            then (RegisterInternalServerError "Failed to create user", w)
            else match insert_user row (db w) with
                 | None => (RegisterInternalServerError "Failed to create user", w)
                 | Some d => respond h userID (DeviceID req) false (set_db d w)
                 end
        | Some userID =>
            let w :=
              if bool_decide (FCMToken req ≠ "")
              then if exec_fails (UpdateToken (FCMToken req) userID) then w
                   else set_db (update_user (set_token (FCMToken req)) userID (db w)) w
              else w in
            respond h userID (DeviceID req) true w
        end
  end.

(** [UpdateConsent]: [body] is the decoded [consent_given]. *)
Definition UpdateConsent (h : AuthHandler) (userID : string) (body : option bool) (w : World)
    : ConsentResponse * World :=
  match body with
  | None => (ConsentBadRequest, w)
  | Some consentGiven =>
      if exec_fails (UpdateConsentGiven consentGiven userID)
      then (ConsentInternalServerError "Failed to update consent", w)
      else (ConsentUpdated, set_db (update_user (set_consent consentGiven) userID (db w)) w)
  end.

(** [DeleteData]: two statements, outside any transaction. *)
Definition DeleteData (h : AuthHandler) (userID : string) (w : World)
    : DeleteResponse * World :=
  if exec_fails (DeleteTransactions userID)
  then (DeleteInternalServerError "Failed to delete transactions", w)
  else
    let w := set_db (delete_transactions userID (db w)) w in
    if exec_fails (DeleteUser userID)
    then (DeleteInternalServerError "Failed to delete user", w)
    else (AllDataDeleted, set_db (delete_user userID (db w)) w).

(** [InsightsHandler.GetUserInsights]. *)
Definition GetUserInsights (userID : string) (w : World) : StoredInsightsResponse :=
  if exec_fails (SelectInsights userID) then StoredInsightsInternalServerError
  else StoredInsights (insight_of_row <$> select_insights userID (db w)).

End Handlers.

End accounts.

(** ** Package [handlers]: [AnalyticsHandler] *)

Module analytics.

Import runtime database.

(** [models.AnalyticsSummary]. *)
Record AnalyticsSummary := {
  TotalIncome : Z;
  TotalExpenses : Z;
  NetBalance : Z;
  ByCategory : gmap string Z;
  ByOperator : gmap string Z;
  TransactionCount : Z;
  Period : string
}.

(** The three queries of [GetSummary]. *)
Inductive Stmt :=
| SelectTotals (userID : string) (startDate : Z)
| SelectByCategory (userID : string) (startDate : Z)
| SelectByOperator (userID : string) (startDate : Z).

Class Store := {
  query_fails : Stmt → bool
}.

(** [c.DefaultQuery(key, defaultValue)]: the default only when the
    parameter is absent. *)
Definition DefaultQuery (value : option string) (defaultValue : string) : string :=
  default defaultValue value.

(** [time.Time{}]: 0001-01-01 00:00:00 UTC. *)
Definition zeroTime : Z := time.Date 1 1 1 0 0.

(** The start of the range of [GetSummary]. *)
Definition startDate (period : string) (w : World) : Z :=
  let now := clock w in
  if bool_decide (period = "week") then time.AddDate (zone w) now 0 0 (-7)
  else if bool_decide (period = "month") then time.AddDate (zone w) now 0 (-1) 0
  else if bool_decide (period = "year") then time.AddDate (zone w) now (-1) 0 0
  else zeroTime.

(** [SELECT operator, COALESCE(SUM(amount), 0) ... GROUP BY operator],
    over the rows of every type. *)
Definition select_by_operator (userID : string) (start : Z) (d : DB) : list (string * Z) :=
  let rows := filter (handlers.in_window userID start) (transactions d) in
  (λ op, (op, COALESCE (SUM (tx_amount <$> filter (λ r, tx_operator r = op) rows)) 0))
    <$> remove_dups (tx_operator <$> rows).

Inductive SummaryResponse :=
| SummaryInternalServerError
| SummaryOK (summary : AnalyticsSummary).

Section Handlers.

Context `{Store}.

(** [GetSummary]; [period] is the query parameter, [None] when absent. *)
Definition GetSummary (userID : string) (period : option string) (w : World)
    : SummaryResponse :=
  let period := DefaultQuery period "month" in
  let start := startDate period w in
  if query_fails (SelectTotals userID start) then SummaryInternalServerError
  else
    let '(totalIncome, totalExpenses, count) := handlers.select_totals userID start (db w) in
    let byCategory :=
      if query_fails (SelectByCategory userID start) then ∅
      else foldl (λ (m : gmap string Z) ca, <[ca.1 := ca.2]> m) ∅
                 (handlers.select_by_category userID start (db w)) in
    let byOperator :=
      if query_fails (SelectByOperator userID start) then ∅
      else foldl (λ (m : gmap string Z) oa, <[oa.1 := oa.2]> m) ∅
                 (select_by_operator userID start (db w)) in
    SummaryOK {| TotalIncome := totalIncome;
                 TotalExpenses := totalExpenses;
                 NetBalance := totalIncome - totalExpenses;
                 ByCategory := byCategory;
                 ByOperator := byOperator;
                 TransactionCount := count;
                 Period := period |}.

End Handlers.

End analytics.

(** ** Stand-ins for the collaborators, and sample data *)

Module stubs.

Import runtime database.

(** A database that accepts every statement; a generator that answers
    [answer w] (no answer: the request fails); a decoder that knows the
    empty array only; a push service that accepts everything; sweeps that
    take 40 ms for each stretch of calls. *)
Definition stub (answer : World → option string) : External :=
  {| db_fails := λ _, false;
     http_post := λ w _ _, match answer w with
                           | Some text => Response 200 text
                           | None => RequestError "API request failed"
                           end;
     json_candidates := λ body, Some [[body]];
     json_insights := λ s, if bool_decide (s = "[]") then Some [] else None;
     fcm_send := λ _ _ _ _ _, None;
     takes := λ _, 40 |}.

(** The generator answers in prose. *)
Definition prose : External := stub (λ _, Some "Spend less, save more.").

(** The generator answers with a fenced empty array. *)
Definition empty_array : External :=
  stub (λ _, Some (gostrings.fence +:+ "json" +:+ gostrings.nl +:+ "[]"
                     +:+ gostrings.nl +:+ gostrings.fence)).

Definition is_generate (e : Event) : bool :=
  match e with
  | EvGenerate _ _ => true
  | _ => false
  end.

Definition input (amount : Z) (kind category : string) (hash date : Z)
    : models.TransactionInput :=
  {| models.Amount := amount; models.Type_ := kind; models.Category := category;
     models.Operator := "MTN"; models.Recipient := None; models.Balance := None;
     models.Reference := None; models.Description := None;
     models.SMSHash := hash; models.Date := date |}.

Definition alice : UserRow :=
  {| usr_id := "alice"; usr_device_id := "device-a";
     usr_fcm_token := Some "token-a"; usr_consent_given := true |}.

Definition bob : UserRow :=
  {| usr_id := "bob"; usr_device_id := "device-b";
     usr_fcm_token := Some "token-b"; usr_consent_given := true |}.

Definition carol : UserRow :=
  {| usr_id := "carol"; usr_device_id := "device-c";
     usr_fcm_token := None; usr_consent_given := false |}.

(** 2024-03-31 12:00:00 UTC. *)
Definition noon : Z := 1711886400000.

Definition world_of (rows : list TransactionRow) : World :=
  {| db := {| users := [alice; bob; carol]; transactions := rows; user_insights := [] |};
     clock := noon; zone := 0; uuid_next := 0; events := [] |}.

Definition batch : models.SyncRequest :=
  {| models.DeviceID := "device-a";
     models.Transactions :=
       [ input 150000 "INCOME" "SALARY" 11 (noon - 3 * time.Hour);
         input 2500 "EXPENSE" "AIRTIME" 12 (noon - 2 * time.Hour);
         input 10000 "EXPENSE" "SAVINGS" 13 (noon - time.Hour) ];
     models.Timestamp := noon |}.

(** A batch that repeats a hash, and has a hash that [ledger] stores for
    Alice. *)
Definition ragged : models.SyncRequest :=
  {| models.DeviceID := "device-a";
     models.Transactions :=
       [ input 2500 "EXPENSE" "AIRTIME" 21 noon;
         input 2500 "EXPENSE" "AIRTIME" 21 noon;
         input 2500 "EXPENSE" "AIRTIME" 12 (noon - 2 * time.Hour) ];
     models.Timestamp := noon |}.

Definition stored (id : N) (userID : string) (amount : Z) (kind category : string)
    (hash date : Z) : TransactionRow :=
  handlers.row_of id userID (input amount kind category hash date).

(** Alice: a salary, two expenses, one old expense; Bob: one income. *)
Definition ledger : list TransactionRow :=
  [ stored 1 "alice" 150000 "INCOME" "SALARY" 11 (noon - 3 * time.Hour);
    stored 2 "alice" 2500 "EXPENSE" "AIRTIME" 12 (noon - 2 * time.Hour);
    stored 3 "alice" 10000 "EXPENSE" "SAVINGS" 13 (noon - time.Hour);
    stored 4 "alice" 99900 "EXPENSE" "RENT" 14 (noon - 3 * time.day);
    stored 5 "bob" 50000 "INCOME" "TRANSFER" 15 (noon - time.Hour) ].

(** One income of Alice dated an hour after the clock of [world_of]. *)
Definition postdated : list TransactionRow :=
  [ stored 1 "alice" 10000 "INCOME" "SALARY" 11 (noon + time.Hour) ].

(** Net balance +500, no savings, one transaction. *)
Definition surplus : services.SpendingData :=
  {| services.UserID := "alice"; services.Period := "daily";
     services.TotalIncome := 50000; services.TotalExpenses := 0;
     services.NetBalance := 50000; services.ByCategory := ∅;
     services.TransactionCount := 1; services.SavingsDeposits := 0 |}.

Definition insight (title priority : string) : services.AIInsight :=
  {| services.Title := title; services.Message := "About " +:+ title;
     services.Category := "tip"; services.Priority := priority;
     services.GeneratedAt := noon |}.

Definition handler : handlers.InsightsHandler :=
  {| handlers.fcm := Some services.FCMClient |}.

End stubs.

(** * Properties *)

(** ** What the properties are measured against *)

Module spec.

Import runtime database.

(** Title strings of the three fallback insights. *)
Definition savings_title : string := "💰 Great Saving Habit!".
Definition surplus_title : string := "📈 Positive Balance".
Definition deficit_title : string := "⚠️ Spending Alert".

Definition is_high (i : services.AIInsight) : bool :=
  bool_decide (services.Priority i = "high").

Definition heading (i : services.AIInsight) : string * string :=
  (services.Title i, services.Message i).

(** The first, and the last, high-priority insight of a list. *)
Definition first_high (l : list services.AIInsight) : option services.AIInsight :=
  List.find is_high l.

Definition last_high (l : list services.AIInsight) : option services.AIInsight :=
  List.find is_high (reverse l).

(** The sum of the amounts of the rows of [rows] that satisfy [P]. *)
Definition total (P : TransactionRow → Prop) `{∀ r, Decision (P r)}
    (rows : list TransactionRow) : Z :=
  foldr (λ r acc, tx_amount r + acc) 0 (filter P rows).

(** How many events of a trace are requests to the generator. *)
Definition generate_calls (evs : list Event) : nat :=
  length (filter (λ e, stubs.is_generate e = true) evs).

(** The users the sweep loop ran for, in order. *)
Definition visited (evs : list Event) : list string :=
  omap (λ e, match e with EvVisit u => Some u | _ => None end) evs.

(** How many sweeps a trace starts, and how many it completes. *)
Definition is_sweep_start (e : Event) : bool :=
  match e with
  | EvSweepStart => true
  | _ => false
  end.

Definition is_sweep_complete (e : Event) : bool :=
  match e with
  | EvSweepComplete _ _ => true
  | _ => false
  end.

Definition sweeps_started (evs : list Event) : nat :=
  length (filter (λ e, is_sweep_start e = true) evs).

Definition sweeps_completed (evs : list Event) : nat :=
  length (filter (λ e, is_sweep_complete e = true) evs).

(** The state of the sweep loop when it starts on the world [w]. *)
Definition sweep_start (w : World) : handlers.SweepLoop :=
  {| handlers.successCount := 0; handlers.errorCount := 0;
     handlers.sweep_world := emit EvSweepStart w |}.

End spec.

(** ** Further measures and stand-ins *)

Module views.

Import runtime database.

(** The key of a stored row under [UNIQUE(user_id, sms_hash)]. *)
Definition key (r : TransactionRow) : string * Z := (tx_user_id r, tx_sms_hash r).

(** The content hashes a user has stored. *)
Definition stored_hashes (userID : string) (rows : list TransactionRow) : gset Z :=
  list_to_set (tx_sms_hash <$> filter (λ r, tx_user_id r = userID) rows).

(** The content hashes of a batch. *)
Definition batch_hashes (batch : list models.TransactionInput) : gset Z :=
  list_to_set (models.SMSHash <$> batch).

(** The sum of the values of a category map. *)
Definition map_total (m : gmap string Z) : Z := foldr Z.add 0 (map_to_list m).*2.

(** The tokens the trace pushes to, in order. *)
Definition pushed (evs : list Event) : list string :=
  omap (λ e, match e with EvPush _ token _ _ => Some token | _ => None end) evs.

(** An event of a trace is an outgoing call made with a [nil] context, or
    no outgoing call. *)
Definition without_context (e : Event) : Prop :=
  match e with
  | EvGenerate ctx _ | EvPush ctx _ _ _ => ctx = None
  | _ => True
  end.

(** The part of the trace, and of the table of insights, that [w'] has
    and [w] has not. *)
Definition new_events (w w' : World) : list Event :=
  drop (length (events w)) (events w').

Definition new_insights (w w' : World) : list InsightRow :=
  drop (length (user_insights (db w))) (user_insights (db w')).

(** The daily aggregate of the user, fetched in [w], has transactions:
    the turn of such a user goes on to [AnalyzeSpending]. *)
Definition active `{External} (h : handlers.InsightsHandler) (w : World) (userID : string)
    : bool :=
  match handlers.fetchSpendingData h userID "daily" w with
  | Some data => negb (services.TransactionCount data =? 0)
  | None => false
  end.

(** The text has no space. *)
Fixpoint spaceless (s : string) : bool :=
  match s with
  | EmptyString => true
  | String c s' => negb (bool_decide (c = middleware.space)) && spaceless s'
  end.

(** How many requests of a sequence come from a client, and how many of
    them the limiter let pass. *)
Definition asked (clientIP : string) (requests : list (Z * string)) : Z :=
  Z.of_nat (length (filter (λ r, r.2 = clientIP) requests)).

Definition passed (clientIP : string) (requests : list (Z * string))
    (verdicts : list middleware.Verdict) : Z :=
  Z.of_nat (length (filter (λ rv, rv.1.2 = clientIP ∧ rv.2 = middleware.Pass)
                           (zip requests verdicts))).

(** A database whose [COMMIT] fails. *)
Definition commit_fails : External :=
  {| db_fails := λ s, match s with Commit => true | _ => false end;
     http_post := λ _ _ _, RequestError "API request failed";
     json_candidates := λ _, None;
     json_insights := λ _, None;
     fcm_send := λ _ _ _ _ _, None;
     takes := λ _, 40 |}.

(** A database that accepts every statement of the account handlers. *)
Definition reliable : accounts.Store := {| accounts.exec_fails := λ _, false |}.

(** A JWT library that signs with a text made from the user, and knows
    the token of Alice. *)
Definition jwt_stub : middleware.JWT :=
  {| middleware.SignedString := λ _ claims, Some ("jwt-for-" +:+ middleware.UserID claims);
     middleware.ParseWithClaims := λ tokenString _ _,
       if bool_decide (tokenString = "jwt-for-alice")
       then middleware.ValidClaims
              {| middleware.UserID := "alice"; middleware.DeviceID := "device-a";
                 middleware.ExpiresAt := 0; middleware.IssuedAt := 0;
                 middleware.Issuer := "kwachatracker" |}
       else middleware.InvalidToken |}.

(** A database that answers every query of the analytics handler. *)
Definition answering : analytics.Store := {| analytics.query_fails := λ _, false |}.

End views.

(** ** Pagination of the transaction listing *)

Section Pagination.

Import handlers.

Context `{runtime.External}.

Lemma parseInt_empty : parseInt "" = None.
Proof. reflexivity. Qed.

Lemma parseInt_nonempty (s : string) (n : Z) : parseInt s = Some n → s ≠ "".
Proof. intros Hp ->. discriminate Hp. Qed.

(** C3, as amended.  The effective page size is the requested value when
    it lies in 1..100 and the default 50 in every other case: a request
    above 100, a request of 0 or less, an absent or unreadable parameter.
    The effective offset is the requested one when it is not negative and 0
    otherwise. *)
Theorem pagination_bounds (l o : string) :
  (∀ n, parseInt l = Some n → 0 < n ≤ 100 → page_limit l = n) ∧
  (∀ n, parseInt l = Some n → 100 < n → page_limit l = 50) ∧
  (∀ n, parseInt l = Some n → n ≤ 0 → page_limit l = 50) ∧
  (parseInt l = None → page_limit l = 50) ∧
  (∀ n, parseInt o = Some n → 0 ≤ n → page_offset o = n) ∧
  (∀ n, parseInt o = Some n → n < 0 → page_offset o = 0) ∧
  (parseInt o = None → page_offset o = 0) ∧
  1 ≤ page_limit l ≤ 100 ∧ 0 ≤ page_offset o ∧
  (∀ userID w rows limit offset,
     GetTransactions userID l o w = ListOK rows limit offset →
     limit = page_limit l ∧ offset = page_offset o ∧ Z.of_nat (length rows) ≤ limit).
Proof.
  assert (Hlim : 1 ≤ page_limit l ≤ 100).
  { unfold page_limit. case_bool_decide; [|lia].
    destruct (parseInt l) as [n|]; [|lia].
    destruct (0 <? n) eqn:E1; destruct (n <=? 100) eqn:E2; simpl; lia. }
  split_and!; try (apply Hlim);
    try (intros userID w rows limit offset; unfold GetTransactions;
         case_match; [done|]; intros [= <- <- <-]; split_and!; [done..|];
         unfold select_page; rewrite length_take; lia);
    unfold page_limit, page_offset.
  - intros n Hp Hn. rewrite Hp.
    rewrite bool_decide_true by (by eapply parseInt_nonempty).
    destruct (0 <? n) eqn:E1; destruct (n <=? 100) eqn:E2; simpl; lia.
  - intros n Hp Hn. rewrite Hp.
    case_bool_decide; [|done].
    destruct (0 <? n) eqn:E1; destruct (n <=? 100) eqn:E2; simpl; lia.
  - intros n Hp Hn. rewrite Hp.
    case_bool_decide; [|done].
    destruct (0 <? n) eqn:E1; destruct (n <=? 100) eqn:E2; simpl; lia.
  - intros ->. by case_bool_decide.
  - intros n Hp Hn. rewrite Hp.
    rewrite bool_decide_true by (by eapply parseInt_nonempty).
    destruct (0 <=? n) eqn:E1; lia.
  - intros n Hp Hn. rewrite Hp.
    case_bool_decide; [|done].
    destruct (0 <=? n) eqn:E1; lia.
  - intros ->. by case_bool_decide.
  - case_bool_decide; [|lia].
    destruct (parseInt o) as [n|]; [|lia].
    destruct (0 <=? n) eqn:E1; lia.
Qed.

End Pagination.

(** A request for 150 rows is answered with the default page, not with a
    page of 100. *)
Lemma pagination_clamp_counterexample :
  ¬ (∀ l n, handlers.parseInt l = Some n → 100 < n → handlers.page_limit l = 100).
Proof.
  intros Hclaim. specialize (Hclaim "150" 150 eq_refl ltac:(lia)).
  vm_compute in Hclaim. discriminate Hclaim.
Qed.

Lemma pagination_bounds_witness :
  handlers.page_limit "25" = 25 ∧ handlers.page_limit "150" = 50 ∧
  handlers.page_limit "-3" = 50 ∧ handlers.page_offset "40" = 40.
Proof.
  destruct (pagination_bounds (H := stubs.prose) "25" "40") as (H1 & _ & _ & _ & H5 & _).
  destruct (pagination_bounds (H := stubs.prose) "150" "") as (_ & H2 & _).
  destruct (pagination_bounds (H := stubs.prose) "-3" "") as (_ & _ & H3 & _).
  split_and!.
  - apply (H1 25); [reflexivity | lia].
  - apply (H2 150); [reflexivity | lia].
  - apply (H3 (-3)); [reflexivity | lia].
  - apply (H5 40); [reflexivity | lia].
Defined.

(** ** The insight generator *)

Section Generator.

Import runtime services.

Context `{External}.

(** Membership of a title in a closed list of titles, by evaluation. *)
Ltac title_mem :=
  match goal with
  | |- _ ∈ _ => by (apply (bool_decide_unpack _); vm_compute)
  | Hin : _ ∈ _ |- _ => by (apply (bool_decide_pack _) in Hin; vm_compute in Hin)
  end.

Ltac title_case := split; intros; first [lia | title_mem].

Lemma foldl_snoc {A B} (f : A → B → A) (a : A) (l : list B) (x : B) :
  foldl f a (l ++ [x]) = f (foldl f a l) x.
Proof. by rewrite foldl_app. Qed.

Lemma best_titled (l : list AIInsight) :
  l ≠ [] → Forall (λ i, Title i ≠ "") l →
  foldl (λ best insight,
           if bool_decide (Priority insight = "high") || bool_decide (Title best = "")
           then insight else best)
        zeroInsight l
  = default (default zeroInsight (head l)) (spec.last_high l).
Proof.
  unfold spec.last_high.
  induction l as [|x l IH] using rev_ind; [done|].
  intros _ Hall. apply Forall_app in Hall as [Hl Hx].
  rewrite foldl_snoc, reverse_snoc. simpl. unfold spec.is_high at 1.
  destruct (bool_decide (Priority x = "high")) eqn:Hhigh; simpl; [done|].
  destruct l as [|y l]; [done|].
  rewrite IH by done.
  set (b := default _ _).
  assert (Hb : b ∈ y :: l).
  { subst b. destruct (List.find spec.is_high (reverse (y :: l))) as [i|] eqn:Hf; simpl.
    - apply find_some in Hf. destruct Hf as [Hin _]. apply list_elem_of_In in Hin.
      by rewrite elem_of_reverse in Hin.
    - left. }
  rewrite bool_decide_false; [done|].
  by apply (proj1 (Forall_forall _ _) Hl).
Qed.

(** C7, as amended.  For a non-empty list of insights whose titles are
    all non-empty, the reduction returns the title and message of the LAST
    high-priority insight in list order when there is one, and otherwise
    those of the first insight. *)
Theorem notification_prefers_last_high (insights : list AIInsight) :
  insights ≠ [] →
  Forall (λ i, Title i ≠ "") insights →
  (∀ i, spec.last_high insights = Some i →
        GenerateNotificationText insights = spec.heading i) ∧
  (spec.last_high insights = None →
   ∃ i, head insights = Some i ∧ GenerateNotificationText insights = spec.heading i).
Proof.
  intros Hne Hall. unfold GenerateNotificationText.
  rewrite bool_decide_false by (by destruct insights).
  rewrite best_titled by done.
  split.
  - by intros i ->.
  - intros ->. destruct insights as [|i l]; [done|]. by exists i.
Qed.

(** The three insights [fallbackInsights] can return carry these titles,
    in this order. *)
Lemma fallback_titles (data : SpendingData) (now : Z) :
  Title <$> fallbackInsights data now =
  (if 0 <? SavingsDeposits data then [spec.savings_title] else [])
  ++ (if 0 <? NetBalance data then [spec.surplus_title]
      else if NetBalance data <? 0 then [spec.deficit_title] else []).
Proof.
  unfold fallbackInsights.
  destruct (0 <? SavingsDeposits data), (0 <? NetBalance data), (NetBalance data <? 0);
    reflexivity.
Qed.

(** C6.  When the generator's answer does not decode as the array of
    insights, [AnalyzeSpending] returns, without error, exactly the
    fallback insights: the savings insight if and only if savings deposits
    are positive, then the surplus insight for a positive net balance or
    the deficit insight for a negative one, and neither at zero.  With a
    net balance of +500 and no savings the result is the surplus insight
    alone. *)
Theorem fallback_on_parse_failure
    (ctx : option Context) (data : SpendingData) (w w1 : World) (response err : string) :
  generateContent ctx (buildAnalysisPrompt data) w = (Ok response, w1) →
  parseInsights response (clock w1) = Error err →
  ∃ insights,
    AnalyzeSpending ctx data w = (Ok insights, w1) ∧
    insights = fallbackInsights data (clock w1) ∧
    Title <$> insights
    = (if 0 <? SavingsDeposits data then [spec.savings_title] else [])
      ++ (if 0 <? NetBalance data then [spec.surplus_title]
          else if NetBalance data <? 0 then [spec.deficit_title] else []) ∧
    (spec.savings_title ∈ Title <$> insights ↔ 0 < SavingsDeposits data) ∧
    (spec.surplus_title ∈ Title <$> insights ↔ 0 < NetBalance data) ∧
    (spec.deficit_title ∈ Title <$> insights ↔ NetBalance data < 0) ∧
    Z.of_nat (length insights)
    = (if 0 <? SavingsDeposits data then 1 else 0)
      + (if NetBalance data =? 0 then 0 else 1) ∧
    (NetBalance data = 50000 → SavingsDeposits data = 0 →
     Title <$> insights = [spec.surplus_title]).
Proof.
  intros Hgen Hparse. eexists. split.
  { unfold AnalyzeSpending. rewrite Hgen, Hparse. reflexivity. }
  split; [done|].
  assert (Hlen : ∀ l : list AIInsight, length l = length (Title <$> l))
    by (intros; by rewrite length_fmap).
  rewrite Hlen, fallback_titles.
  destruct (0 <? SavingsDeposits data) eqn:Es;
    destruct (0 <? NetBalance data) eqn:Ep;
    destruct (NetBalance data <? 0) eqn:En;
    destruct (NetBalance data =? 0) eqn:Ez;
    try lia; simpl;
    (split_and!;
     [reflexivity | title_case | title_case | title_case | lia | intros; done || lia]).
Qed.

(** C8, as amended.  When [AnalyzeSpending] returns insights, the
    generator was reached and answered, and the length of the list is
    fixed by the path taken: where the answer does not decode, the
    fallback insights, at most 2 (one for positive savings, one for a
    non-zero net balance, none when both are zero); where it decodes, as
    many insights as the decoded array has elements.  No bound of 2 from
    below or 3 from above is enforced. *)
Theorem insight_count_by_path
    (ctx : option Context) (data : SpendingData) (w w1 : World) (insights : list AIInsight) :
  AnalyzeSpending ctx data w = (Ok insights, w1) →
  ∃ response,
    generateContent ctx (buildAnalysisPrompt data) w = (Ok response, w1) ∧
    match json_insights (cleanResponse response) with
    | None =>
        insights = fallbackInsights data (clock w1) ∧
        Z.of_nat (length insights)
        = (if 0 <? SavingsDeposits data then 1 else 0)
          + (if NetBalance data =? 0 then 0 else 1) ∧
        (length insights ≤ 2)%nat
    | Some raw => length insights = length raw
    end.
Proof.
  unfold AnalyzeSpending, parseInsights.
  destruct (generateContent ctx (buildAnalysisPrompt data) w) as [[response|err] w'];
    [|discriminate].
  intros Hres. exists response.
  destruct (json_insights (cleanResponse response)) as [raw|];
    injection Hres as <- <-; split; try done.
  - by rewrite length_fmap.
  - assert (Hlen : ∀ l : list AIInsight, length l = length (Title <$> l))
      by (intros; by rewrite length_fmap).
    rewrite Hlen, fallback_titles.
    destruct (0 <? SavingsDeposits data), (0 <? NetBalance data) eqn:Ep,
      (NetBalance data <? 0) eqn:En, (NetBalance data =? 0) eqn:Ez;
      simpl; split_and!; lia || done.
Qed.

End Generator.

(** Two high-priority insights: the reduction returns the second. *)
Lemma notification_first_high_counterexample :
  ¬ (∀ insights : list services.AIInsight,
       insights ≠ [] →
       match spec.first_high insights with
       | Some i => services.GenerateNotificationText insights = spec.heading i
       | None => ∃ i, head insights = Some i ∧
                      services.GenerateNotificationText insights = spec.heading i
       end).
Proof.
  intros Hclaim.
  specialize (Hclaim [stubs.insight "A" "high"; stubs.insight "B" "high"] ltac:(done)).
  vm_compute in Hclaim. discriminate Hclaim.
Qed.

Lemma notification_prefers_last_high_witness :
  services.GenerateNotificationText
    [stubs.insight "A" "high"; stubs.insight "B" "high"; stubs.insight "C" "low"]
  = ("B", "About B") ∧
  services.GenerateNotificationText [stubs.insight "A" "low"; stubs.insight "B" "medium"]
  = ("A", "About A").
Proof.
  split.
  - refine (proj1 (notification_prefers_last_high
                     [stubs.insight "A" "high"; stubs.insight "B" "high";
                      stubs.insight "C" "low"] _ _) (stubs.insight "B" "high") _).
    + done.
    + by repeat constructor.
    + reflexivity.
  - destruct (proj2 (notification_prefers_last_high
                       [stubs.insight "A" "low"; stubs.insight "B" "medium"]
                       ltac:(done) ltac:(by repeat constructor)) eq_refl)
      as (i & Hhead & ->).
    by injection Hhead as <-.
Defined.

Lemma fallback_on_parse_failure_witness :
  ∃ insights w1,
    services.AnalyzeSpending (H := stubs.prose) (Some runtime.RequestContext) stubs.surplus (stubs.world_of [])
    = (Ok insights, w1) ∧
    services.Title <$> insights = [spec.surplus_title].
Proof.
  destruct (fallback_on_parse_failure (H := stubs.prose) (Some runtime.RequestContext) stubs.surplus
              (stubs.world_of [])
              (runtime.emit (runtime.EvGenerate (Some runtime.RequestContext) (services.buildAnalysisPrompt stubs.surplus))
                            (stubs.world_of []))
              "Spend less, save more." "failed to unmarshal insights"
              eq_refl eq_refl)
    as (insights & Hrun & _ & _ & _ & _ & _ & _ & Htitles).
  exists insights. eexists. split; [exact Hrun|].
  apply Htitles; reflexivity.
Defined.

(** A non-empty aggregate with a surplus and no savings, and an answer in
    prose: one insight is returned. *)
Lemma insight_count_counterexample :
  ¬ (∀ (E : runtime.External) ctx data w insights w1,
       services.TransactionCount data ≠ 0 →
       services.AnalyzeSpending ctx data w = (Ok insights, w1) →
       (2 ≤ length insights ≤ 3)%nat).
Proof.
  intros Hclaim.
  specialize (Hclaim stubs.prose (Some runtime.RequestContext) stubs.surplus (stubs.world_of []) _ _
                ltac:(done) eq_refl).
  vm_compute in Hclaim. lia.
Qed.

Lemma insight_count_by_path_witness :
  ∃ response,
    services.generateContent (H := stubs.empty_array) (Some runtime.RequestContext)
      (services.buildAnalysisPrompt stubs.surplus) (stubs.world_of [])
    = (Ok response,
       runtime.emit (runtime.EvGenerate (Some runtime.RequestContext) (services.buildAnalysisPrompt stubs.surplus))
                    (stubs.world_of [])) ∧
    services.cleanResponse response = "[]".
Proof.
  destruct (insight_count_by_path (H := stubs.empty_array) (Some runtime.RequestContext) stubs.surplus
              (stubs.world_of [])
              (runtime.emit (runtime.EvGenerate (Some runtime.RequestContext) (services.buildAnalysisPrompt stubs.surplus))
                            (stubs.world_of []))
              [] eq_refl) as (response & Hgen & _).
  exists response. split; [exact Hgen|].
  vm_compute in Hgen. by injection Hgen as <-.
Defined.

(** ** Batch sync *)

Section SyncProperties.

Import runtime database handlers.

Context `{External}.

Implicit Types (st : SyncLoop) (t : models.TransactionInput) (w : World).

(** One pass of the loop counts its candidate once. *)
Lemma sync_step_counts userID st t :
  insertedCount (sync_step userID st t) + skippedCount (sync_step userID st t)
  = insertedCount st + skippedCount st + 1 ∧
  insertedCount st ≤ insertedCount (sync_step userID st t) ∧
  skippedCount st ≤ skippedCount (sync_step userID st t).
Proof.
  unfold sync_step, uuid_New, insert_on_conflict_do_nothing.
  repeat case_match; simplify_eq/=; lia.
Qed.

Lemma sync_loop_counts userID (batch : list models.TransactionInput) st :
  let st' := foldl (sync_step userID) st batch in
  insertedCount st' + skippedCount st'
  = insertedCount st + skippedCount st + Z.of_nat (length batch) ∧
  insertedCount st ≤ insertedCount st' ∧
  skippedCount st ≤ skippedCount st'.
Proof.
  revert st. induction batch as [|t batch IH]; intros st; simpl.
  - lia.
  - specialize (IH (sync_step userID st t)). simpl in IH.
    pose proof (sync_step_counts userID st t). lia.
Qed.

(** The loop leaves the database of the world alone: its inserts go to
    the open transaction. *)
Lemma sync_step_world userID st t :
  db (loop_world (sync_step userID st t)) = db (loop_world st) ∧
  events (loop_world (sync_step userID st t)) = events (loop_world st) ∧
  clock (loop_world (sync_step userID st t)) = clock (loop_world st).
Proof.
  unfold sync_step, uuid_New, insert_on_conflict_do_nothing.
  repeat case_match; simplify_eq/=; done.
Qed.

Lemma sync_loop_world userID (batch : list models.TransactionInput) st :
  db (loop_world (foldl (sync_step userID) st batch)) = db (loop_world st) ∧
  events (loop_world (foldl (sync_step userID) st batch)) = events (loop_world st) ∧
  clock (loop_world (foldl (sync_step userID) st batch)) = clock (loop_world st).
Proof.
  revert st. induction batch as [|t batch IH]; intros st; simpl; [done|].
  destruct (IH (sync_step userID st t)) as (-> & -> & ->).
  apply sync_step_world.
Qed.

(** The conflict test of the insert, read on the rows. *)
Lemma conflict_iff id userID t (rows : list TransactionRow) :
  existsb (same_key (row_of id userID t)) rows = true
  ↔ ∃ r, r ∈ rows ∧ tx_user_id r = userID ∧ tx_sms_hash r = models.SMSHash t.
Proof.
  rewrite existsb_exists. unfold same_key. simpl. split.
  - intros (r & Hin & Hkey). exists r. apply list_elem_of_In in Hin.
    apply andb_true_iff in Hkey as [Hu Hh].
    apply bool_decide_eq_true in Hu. split_and!; [done | done | lia].
  - intros (r & Hin & Hu & Hh). exists r. split; [by apply list_elem_of_In|].
    apply andb_true_iff. split; [by apply bool_decide_eq_true | lia].
Qed.

(** Candidates with fresh, pairwise distinct hashes are all inserted. *)
Lemma sync_loop_fresh userID (batch : list models.TransactionInput) st :
  NoDup (models.SMSHash <$> batch) →
  (∀ r, r ∈ tx_rows st → tx_user_id r = userID →
        tx_sms_hash r ∉ models.SMSHash <$> batch) →
  (∀ t id, t ∈ batch → db_fails (InsertTransaction (row_of id userID t)) = false) →
  let st' := foldl (sync_step userID) st batch in
  insertedCount st' = insertedCount st + Z.of_nat (length batch) ∧
  skippedCount st' = skippedCount st ∧
  ∃ rows, tx_rows st' = tx_rows st ++ rows ∧
          Forall2 (λ r t, ∃ id, r = row_of id userID t) rows batch.
Proof.
  revert st. induction batch as [|t batch IH]; intros st Hnd Hfresh Hok; simpl.
  - split_and!; [lia | done |]. exists []. by rewrite app_nil_r.
  - rewrite fmap_cons in Hnd. apply NoDup_cons in Hnd as [Ht Hnd].
    set (id := uuid_next (loop_world st)).
    assert (Hstep : ∃ w1, sync_step userID st t
              = {| insertedCount := insertedCount st + 1;
                   skippedCount := skippedCount st;
                   tx_rows := tx_rows st ++ [row_of id userID t];
                   loop_world := w1 |}).
    { unfold sync_step, uuid_New. fold id.
      rewrite Hok by left.
      unfold insert_on_conflict_do_nothing.
      destruct (existsb _ _) eqn:Hex.
      - apply conflict_iff in Hex as (r & Hin & Hu & Hh).
        exfalso. apply (Hfresh r Hin Hu). rewrite Hh, fmap_cons. left.
      - simpl. by eexists. }
    destruct Hstep as [w1 Hstep]. rewrite Hstep.
    edestruct (IH {| insertedCount := insertedCount st + 1;
                     skippedCount := skippedCount st;
                     tx_rows := tx_rows st ++ [row_of id userID t];
                     loop_world := w1 |}) as (Hi & Hs & rows & Hrows & Hall).
    + done.
    + simpl. intros r Hin Hu. apply elem_of_app in Hin as [Hin|Hin].
      * intros Hmem. apply (Hfresh r Hin Hu). rewrite fmap_cons. by right.
      * apply list_elem_of_singleton in Hin as ->. done.
    + intros t' id' Hin. apply Hok. by right.
    + simpl in *. split_and!; [lia | done |].
      exists (row_of id userID t :: rows). split.
      * by rewrite Hrows, <- app_assoc.
      * constructor; [by exists id | done].
Qed.

(** Candidates whose key is already stored are all skipped, and nothing
    is written. *)
Lemma sync_loop_seen userID (batch : list models.TransactionInput) st :
  (∀ t, t ∈ batch →
        ∃ r, r ∈ tx_rows st ∧ tx_user_id r = userID ∧ tx_sms_hash r = models.SMSHash t) →
  let st' := foldl (sync_step userID) st batch in
  insertedCount st' = insertedCount st ∧
  skippedCount st' = skippedCount st + Z.of_nat (length batch) ∧
  tx_rows st' = tx_rows st.
Proof.
  revert st. induction batch as [|t batch IH]; intros st Hseen; simpl.
  - split_and!; [done | lia | done].
  - set (id := uuid_next (loop_world st)).
    assert (Hstep : ∃ w1, sync_step userID st t
              = {| insertedCount := insertedCount st;
                   skippedCount := skippedCount st + 1;
                   tx_rows := tx_rows st;
                   loop_world := w1 |}).
    { unfold sync_step, uuid_New. fold id.
      destruct (db_fails _); [by eexists|].
      unfold insert_on_conflict_do_nothing.
      rewrite (proj2 (conflict_iff id userID t (tx_rows st))) by (apply Hseen; left).
      simpl. by eexists. }
    destruct Hstep as [w1 Hstep]. rewrite Hstep.
    edestruct (IH {| insertedCount := insertedCount st;
                     skippedCount := skippedCount st + 1;
                     tx_rows := tx_rows st;
                     loop_world := w1 |}) as (Hi & Hs & Hrows).
    + simpl. intros t' Hin. apply Hseen. by right.
    + simpl in *. split_and!; [done | lia | done].
Qed.

(** C1.  A consenting user submits a batch of N candidates that the
    database accepts, with pairwise distinct hashes none of which the user
    has stored: the first [Sync] answers inserted = N, skipped = 0 and
    stores one row per candidate; the same batch submitted again at once
    answers inserted = 0, skipped = N and leaves the database as it was. *)
Theorem sync_idempotent (userID : string) (req : models.SyncRequest) (w : World) :
  let batch := models.Transactions req in
  let N := Z.of_nat (length batch) in
  select_consent userID (db w) = Some true →
  db_fails (SelectConsent userID) = false →
  db_fails Begin = false →
  db_fails Commit = false →
  (∀ t id, t ∈ batch → db_fails (InsertTransaction (row_of id userID t)) = false) →
  NoDup (models.SMSHash <$> batch) →
  (∀ r, r ∈ transactions (db w) → tx_user_id r = userID →
        tx_sms_hash r ∉ models.SMSHash <$> batch) →
  ∃ w1 w2 rows,
    Sync userID (Some req) w = (SyncCompleted N 0 N, w1) ∧
    transactions (db w1) = transactions (db w) ++ rows ∧
    Forall2 (λ r t, ∃ id, r = row_of id userID t) rows batch ∧
    Sync userID (Some req) w1 = (SyncCompleted 0 N N, w2) ∧
    db w2 = db w1.
Proof.
  intros batch N Hconsent Hq Hbegin Hcommit Hok Hnd Hfresh.
  set (st0 := {| insertedCount := 0; skippedCount := 0;
                 tx_rows := transactions (db w); loop_world := w |}).
  destruct (sync_loop_fresh userID batch st0 Hnd Hfresh Hok)
    as (Hi & Hs & rows & Hrows & Hall).
  destruct (sync_loop_world userID batch st0) as (Hdb & _).
  set (st1 := foldl (sync_step userID) st0 batch) in *.
  set (w1 := set_db {| users := users (db w); transactions := tx_rows st1;
                       user_insights := user_insights (db w) |} (loop_world st1)).
  assert (Hfirst : Sync userID (Some req) w = (SyncCompleted N 0 N, w1)).
  { unfold Sync. rewrite Hq, Hconsent, Hbegin, Hcommit.
    fold batch st0 st1 w1. rewrite Hi, Hs. simpl. by rewrite Z.add_0_l. }
  set (st0' := {| insertedCount := 0; skippedCount := 0;
                  tx_rows := transactions (db w1); loop_world := w1 |}).
  assert (Hseen : ∀ t, t ∈ batch →
            ∃ r, r ∈ tx_rows st0' ∧ tx_user_id r = userID
                 ∧ tx_sms_hash r = models.SMSHash t).
  { intros t Hin. simpl. rewrite Hrows.
    apply list_elem_of_lookup in Hin as [i Hi'].
    destruct (Forall2_lookup_r _ _ _ _ _ Hall Hi') as (r & Hr & id & ->).
    exists (row_of id userID t). split_and!; [|done..].
    apply elem_of_app. right. by eapply list_elem_of_lookup_2. }
  destruct (sync_loop_seen userID batch st0' Hseen) as (Hi2 & Hs2 & Hrows2).
  destruct (sync_loop_world userID batch st0') as (Hdb2 & _).
  set (st2 := foldl (sync_step userID) st0' batch) in *.
  exists w1, (set_db {| users := users (db w1); transactions := tx_rows st2;
                        user_insights := user_insights (db w1) |} (loop_world st2)), rows.
  split_and!; [done | done | done | |].
  - unfold Sync.
    assert (Hc1 : select_consent userID (db w1) = Some true) by done.
    rewrite Hq, Hc1, Hbegin, Hcommit.
    fold batch st0' st2. rewrite Hi2, Hs2. simpl. by rewrite Z.add_0_l.
  - simpl. rewrite Hrows2. reflexivity.
Qed.

(** C2.  Against a user whose consent flag is false, [Sync] answers a
    decoded request with the permission error, and whatever the request,
    the world it returns is the world it was given: no candidate is
    inserted, none is even looked at. *)
Theorem sync_consent_gate
    (userID : string) (req : models.SyncRequest) (body : option models.SyncRequest)
    (w : World) :
  select_consent userID (db w) = Some false →
  Sync userID (Some req) w = (SyncForbidden, w) ∧
  (Sync userID body w).2 = w ∧
  transactions (db (Sync userID body w).2) = transactions (db w).
Proof.
  intros Hconsent.
  assert (Hany : ∀ r, Sync userID (Some r) w = (SyncForbidden, w)).
  { intros r. unfold Sync. rewrite Hconsent. by destruct (db_fails _). }
  split; [apply Hany|].
  destruct body as [r|]; [rewrite Hany|]; done.
Qed.

(** C10.  Whenever [Sync] answers with counts, inserted + skipped = total
    and total is the length of the submitted batch, whatever the database
    did with the single inserts; and it does answer with counts once the
    request is decoded, the user consents and the transaction opens and
    commits. *)
Theorem sync_counts_add_up (userID : string) (req : models.SyncRequest) (w : World) :
  (∀ inserted skipped total w',
     Sync userID (Some req) w = (SyncCompleted inserted skipped total, w') →
     inserted + skipped = total ∧
     total = Z.of_nat (length (models.Transactions req)) ∧
     0 ≤ inserted ∧ 0 ≤ skipped) ∧
  (select_consent userID (db w) = Some true →
   db_fails (SelectConsent userID) = false →
   db_fails Begin = false →
   db_fails Commit = false →
   ∃ inserted skipped w',
     Sync userID (Some req) w
     = (SyncCompleted inserted skipped (Z.of_nat (length (models.Transactions req))), w')).
Proof.
  split.
  - intros inserted skipped total w'. unfold Sync.
    repeat case_match; try discriminate.
    intros [= <- <- <- <-].
    match goal with
    | |- context [foldl (sync_step userID) ?s ?l] =>
        pose proof (sync_loop_counts userID l s) as Hc
    end.
    simpl in Hc. lia.
  - intros Hconsent Hq Hbegin Hcommit. unfold Sync.
    rewrite Hq, Hconsent, Hbegin, Hcommit. by eexists _, _, _.
Qed.

End SyncProperties.

Lemma sync_idempotent_witness :
  ∃ w1 w2,
    handlers.Sync (H := stubs.prose) "alice" (Some stubs.batch) (stubs.world_of [])
    = (handlers.SyncCompleted 3 0 3, w1) ∧
    handlers.Sync (H := stubs.prose) "alice" (Some stubs.batch) w1
    = (handlers.SyncCompleted 0 3 3, w2) ∧
    runtime.db w2 = runtime.db w1.
Proof.
  destruct (sync_idempotent (H := stubs.prose) "alice" stubs.batch (stubs.world_of []))
    as (w1 & w2 & rows & Hfirst & _ & _ & Hsecond & Hdb).
  - reflexivity.
  - reflexivity.
  - reflexivity.
  - reflexivity.
  - intros t id Hin. reflexivity.
  - apply (bool_decide_unpack _). by vm_compute.
  - intros r Hin. by apply elem_of_nil in Hin.
  - by exists w1, w2.
Defined.

Lemma sync_consent_gate_witness :
  handlers.Sync (H := stubs.prose) "carol" (Some stubs.batch) (stubs.world_of stubs.ledger)
  = (handlers.SyncForbidden, stubs.world_of stubs.ledger).
Proof.
  apply (sync_consent_gate (H := stubs.prose) "carol" stubs.batch None
           (stubs.world_of stubs.ledger)).
  reflexivity.
Defined.

Lemma sync_counts_add_up_witness :
  ∃ w',
    handlers.Sync (H := stubs.prose) "alice" (Some stubs.ragged)
      (stubs.world_of stubs.ledger)
    = (handlers.SyncCompleted 1 2 3, w') ∧ 1 + 2 = 3.
Proof.
  eexists. split; [reflexivity|].
  eapply (proj1 (sync_counts_add_up (H := stubs.prose) "alice" stubs.ragged
                   (stubs.world_of stubs.ledger)) 1 2 3).
  reflexivity.
Defined.

(** ** The calendar *)

Section Calendar.

(** The civil date of a day number has a month in 1..12 and a day in
    1..31, and [days_from_civil] finds the day number again; a day of the
    month that overflows moves the day number by as much. *)
Lemma civil_roundtrip (n : Z) :
  ∃ y m d, time.civil_from_days n = (y, m, d) ∧ 1 ≤ m ≤ 12 ∧ 1 ≤ d ≤ 31 ∧
           ∀ k, time.days_from_civil y m k = n + (k - d).
Proof.
  unfold time.civil_from_days.
  set (z := n + 719468).
  set (era := z / 146097).
  set (doe := z - era * 146097).
  set (yoe := (doe - doe / 1460 + doe / 36524 - doe / 146096) / 365).
  set (doy := doe - (365 * yoe + yoe / 4 - yoe / 100)).
  set (mp := (5 * doy + 2) / 153).
  set (d := doy - (153 * mp + 2) / 5 + 1).
  assert (Hdoe : 0 ≤ doe < 146097) by (subst doe era; Z.div_mod_to_equations; lia).
  assert (Hy : 0 ≤ yoe ≤ 399 ∧ 0 ≤ doy ≤ 365).
  { subst doy yoe. clearbody doe. clear -Hdoe. Z.div_mod_to_equations; lia. }
  assert (Hmp : 0 ≤ mp ≤ 11 ∧ 1 ≤ d ≤ 31).
  { subst d mp. clearbody doy. clear -Hy. Z.div_mod_to_equations; lia. }
  eexists _, _, _. split; [reflexivity|].
  split; [destruct (mp <? 10) eqn:E; lia|].
  split; [lia|].
  intros k. unfold time.days_from_civil.
  destruct (mp <? 10) eqn:E.
  - replace (mp + 3 <=? 2) with false by lia.
    replace (2 <? mp + 3) with true by lia.
    replace ((yoe + era * 400) / 400) with era
      by (clearbody era; Z.div_mod_to_equations; lia).
    replace (mp + 3 - 3) with mp by lia.
    replace (yoe + era * 400 - era * 400) with yoe by lia.
    subst d doy doe z. lia.
  - replace (mp - 9 <=? 2) with true by lia.
    replace (2 <? mp - 9) with false by lia.
    replace (yoe + era * 400 + 1 - 1) with (yoe + era * 400) by lia.
    replace ((yoe + era * 400) / 400) with era
      by (clearbody era; Z.div_mod_to_equations; lia).
    replace (mp - 9 + 9) with mp by lia.
    replace (yoe + era * 400 - era * 400) with yoe by lia.
    subst d doy doe z. lia.
Qed.

(** Adding whole days moves an instant by as many times 24 hours. *)
Lemma AddDate_days (loc t days : Z) : time.AddDate loc t 0 0 days = t + days * time.day.
Proof.
  unfold time.AddDate.
  destruct (civil_roundtrip ((t + loc) / time.day)) as (y & m & d & -> & Hm & Hd & Hdays).
  unfold time.Date. rewrite !Z.add_0_r.
  replace ((m - 1) / 12) with 0 by (Z.div_mod_to_equations; lia).
  replace ((m - 1) mod 12 + 1) with m by (Z.div_mod_to_equations; lia).
  rewrite Z.add_0_r, Hdays.
  unfold time.day, time.Hour, time.Minute, time.Second in *. simpl.
  Z.div_mod_to_equations; lia.
Qed.

(** The scheduler sleeps until the first 06:00 of the local zone that is
    not before the clock: at most 24 hours. *)
Lemma next_run_spec (w : runtime.World) :
  0 ≤ main.next_run w - runtime.clock w < 24 * time.Hour ∧
  (main.next_run w + runtime.zone w) mod time.day = 6 * time.Hour.
Proof.
  unfold main.next_run.
  destruct (civil_roundtrip ((runtime.clock w + runtime.zone w) / time.day))
    as (y & m & d & -> & Hm & Hd & Hdays).
  unfold time.Date.
  replace ((m - 1) / 12) with 0 by (Z.div_mod_to_equations; lia).
  replace ((m - 1) mod 12 + 1) with m by (Z.div_mod_to_equations; lia).
  rewrite Z.add_0_r, Hdays.
  unfold time.day, time.Hour, time.Minute, time.Second in *. simpl.
  destruct (_ <? _) eqn:E; split; Z.div_mod_to_equations; lia.
Qed.

End Calendar.

(** ** Lists *)

Lemma filter_none {A} (P : A → Prop) `{∀ x, Decision (P x)} (l : list A) :
  (∀ x, x ∈ l → ¬ P x) → filter P l = [].
Proof.
  induction l as [|x l IH]; intros Hnone; [done|].
  rewrite filter_cons_False by (apply Hnone; left).
  apply IH. intros y Hy. apply Hnone. by right.
Qed.

(** ** The spending aggregate *)

Section Aggregate.

Import runtime database handlers.

Context `{External}.

Implicit Types (rows : list TransactionRow) (r : TransactionRow).

Lemma foldl_add_foldr (l : list Z) (a : Z) : foldl Z.add a l = a + foldr Z.add 0 l.
Proof.
  revert a. induction l as [|x l IH]; intros a; simpl; [lia|]. rewrite IH. lia.
Qed.

(** [COALESCE(SUM(...), 0)] is the plain sum. *)
Lemma coalesce_sum (l : list Z) : COALESCE (SUM l) 0 = foldr Z.add 0 l.
Proof.
  destruct l as [|x l]; [done|]. unfold SUM, COALESCE.
  rewrite foldl_add_foldr. lia.
Qed.

(** Summing a [CASE] over all rows is summing over the rows of the kind. *)
Lemma sum_case_total (kind : string) rows :
  COALESCE (SUM (CASE_WHEN_type kind <$> rows)) 0
  = spec.total (λ r, tx_type r = kind) rows.
Proof.
  rewrite coalesce_sum. unfold spec.total.
  induction rows as [|r rows IH]; [done|].
  rewrite fmap_cons, filter_cons. simpl. rewrite IH.
  unfold CASE_WHEN_type. case_bool_decide; case_decide; try done; simpl; lia.
Qed.

Lemma sum_amount_total rows :
  COALESCE (SUM (tx_amount <$> rows)) 0 = spec.total (λ _, True) rows.
Proof.
  rewrite coalesce_sum. unfold spec.total.
  induction rows as [|r rows IH]; [done|].
  rewrite fmap_cons, filter_cons_True by done. simpl. by rewrite IH.
Qed.

Lemma total_filter (P Q : TransactionRow → Prop)
    `{∀ r, Decision (P r)} `{∀ r, Decision (Q r)} rows :
  spec.total P (filter Q rows) = spec.total (λ r, Q r ∧ P r) rows.
Proof.
  unfold spec.total. f_equal.
  induction rows as [|r rows IH]; [done|].
  rewrite !filter_cons.
  destruct (decide (Q r)) as [HQ|HQ]; [rewrite filter_cons|];
    destruct (decide (P r)) as [HP|HP];
    destruct (decide (Q r ∧ P r)) as [HQP|HQP];
    first [by rewrite IH | exfalso; tauto].
Qed.

Lemma total_ext (P Q : TransactionRow → Prop)
    `{∀ r, Decision (P r)} `{∀ r, Decision (Q r)} rows :
  (∀ r, P r ↔ Q r) → spec.total P rows = spec.total Q rows.
Proof.
  intros HPQ. unfold spec.total. f_equal.
  induction rows as [|r rows IH]; [done|].
  rewrite !filter_cons.
  destruct (decide (P r)) as [HP|HP]; destruct (decide (Q r)) as [HQ|HQ];
    first [by rewrite IH | exfalso; apply HPQ in HP; tauto | exfalso; apply HPQ in HQ; tauto].
Qed.

(** The map the loop over the category rows builds. *)
Lemma inserts_other (l : list (string * Z)) (m : gmap string Z) (c : string) :
  c ∉ l.*1 →
  foldl (λ (m : gmap string Z) ca, <[ca.1 := ca.2]> m) m l !! c = m !! c.
Proof.
  revert m. induction l as [|[c' v'] l IH]; intros m Hc; simpl; [done|].
  rewrite fmap_cons in Hc. apply not_elem_of_cons in Hc as [Hne Hc].
  rewrite IH by done. by rewrite lookup_insert_ne.
Qed.

Lemma inserts_member (l : list (string * Z)) (m : gmap string Z) (c : string) (v : Z) :
  NoDup l.*1 → (c, v) ∈ l →
  foldl (λ (m : gmap string Z) ca, <[ca.1 := ca.2]> m) m l !! c = Some v.
Proof.
  revert m. induction l as [|[c' v'] l IH]; intros m Hnd Hin; simpl.
  - by apply elem_of_nil in Hin.
  - rewrite fmap_cons in Hnd. apply NoDup_cons in Hnd as [Hc' Hnd].
    apply elem_of_cons in Hin as [[= <- <-]|Hin].
    + rewrite inserts_other by done. by rewrite lookup_insert_eq.
    + by apply IH.
Qed.

(** What the category map holds under a key. *)
Lemma by_category_lookup (userID : string) (start : Z) (d : DB) (c : string) :
  let expenses :=
    filter (λ r, tx_type r = "EXPENSE")
           (filter (in_window userID start) (transactions d)) in
  foldl (λ (m : gmap string Z) ca, <[ca.1 := ca.2]> m) ∅
        (select_by_category userID start d) !! c
  = if decide (c ∈ tx_category <$> expenses)
    then Some (spec.total (λ r, tx_category r = c) expenses)
    else None.
Proof.
  intros expenses. unfold select_by_category. fold expenses.
  set (cats := remove_dups (tx_category <$> expenses)).
  set (f := λ cat : string,
         (cat, COALESCE (SUM (tx_amount <$> filter (λ r, tx_category r = cat) expenses)) 0)).
  assert (Hkeys : (f <$> cats).*1 = cats).
  { rewrite <- list_fmap_compose. apply list_fmap_id. }
  destruct (decide (c ∈ tx_category <$> expenses)) as [Hin|Hout].
  - rewrite (inserts_member _ _ c (f c).2).
    + simpl. f_equal. rewrite sum_amount_total, total_filter.
      apply total_ext. tauto.
    + rewrite Hkeys. apply NoDup_remove_dups.
    + apply (list_elem_of_fmap_2 f). by apply elem_of_remove_dups.
  - rewrite inserts_other; [done|].
    rewrite Hkeys. unfold cats. by rewrite elem_of_remove_dups.
Qed.

(** C4, as amended.  The window of the aggregate has a start and no end:
    it holds the user's transactions dated at or after the start of the
    period, later than the clock included.  Over that window, and when the
    queries succeed: total income is the sum of the INCOME amounts, total
    expenses the sum of the EXPENSE amounts, net balance their difference,
    the count the number of rows; the category map has a key exactly for
    the categories of the window's EXPENSE rows and holds the sum of their
    amounts; and the aggregate is the same in every world with the same
    clock and the same rows of the user in the window, so that rows dated
    before the start contribute nothing.  The start is the clock minus 24
    hours for "daily" and minus 7 times 24 hours for "weekly". *)
Theorem aggregate_over_window (h : InsightsHandler) (userID period : string) (w : World) :
  let start := startDate period w in
  let rows := transactions (db w) in
  db_fails (SelectTotals userID start) = false →
  db_fails (SelectByCategory userID start) = false →
  ∃ data,
    fetchSpendingData h userID period w = Some data ∧
    services.TotalIncome data
    = spec.total (λ r, in_window userID start r ∧ tx_type r = "INCOME") rows ∧
    services.TotalExpenses data
    = spec.total (λ r, in_window userID start r ∧ tx_type r = "EXPENSE") rows ∧
    services.NetBalance data = services.TotalIncome data - services.TotalExpenses data ∧
    services.TransactionCount data
    = Z.of_nat (length (filter (in_window userID start) rows)) ∧
    (∀ c, default 0 (services.ByCategory data !! c)
          = spec.total (λ r, in_window userID start r ∧ tx_type r = "EXPENSE"
                             ∧ tx_category r = c) rows) ∧
    (∀ c, is_Some (services.ByCategory data !! c)
          ↔ ∃ r, r ∈ rows ∧ in_window userID start r ∧ tx_type r = "EXPENSE"
                 ∧ tx_category r = c) ∧
    (∀ w', clock w' = clock w → zone w' = zone w →
           filter (in_window userID start) (transactions (db w'))
           = filter (in_window userID start) rows →
           fetchSpendingData h userID period w' = Some data) ∧
    (period = "daily" → start = clock w - time.day) ∧
    (period = "weekly" → start = clock w - 7 * time.day).
Proof.
  intros start rows Htotals Hcats.
  eexists. split.
  { unfold fetchSpendingData. fold start. rewrite Htotals, Hcats.
    unfold select_totals. reflexivity. }
  simpl. fold rows. split_and!;
    try (intros ->; unfold start, startDate; simpl; rewrite AddDate_days; lia).
  - by rewrite sum_case_total, total_filter.
  - by rewrite sum_case_total, total_filter.
  - done.
  - done.
  - intros c. unfold rows. rewrite by_category_lookup. simpl. case_decide as Hc; simpl.
    + rewrite !total_filter. apply total_ext. tauto.
    + symmetry. unfold spec.total.
      rewrite filter_none; [done|].
      intros r Hin (Hw & He & Hcat). apply Hc.
      rewrite <- Hcat. apply list_elem_of_fmap_2.
      by rewrite !list_elem_of_filter.
  - intros c. unfold rows. rewrite by_category_lookup. simpl. case_decide as Hc.
    + split; [|by eauto]. intros _.
      apply list_elem_of_fmap in Hc as (r & -> & Hr).
      rewrite !list_elem_of_filter in Hr. exists r. tauto.
    + split; [by intros [? ?]|]. intros (r & Hin & Hw & He & Hcat).
      exfalso. apply Hc. rewrite <- Hcat. apply list_elem_of_fmap_2.
      by rewrite !list_elem_of_filter.
  - intros w' Hclock Hzone Hsame.
    assert (Hstart : startDate period w' = start).
    { unfold start, startDate. by rewrite Hclock, Hzone. }
    unfold fetchSpendingData. rewrite Hstart, Htotals, Hcats.
    unfold select_totals, select_by_category, select_savings.
    rewrite Hsame. reflexivity.
Qed.

End Aggregate.

(** An income dated an hour after the clock is summed although it lies
    outside the interval from the start of the period to the clock. *)
Lemma aggregate_window_counterexample :
  ¬ (∀ (E : runtime.External) h userID period w data,
       handlers.fetchSpendingData h userID period w = Some data →
       services.TotalIncome data
       = spec.total (λ r, database.tx_user_id r = userID
                          ∧ handlers.startDate period w ≤ database.tx_date r
                            ≤ runtime.clock w
                          ∧ database.tx_type r = "INCOME")
                    (database.transactions (runtime.db w))).
Proof.
  intros Hclaim.
  destruct (handlers.fetchSpendingData (H := stubs.prose) stubs.handler "alice" "daily"
              (stubs.world_of stubs.postdated)) as [data|] eqn:Hfetch.
  - specialize (Hclaim stubs.prose stubs.handler "alice" "daily"
                  (stubs.world_of stubs.postdated) data Hfetch).
    vm_compute in Hfetch. injection Hfetch as <-.
    vm_compute in Hclaim. discriminate Hclaim.
  - vm_compute in Hfetch. discriminate Hfetch.
Qed.

Lemma aggregate_over_window_witness :
  ∃ data,
    handlers.fetchSpendingData (H := stubs.prose) stubs.handler "alice" "daily"
      (stubs.world_of stubs.ledger) = Some data ∧
    services.TotalIncome data = 150000 ∧
    services.TotalExpenses data = 12500 ∧
    services.NetBalance data = 137500 ∧
    services.ByCategory data !! "AIRTIME" = Some 2500 ∧
    services.ByCategory data !! "RENT" = None.
Proof.
  destruct (aggregate_over_window (H := stubs.prose) stubs.handler "alice" "daily"
              (stubs.world_of stubs.ledger) eq_refl eq_refl)
    as (data & Hfetch & _).
  exists data. split; [exact Hfetch|].
  vm_compute in Hfetch. injection Hfetch as <-.
  by vm_compute.
Defined.

(** ** The insight pipeline: on demand and in the daily sweep *)

Section Pipeline.

Import runtime database handlers.

Context `{External}.

Implicit Types (w : World) (st : SweepLoop) (h : InsightsHandler).

(** The ghost event changes nothing the aggregate reads. *)
Lemma fetch_after_emit h userID period e w :
  fetchSpendingData h userID period (emit e w) = fetchSpendingData h userID period w.
Proof. reflexivity. Qed.

(** No row in the window: the aggregate, when it is computed, counts zero. *)
Lemma fetch_empty_window h userID period w data :
  (∀ r, r ∈ transactions (db w) → ¬ in_window userID (startDate period w) r) →
  fetchSpendingData h userID period w = Some data →
  services.TransactionCount data = 0.
Proof.
  intros Hnone. unfold fetchSpendingData.
  destruct (db_fails (SelectTotals _ _)); [discriminate|].
  unfold select_totals. intros [= <-]. simpl.
  by rewrite filter_none.
Qed.

(** C5.  For a user with no transaction dated at or after the start of
    the daily window, 24 hours before the clock (the window has no upper
    bound), neither the on-demand endpoint nor the per-user step of the
    sweep reaches the generator or stores an insight: the endpoint answers
    without insights and returns the world unchanged; the step leaves its
    counters alone and adds nothing to the trace but its own visit mark,
    while the time of its queries passes. *)
Theorem empty_window_short_circuit h (userID : string) (fcmToken : option string) st :
  let w := sweep_world st in
  (∀ r, r ∈ transactions (db w) → ¬ in_window userID (startDate "daily" w) r) →
  (∃ resp, GenerateInsights h userID w = (resp, w) ∧
           (resp = InsightsNoTransactions ∨ resp = InsightsFetchFailed)) ∧
  sweep_step h st (userID, fcmToken)
  = {| successCount := successCount st; errorCount := errorCount st;
       sweep_world := elapse (takes (emit (EvVisit userID) w))
                             (emit (EvVisit userID) w) |} ∧
  spec.generate_calls (events (sweep_world (sweep_step h st (userID, fcmToken))))
  = spec.generate_calls (events w) ∧
  user_insights (db (sweep_world (sweep_step h st (userID, fcmToken))))
  = user_insights (db w).
Proof.
  intros w Hnone.
  assert (Hstep : sweep_step h st (userID, fcmToken)
                  = {| successCount := successCount st; errorCount := errorCount st;
                       sweep_world := elapse (takes (emit (EvVisit userID) w))
                                             (emit (EvVisit userID) w) |}).
  { unfold sweep_step. fold w. rewrite fetch_after_emit.
    destruct (fetchSpendingData h userID "daily" w) as [data|] eqn:Hfetch; [|done].
    by rewrite (fetch_empty_window _ _ _ _ _ Hnone Hfetch). }
  split_and!.
  - unfold GenerateInsights.
    destruct (fetchSpendingData h userID "daily" w) as [data|] eqn:Hfetch.
    + rewrite (fetch_empty_window _ _ _ _ _ Hnone Hfetch). simpl. eauto.
    + eauto.
  - exact Hstep.
  - rewrite Hstep. simpl. unfold spec.generate_calls.
    rewrite filter_app, filter_cons_False by done. by rewrite filter_nil, app_nil_r.
  - by rewrite Hstep.
Qed.

End Pipeline.

Lemma empty_window_short_circuit_witness :
  handlers.GenerateInsights (H := stubs.prose) stubs.handler "carol"
    (stubs.world_of stubs.ledger)
  = (handlers.InsightsNoTransactions, stubs.world_of stubs.ledger) ∧
  runtime.events
    (handlers.sweep_world
       (handlers.sweep_step (H := stubs.prose) stubs.handler
          (spec.sweep_start (stubs.world_of stubs.ledger)) ("carol", Some "token-c")))
  = [runtime.EvSweepStart; runtime.EvVisit "carol"].
Proof.
  destruct (empty_window_short_circuit (H := stubs.prose) stubs.handler "carol"
              (Some "token-c")
              {| handlers.successCount := 0; handlers.errorCount := 0;
                 handlers.sweep_world := stubs.world_of stubs.ledger |})
    as ((resp & Hrun & _) & _).
  { intros r Hin. simpl in Hin.
    repeat (apply elem_of_cons in Hin as [->|Hin]);
      try (by apply elem_of_nil in Hin);
      intros [Huser _]; discriminate Huser. }
  split; [|reflexivity].
  simpl in Hrun. rewrite Hrun. f_equal.
  vm_compute in Hrun. by injection Hrun as <-.
Defined.

(** Alice's one transaction is dated an hour after the clock: the interval
    from the start of the daily period to the clock holds none of hers, yet
    the endpoint asks the generator and answers with an insight. *)
Lemma empty_window_counterexample :
  ¬ (∀ (E : runtime.External) h userID w,
       (∀ r, r ∈ database.transactions (runtime.db w) →
             ¬ (database.tx_user_id r = userID
                ∧ handlers.startDate "daily" w ≤ database.tx_date r ≤ runtime.clock w)) →
       let r := handlers.GenerateInsights h userID w in
       (∀ insights period analyzed,
          r.1 ≠ handlers.InsightsOK insights period analyzed) ∧
       spec.generate_calls (runtime.events r.2)
       = spec.generate_calls (runtime.events w)).
Proof.
  intros Hclaim.
  destruct (Hclaim stubs.prose stubs.handler "alice" (stubs.world_of stubs.postdated))
    as [Hnone Hcalls].
  { intros r Hin (_ & _ & Hhi). simpl in Hin.
    apply list_elem_of_singleton in Hin as ->.
    vm_compute in Hhi. exact (Hhi eq_refl). }
  vm_compute in Hcalls. discriminate Hcalls.
Qed.

(** ** The daily sweep and its scheduler *)

Section Sweep.

Import runtime database handlers.

Context `{External}.

Implicit Types (w : World) (st : SweepLoop) (h : InsightsHandler) (evs : list Event).

(** [AnalyzeSpending] leaves the world as it is but for the trace, which
    gets the request when there is a context to make one with. *)
Lemma analyze_world ctx data w r w1 :
  services.AnalyzeSpending ctx data w = (r, w1) →
  w1 = match ctx with
       | Some _ => emit (EvGenerate ctx (services.buildAnalysisPrompt data)) w
       | None => w
       end.
Proof.
  unfold services.AnalyzeSpending, services.generateContent.
  repeat case_match; simplify_eq/=; congruence.
Qed.

(** With the [nil] context no request can be created: nothing is sent,
    whatever the generator would have answered. *)
Lemma analyze_nil_context data w :
  services.AnalyzeSpending None data w
  = (Error "failed to generate content: failed to create request: net/http: nil Context",
     w).
Proof. reflexivity. Qed.

(** One turn of the sweep loop.  The loop hands [AnalyzeSpending] the
    [nil] context, so the turn of a user with transactions counts an error,
    and no turn stores, pushes or sleeps. *)
Lemma sweep_step_exact h st (userID : string) (fcmToken : option string) :
  sweep_step h st (userID, fcmToken)
  = {| successCount := successCount st;
       errorCount := errorCount st
                     + (if views.active h (sweep_world st) userID then 1 else 0);
       sweep_world := elapse (takes (emit (EvVisit userID) (sweep_world st)))
                             (emit (EvVisit userID) (sweep_world st)) |}.
Proof.
  unfold sweep_step, views.active. rewrite fetch_after_emit.
  destruct (fetchSpendingData h userID "daily" (sweep_world st)) as [data|];
    [|by rewrite Z.add_0_r].
  destruct (services.TransactionCount data =? 0); simpl; [by rewrite Z.add_0_r|].
  reflexivity.
Qed.

(** The whole loop: every row is visited once, in order; each turn counts
    at most one error; the database is as it was and the clock has not gone
    back. *)
Lemma sweep_loop_exact h (sel : list (string * option string)) st :
  ∃ errors took,
    foldl (sweep_step h) st sel
    = {| successCount := successCount st;
         errorCount := errorCount st + errors;
         sweep_world :=
           {| db := db (sweep_world st); clock := clock (sweep_world st) + took;
              zone := zone (sweep_world st); uuid_next := uuid_next (sweep_world st);
              events := events (sweep_world st) ++ (EvVisit <$> sel.*1) |} |} ∧
    0 ≤ errors ≤ Z.of_nat (length sel) ∧ 0 ≤ took.
Proof.
  revert st. induction sel as [|[userID fcmToken] sel IH]; intros st.
  - exists 0, 0. split; [|lia].
    destruct st as [s e [d c z n evs]]. simpl. by rewrite !Z.add_0_r, app_nil_r.
  - change (foldl (sweep_step h) st ((userID, fcmToken) :: sel))
      with (foldl (sweep_step h) (sweep_step h st (userID, fcmToken)) sel).
    destruct (IH (sweep_step h st (userID, fcmToken))) as (errors & took & -> & He & Ht).
    rewrite sweep_step_exact.
    cbn [successCount errorCount sweep_world elapse emit db clock zone uuid_next events].
    set (e1 := if views.active h (sweep_world st) userID then 1 else 0).
    set (t1 := Z.max 0 (takes _)).
    exists (e1 + errors), (t1 + took).
    rewrite fmap_cons, fmap_cons, <- app_assoc, !Z.add_assoc. cbn [fst app length].
    split; [reflexivity|].
    assert (0 ≤ e1 ≤ 1) by (subst e1; destruct (views.active _ _ _); lia).
    lia.
Qed.

(** A sweep whose users query succeeds: started, every row visited, and
    completed with no success; the database is as it was and time has
    passed. *)
Lemma run_exact h w :
  db_fails SelectSweepUsers = false →
  ∃ errors took,
    RunDailyAnalysis h w
    = {| db := db w; clock := clock w + took; zone := zone w;
         uuid_next := uuid_next w;
         events := events w
                   ++ EvSweepStart :: (EvVisit <$> (select_sweep_users (db w)).*1)
                   ++ [EvSweepComplete 0 errors] |} ∧
    0 ≤ errors ≤ Z.of_nat (length (select_sweep_users (db w))) ∧ 0 < took.
Proof.
  intros Hok. unfold RunDailyAnalysis. rewrite Hok.
  set (w0 := elapse _ (emit EvSweepStart w)).
  destruct (sweep_loop_exact h (select_sweep_users (db w0))
              {| successCount := 0; errorCount := 0; sweep_world := w0 |})
    as (errors & took & -> & He & Ht).
  cbn [successCount errorCount sweep_world].
  subst w0. unfold emit, elapse in *. cbn [db clock zone uuid_next events] in *.
  set (t0 := Z.max 0 (Z.max 1 _)).
  exists errors, (t0 + took).
  rewrite Z.add_0_l, <- !app_assoc, Z.add_assoc.
  split; [reflexivity|]. subst t0. lia.
Qed.

(** A sweep whose users query fails. *)
Lemma run_fetch_failed h w :
  db_fails SelectSweepUsers = true →
  ∃ took,
    RunDailyAnalysis h w
    = {| db := db w; clock := clock w + took; zone := zone w;
         uuid_next := uuid_next w;
         events := events w ++ [EvSweepStart; EvSweepFetchFailed] |} ∧
    0 < took.
Proof.
  intros Hq. unfold RunDailyAnalysis. rewrite Hq.
  unfold emit, elapse. cbn [db clock zone uuid_next events].
  eexists. rewrite <- app_assoc. split; [reflexivity|]. lia.
Qed.

(** A sweep takes time and keeps the zone. *)
Lemma run_clock h w :
  clock w < clock (RunDailyAnalysis h w) ∧ zone (RunDailyAnalysis h w) = zone w.
Proof.
  destruct (db_fails SelectSweepUsers) eqn:Hq.
  - destruct (run_fetch_failed h w Hq) as (took & -> & Ht). simpl. split; [lia|done].
  - destruct (run_exact h w Hq) as (errors & took & -> & _ & Ht). simpl. split; [lia|done].
Qed.

Lemma visited_app evs1 evs2 :
  spec.visited (evs1 ++ evs2) = spec.visited evs1 ++ spec.visited evs2.
Proof. apply omap_app. Qed.

Lemma sweeps_started_app evs1 evs2 :
  spec.sweeps_started (evs1 ++ evs2)
  = (spec.sweeps_started evs1 + spec.sweeps_started evs2)%nat.
Proof. unfold spec.sweeps_started. by rewrite filter_app, length_app. Qed.

Lemma sweeps_completed_app evs1 evs2 :
  spec.sweeps_completed (evs1 ++ evs2)
  = (spec.sweeps_completed evs1 + spec.sweeps_completed evs2)%nat.
Proof. unfold spec.sweeps_completed. by rewrite filter_app, length_app. Qed.

Lemma visited_visits (l : list string) : spec.visited (EvVisit <$> l) = l.
Proof.
  unfold spec.visited. induction l as [|u l IH]; [done|].
  rewrite fmap_cons. cbn [omap list_omap]. by rewrite IH.
Qed.

Lemma visits_quiet (l : list string) :
  spec.sweeps_started (EvVisit <$> l) = 0%nat ∧
  spec.sweeps_completed (EvVisit <$> l) = 0%nat.
Proof.
  unfold spec.sweeps_started, spec.sweeps_completed.
  induction l as [|u l [IH1 IH2]]; [done|].
  rewrite fmap_cons, !filter_cons_False by done. done.
Qed.

(** Every sweep is started, whatever the users query does. *)
Lemma run_starts h w :
  spec.sweeps_started (events (RunDailyAnalysis h w))
  = S (spec.sweeps_started (events w)).
Proof.
  destruct (db_fails SelectSweepUsers) eqn:Hq.
  - destruct (run_fetch_failed h w Hq) as (took & -> & _). cbn [events].
    rewrite sweeps_started_app. unfold spec.sweeps_started at 2.
    rewrite filter_cons_True, filter_cons_False by done. simpl. lia.
  - destruct (run_exact h w Hq) as (errors & took & -> & _). cbn [events].
    change (EvSweepStart :: ?l) with ([EvSweepStart] ++ l).
    rewrite !sweeps_started_app, (proj1 (visits_quiet _)).
    unfold spec.sweeps_started at 2 3.
    rewrite filter_cons_True, filter_cons_False by done. simpl. lia.
Qed.

Lemma run_completed h w :
  db_fails SelectSweepUsers = false →
  spec.sweeps_completed (events (RunDailyAnalysis h w))
  = S (spec.sweeps_completed (events w)).
Proof.
  intros Hq. destruct (run_exact h w Hq) as (errors & took & -> & _). cbn [events].
  change (EvSweepStart :: ?l) with ([EvSweepStart] ++ l).
  rewrite !sweeps_completed_app, (proj2 (visits_quiet _)).
  unfold spec.sweeps_completed at 2 3.
  rewrite filter_cons_False, filter_cons_True by done. simpl. lia.
Qed.

(** Once the 06:00 the scheduler waited for is past, the next one is later:
    the 06:00 of the following day, when no more than 24 hours have gone
    by. *)
Lemma next_run_later w w1 :
  zone w1 = zone w → main.next_run w < clock w1 →
  main.next_run w < main.next_run w1 ∧
  (clock w1 ≤ main.next_run w + 24 * time.Hour →
   main.next_run w1 = main.next_run w + 24 * time.Hour).
Proof.
  intros Hz Hpast.
  destruct (next_run_spec w) as [_ Hm], (next_run_spec w1) as [Hr1 Hm1].
  rewrite Hz in Hm1.
  unfold time.day, time.Hour, time.Minute, time.Second in *.
  split; [lia|]. intros Hday. Z.div_mod_to_equations. lia.
Qed.

(** The last of [n + 1] turns of the scheduler loop: from the world the
    first [n] turns leave, the wait until the next 06:00, then the sweep. *)
Lemma scheduler_last (n : nat) h w :
  main.startDailyScheduler (S n) h w
  = let wn := main.startDailyScheduler n h w in
    RunDailyAnalysis h (Sleep (main.next_run wn - clock wn) wn).
Proof.
  revert w. induction n as [|n IH]; intros w; [done|].
  change (main.startDailyScheduler (S (S n)) h w)
    with (main.startDailyScheduler (S n) h
            (RunDailyAnalysis h (Sleep (main.next_run w - clock w) w))).
  by rewrite IH.
Qed.

(** One turn of the scheduler loop: the sweep starts at the 06:00 the
    turn waited for and ends after it, in the same zone. *)
Lemma turn_clock h w :
  let wake := Sleep (main.next_run w - clock w) w in
  clock wake = main.next_run w ∧
  main.next_run w < clock (RunDailyAnalysis h wake) ∧
  zone (RunDailyAnalysis h wake) = zone w.
Proof.
  intros wake.
  destruct (run_clock h wake) as [Hlater ->].
  pose proof (next_run_spec w) as [Hr _].
  assert (Hwake : clock wake = main.next_run w) by (cbn [wake Sleep clock]; lia).
  split; [exact Hwake|]. split; [lia|done].
Qed.

(** [n] turns of the scheduler loop start [n] sweeps. *)
Lemma scheduler_turns (n : nat) h w :
  spec.sweeps_started (events (main.startDailyScheduler n h w))
  = (spec.sweeps_started (events w) + n)%nat ∧
  (db_fails SelectSweepUsers = false →
   spec.sweeps_completed (events (main.startDailyScheduler n h w))
   = (spec.sweeps_completed (events w) + n)%nat).
Proof.
  revert w. induction n as [|n IH]; intros w; simpl.
  - split; intros; lia.
  - destruct (IH (RunDailyAnalysis h (Sleep (main.next_run w - clock w) w))) as [IH1 IH2].
    split.
    + rewrite IH1, run_starts. simpl. rewrite sweeps_started_app.
      unfold spec.sweeps_started at 2. rewrite filter_cons_False by done. simpl. lia.
    + intros Hok. rewrite (IH2 Hok), run_completed by done. simpl.
      rewrite sweeps_completed_app.
      unfold spec.sweeps_completed at 2. rewrite filter_cons_False by done. simpl. lia.
Qed.

End Sweep.

(** C9.  The sweep never reaches the generator.  Alice and Bob consent,
    have a token, and each has transactions of the last 24 hours; the
    generator answers every request it gets and the push service accepts
    every message.  Asked on demand, the endpoint asks the generator for Bob
    and returns an insight.  The sweep visits Alice and Bob, once each and
    in order, and completes; but it hands [AnalyzeSpending] the [nil]
    context, with which the request cannot be created, so it counts no
    success and two errors, sends no request and no push, sleeps at no time
    and stores no insight. *)
Theorem sweep_delivers_nothing :
  let w := stubs.world_of stubs.ledger in
  let w' := handlers.RunDailyAnalysis (H := stubs.prose) stubs.handler w in
  handlers.select_sweep_users (runtime.db w)
  = [("alice", Some "token-a"); ("bob", Some "token-b")] ∧
  (∃ insight prompt,
     handlers.GenerateInsights (H := stubs.prose) stubs.handler "bob" w
     = (handlers.InsightsOK [insight] "daily" 1,
        runtime.emit (runtime.EvGenerate (Some runtime.RequestContext) prompt) w)) ∧
  runtime.events w'
  = [runtime.EvSweepStart; runtime.EvVisit "alice"; runtime.EvVisit "bob";
     runtime.EvSweepComplete 0 2] ∧
  database.user_insights (runtime.db w') = [] ∧
  services.AnalyzeSpending (H := stubs.prose) None stubs.surplus w
  = (Error "failed to generate content: failed to create request: net/http: nil Context",
     w).
Proof.
  intros w w'. split_and!.
  - reflexivity.
  - eexists _, _. by vm_compute.
  - by vm_compute.
  - by vm_compute.
  - reflexivity.
Qed.

(** * Further properties of the handlers *)

(** ** [Sync]: what it writes *)

Section SyncWrites.

Import runtime database handlers.

Context `{External}.

Implicit Types (st : SyncLoop) (t : models.TransactionInput) (w : World).

(** One pass of the loop adds at most its own row, at the end. *)
Lemma sync_step_rows userID st t :
  tx_rows (sync_step userID st t) = tx_rows st
  ∨ ∃ id, tx_rows (sync_step userID st t) = tx_rows st ++ [row_of id userID t]
          ∧ existsb (same_key (row_of id userID t)) (tx_rows st) = false.
Proof.
  unfold sync_step, uuid_New, insert_on_conflict_do_nothing.
  destruct (db_fails _); [by left|].
  destruct (existsb _ _) eqn:Hex; simpl; [by left|].
  right. by eexists.
Qed.

Lemma not_conflict_key id userID t (rows : list TransactionRow) :
  existsb (same_key (row_of id userID t)) rows = false →
  views.key (row_of id userID t) ∉ views.key <$> rows.
Proof.
  intros Hex Hin. apply list_elem_of_fmap in Hin as (r & Hkey & Hr).
  assert (existsb (same_key (row_of id userID t)) rows = true); [|congruence].
  apply conflict_iff. exists r. unfold views.key in Hkey. simpl in Hkey.
  split_and!; [done|congruence..].
Qed.

Lemma sync_loop_rows userID (batch : list models.TransactionInput) st :
  ∃ rows,
    tx_rows (foldl (sync_step userID) st batch) = tx_rows st ++ rows ∧
    Forall (λ r, tx_user_id r = userID
                 ∧ tx_sms_hash r ∈ models.SMSHash <$> batch) rows ∧
    (NoDup (views.key <$> tx_rows st) →
     NoDup (views.key <$> tx_rows (foldl (sync_step userID) st batch))).
Proof.
  revert st. induction batch as [|t batch IH]; intros st; simpl.
  - exists []. by rewrite app_nil_r.
  - destruct (IH (sync_step userID st t)) as (rows & Hrows & Hall & Hnd).
    assert (Hmono : Forall (λ r, tx_user_id r = userID
                                 ∧ tx_sms_hash r ∈ models.SMSHash <$> t :: batch) rows).
    { eapply Forall_impl; [exact Hall|]. intros r [? ?]. split; [done|].
      rewrite fmap_cons. by right. }
    destruct (sync_step_rows userID st t) as [Hsame|(id & Hadd & Hfree)].
    + exists rows. split_and!; [by rewrite Hrows, Hsame | exact Hmono |].
      intros Hk. apply Hnd. by rewrite Hsame.
    + exists (row_of id userID t :: rows). split_and!.
      * by rewrite Hrows, Hadd, <- app_assoc.
      * constructor; [|exact Hmono]. split; [done|].
        change (models.SMSHash t ∈ models.SMSHash <$> t :: batch).
        rewrite fmap_cons. left.
      * intros Hk. apply Hnd.
        rewrite Hadd, fmap_app. apply NoDup_app. split_and!; [done| |].
        -- intros k Hk1 Hk2. simpl in Hk2. apply list_elem_of_singleton in Hk2 as ->.
           by apply (not_conflict_key id userID t (tx_rows st)).
        -- simpl. apply NoDup_singleton.
Qed.

(** X1.  Whatever the request and whatever the database does, [Sync] only
    appends to the transactions table: the rows stored before are there
    afterwards, unchanged and in place, every row added belongs to the
    calling user and carries a hash of the batch, and the users and insights
    tables, the trace and the clock are as before. *)
Theorem sync_appends_own_rows (userID : string) (body : option models.SyncRequest) w :
  let w' := (Sync userID body w).2 in
  ∃ rows,
    transactions (db w') = transactions (db w) ++ rows ∧
    Forall (λ r, tx_user_id r = userID ∧
                 ∃ req, body = Some req ∧
                        tx_sms_hash r ∈ models.SMSHash <$> models.Transactions req) rows ∧
    users (db w') = users (db w) ∧
    user_insights (db w') = user_insights (db w) ∧
    events w' = events w ∧
    clock w' = clock w.
Proof.
  assert (Hnone : ∃ rows : list TransactionRow,
            transactions (db w) = transactions (db w) ++ rows ∧
            Forall (λ r, tx_user_id r = userID ∧
                         ∃ req, body = Some req ∧
                                tx_sms_hash r ∈ models.SMSHash <$> models.Transactions req)
                   rows ∧
            users (db w) = users (db w) ∧ user_insights (db w) = user_insights (db w) ∧
            events w = events w ∧ clock w = clock w).
  { exists []. by rewrite app_nil_r. }
  unfold Sync. destruct body as [req|]; [|exact Hnone].
  destruct (if db_fails (SelectConsent userID) then None else select_consent userID (db w))
    as [[|]|]; try exact Hnone.
  destruct (db_fails Begin); [exact Hnone|].
  destruct (db_fails Commit); simpl.
  - match goal with
    | |- context [foldl (sync_step userID) ?s ?l] =>
        destruct (sync_loop_world userID l s) as (Hdb & He & Hc)
    end.
    simpl in *. exists []. rewrite app_nil_r, Hdb, He, Hc. done.
  - match goal with
    | |- context [foldl (sync_step userID) ?s ?l] =>
        destruct (sync_loop_world userID l s) as (Hdb & He & Hc);
        destruct (sync_loop_rows userID l s) as (rows & Hrows & Hall & _)
    end.
    simpl in *. exists rows. rewrite Hrows, He, Hc. split_and!; try done.
    eapply Forall_impl; [exact Hall|]. intros r [? ?]. split; [done|]. by exists req.
Qed.

(** X2.  [Sync] keeps the uniqueness of (user, content hash): if no two
    stored rows share the pair before the call, none do after it, for every
    batch (repeated hashes included) and every behaviour of the database. *)
Theorem sync_keeps_keys_unique (userID : string) (body : option models.SyncRequest) w :
  NoDup (views.key <$> transactions (db w)) →
  NoDup (views.key <$> transactions (db (Sync userID body w).2)).
Proof.
  intros Hnd. unfold Sync. destruct body as [req|]; [|done].
  destruct (if db_fails (SelectConsent userID) then None else select_consent userID (db w))
    as [[|]|]; try done.
  destruct (db_fails Begin); [done|].
  destruct (db_fails Commit); simpl.
  - match goal with
    | |- context [foldl (sync_step userID) ?s ?l] =>
        destruct (sync_loop_world userID l s) as (Hdb & _)
    end.
    simpl in *. by rewrite Hdb.
  - match goal with
    | |- context [foldl (sync_step userID) ?s ?l] =>
        destruct (sync_loop_rows userID l s) as (rows & _ & _ & Hkeep)
    end.
    by apply Hkeep.
Qed.

(** X3.  When the transaction cannot be opened or its commit fails, [Sync]
    answers with a server error and the database is exactly as before: no
    row of the batch persists. *)
Theorem sync_failed_commit_persists_nothing (userID : string) (req : models.SyncRequest) w :
  select_consent userID (db w) = Some true →
  db_fails (SelectConsent userID) = false →
  db_fails Begin = true ∨ db_fails Commit = true →
  ∃ msg, (Sync userID (Some req) w).1 = SyncInternalServerError msg ∧
         db (Sync userID (Some req) w).2 = db w.
Proof.
  intros Hconsent Hq Hfail. unfold Sync. rewrite Hq, Hconsent.
  destruct (db_fails Begin) eqn:Hbegin; [by eexists|].
  destruct Hfail as [Hfail|Hfail]; [discriminate|]. rewrite Hfail. simpl.
  eexists. split; [done|]. apply sync_loop_world.
Qed.

End SyncWrites.

Lemma sync_appends_own_rows_witness :
  ∃ rows,
    database.transactions
      (runtime.db (handlers.Sync (H := stubs.prose) "alice" (Some stubs.ragged)
                     (stubs.world_of stubs.ledger)).2)
    = stubs.ledger ++ rows ∧ length rows = 1%nat.
Proof.
  destruct (sync_appends_own_rows (H := stubs.prose) "alice" (Some stubs.ragged)
              (stubs.world_of stubs.ledger)) as (rows & Hrows & _).
  exists rows. split; [exact Hrows|].
  apply (f_equal length) in Hrows. rewrite length_app in Hrows.
  assert (Hlen : length
            (database.transactions
               (runtime.db (handlers.Sync (H := stubs.prose) "alice" (Some stubs.ragged)
                              (stubs.world_of stubs.ledger)).2)) = 6%nat) by (by vm_compute).
  rewrite Hlen in Hrows. simpl in Hrows. lia.
Defined.

Lemma sync_keeps_keys_unique_witness :
  NoDup (views.key <$>
           database.transactions
             (runtime.db (handlers.Sync (H := stubs.prose) "alice" (Some stubs.ragged)
                            (stubs.world_of stubs.ledger)).2)).
Proof.
  apply (sync_keeps_keys_unique (H := stubs.prose)).
  apply (bool_decide_unpack _). by vm_compute.
Defined.

Lemma sync_failed_commit_persists_nothing_witness :
  handlers.Sync (H := views.commit_fails) "alice" (Some stubs.batch) (stubs.world_of [])
  = (handlers.SyncInternalServerError "Failed to commit transaction",
     (handlers.Sync (H := views.commit_fails) "alice" (Some stubs.batch)
        (stubs.world_of [])).2) ∧
  database.transactions
    (runtime.db (handlers.Sync (H := views.commit_fails) "alice" (Some stubs.batch)
                   (stubs.world_of [])).2) = [].
Proof.
  destruct (sync_failed_commit_persists_nothing (H := views.commit_fails) "alice"
              stubs.batch (stubs.world_of []) eq_refl eq_refl (or_intror eq_refl))
    as (msg & Hresp & Hdb).
  split; [reflexivity|]. by rewrite Hdb.
Defined.

(** ** [Sync]: what it counts *)

Section SyncCounts.

Import runtime database handlers.

Context `{External}.

Implicit Types (st : SyncLoop) (t : models.TransactionInput) (w : World).

Lemma stored_hashes_elem userID (rows : list TransactionRow) (h : Z) :
  h ∈ views.stored_hashes userID rows
  ↔ ∃ r, r ∈ rows ∧ tx_user_id r = userID ∧ tx_sms_hash r = h.
Proof.
  unfold views.stored_hashes. rewrite elem_of_list_to_set, list_elem_of_fmap. split.
  - intros (r & -> & Hr). apply list_elem_of_filter in Hr as [Hu Hr]. by exists r.
  - intros (r & Hr & Hu & <-). exists r. split; [done|]. by apply list_elem_of_filter.
Qed.

Lemma stored_hashes_snoc userID (rows : list TransactionRow) id t :
  views.stored_hashes userID (rows ++ [row_of id userID t])
  = views.stored_hashes userID rows ∪ {[models.SMSHash t]}.
Proof.
  apply set_eq. intros h. rewrite elem_of_union, !stored_hashes_elem, elem_of_singleton.
  split.
  - intros (r & Hr & Hu & Hh). apply elem_of_app in Hr as [Hr|Hr].
    + left. by exists r.
    + apply list_elem_of_singleton in Hr as ->. by right.
  - intros [(r & Hr & Hu & Hh)| ->].
    + exists r. split; [apply elem_of_app; by left | done].
    + exists (row_of id userID t). split; [apply elem_of_app; right; by left | done].
Qed.

Lemma diff_seen (h : Z) (B seen : gset Z) : h ∈ seen → ({[h]} ∪ B) ∖ seen = B ∖ seen.
Proof. set_solver. Qed.

Lemma union_seen (h : Z) (B seen : gset Z) : h ∈ seen → seen ∪ ({[h]} ∪ B) = seen ∪ B.
Proof. set_solver. Qed.

Lemma diff_fresh (h : Z) (B seen : gset Z) :
  h ∉ seen → size (({[h]} ∪ B) ∖ seen) = S (size (B ∖ (seen ∪ {[h]}))).
Proof.
  intros Hout.
  assert (Heq : ({[h]} ∪ B) ∖ seen = {[h]} ∪ B ∖ (seen ∪ {[h]})).
  { apply set_eq. intros x. destruct (decide (x = h)) as [->|Hne]; set_solver. }
  rewrite Heq, size_union.
  - by rewrite size_singleton.
  - set_solver.
Qed.

(** With a database that accepts the inserts, the loop inserts once per
    distinct hash that is not stored yet, and afterwards every hash of the
    batch is stored. *)
Lemma sync_loop_distinct userID (batch : list models.TransactionInput) st :
  (∀ t id, t ∈ batch → db_fails (InsertTransaction (row_of id userID t)) = false) →
  let st' := foldl (sync_step userID) st batch in
  insertedCount st'
  = insertedCount st
    + Z.of_nat (size (views.batch_hashes batch ∖ views.stored_hashes userID (tx_rows st))) ∧
  views.stored_hashes userID (tx_rows st')
  = views.stored_hashes userID (tx_rows st) ∪ views.batch_hashes batch.
Proof.
  revert st. induction batch as [|t batch IH]; intros st Hok; simpl.
  - unfold views.batch_hashes. simpl.
    generalize (views.stored_hashes userID (tx_rows st)). intros seen0. split.
    + replace (∅ ∖ seen0) with (∅ : gset Z) by set_solver.
      rewrite size_empty. lia.
    + by rewrite (right_id_L ∅ (∪)).
  - set (seen := views.stored_hashes userID (tx_rows st)).
    set (h := models.SMSHash t).
    assert (HB : views.batch_hashes (t :: batch) = {[h]} ∪ views.batch_hashes batch)
      by done.
    rewrite HB.
    destruct (IH (sync_step userID st t)) as [IHi IHs].
    { intros t' id' Hin. apply Hok. by right. }
    rewrite IHi, IHs. clear IHi IHs.
    unfold sync_step, uuid_New.
    set (id := uuid_next (loop_world st)).
    rewrite Hok by left.
    unfold insert_on_conflict_do_nothing.
    destruct (existsb (same_key (row_of id userID t)) (tx_rows st)) eqn:Hex; simpl.
    + assert (Hin : h ∈ seen).
      { apply stored_hashes_elem. by apply (conflict_iff id). }
      fold seen. clearbody seen h. by rewrite diff_seen, union_seen.
    + assert (Hout : h ∉ seen).
      { intros Hin. apply stored_hashes_elem in Hin.
        apply (conflict_iff id userID t) in Hin. congruence. }
      rewrite stored_hashes_snoc. fold seen h. clearbody seen h.
      rewrite diff_fresh by done. split; [lia|]. by rewrite (assoc_L (∪)).
Qed.

(** X4.  With consent and a database that accepts every statement, [Sync]
    answers for any batch, repeated and already stored hashes included:
    inserted is the number of distinct hashes of the batch that the user had
    not stored, skipped is the rest of the batch, and afterwards the user's
    stored hashes are the old ones and those of the batch.  The order of the
    batch therefore changes neither the counts nor the stored hashes. *)
Theorem sync_inserts_distinct_fresh (userID : string) (req : models.SyncRequest) w :
  let batch := models.Transactions req in
  let fresh := views.batch_hashes batch
               ∖ views.stored_hashes userID (transactions (db w)) in
  select_consent userID (db w) = Some true →
  db_fails (SelectConsent userID) = false →
  db_fails Begin = false →
  db_fails Commit = false →
  (∀ t id, t ∈ batch → db_fails (InsertTransaction (row_of id userID t)) = false) →
  (∃ w',
     Sync userID (Some req) w
     = (SyncCompleted (Z.of_nat (size fresh))
                      (Z.of_nat (length batch) - Z.of_nat (size fresh))
                      (Z.of_nat (length batch)), w') ∧
     views.stored_hashes userID (transactions (db w'))
     = views.stored_hashes userID (transactions (db w)) ∪ views.batch_hashes batch) ∧
  (∀ req', models.Transactions req' ≡ₚ batch →
           (Sync userID (Some req') w).1 = (Sync userID (Some req) w).1 ∧
           views.stored_hashes userID (transactions (db (Sync userID (Some req') w).2))
           = views.stored_hashes userID (transactions (db (Sync userID (Some req) w).2))).
Proof.
  intros batch fresh Hconsent Hq Hbegin Hcommit Hok.
  assert (Hrun : ∀ r : models.SyncRequest,
            (∀ t id, t ∈ models.Transactions r →
                     db_fails (InsertTransaction (row_of id userID t)) = false) →
            ∃ w',
              Sync userID (Some r) w
              = (SyncCompleted
                   (Z.of_nat (size (views.batch_hashes (models.Transactions r)
                                    ∖ views.stored_hashes userID (transactions (db w)))))
                   (Z.of_nat (length (models.Transactions r))
                    - Z.of_nat (size (views.batch_hashes (models.Transactions r)
                                      ∖ views.stored_hashes userID (transactions (db w)))))
                   (Z.of_nat (length (models.Transactions r))), w') ∧
              views.stored_hashes userID (transactions (db w'))
              = views.stored_hashes userID (transactions (db w))
                ∪ views.batch_hashes (models.Transactions r)).
  { intros r Hr. unfold Sync. rewrite Hq, Hconsent, Hbegin, Hcommit.
    set (st0 := {| insertedCount := 0; skippedCount := 0;
                   tx_rows := transactions (db w); loop_world := w |}).
    destruct (sync_loop_distinct userID (models.Transactions r) st0 Hr) as [Hi Hs].
    destruct (sync_loop_counts userID (models.Transactions r) st0) as (Hsum & _).
    simpl in *. eexists. split.
    - rewrite Hi. f_equal. f_equal. lia.
    - simpl. exact Hs. }
  split; [by apply Hrun|].
  intros req' Hperm.
  assert (Hsame : views.batch_hashes (models.Transactions req') = views.batch_hashes batch).
  { unfold views.batch_hashes. apply set_eq. intros h.
    rewrite !elem_of_list_to_set. by rewrite Hperm. }
  destruct (Hrun req) as (w1 & Hr1 & Hs1); [done|].
  destruct (Hrun req') as (w2 & Hr2 & Hs2).
  { intros t id Hin. apply Hok. by rewrite <- Hperm. }
  rewrite Hr1, Hr2. simpl. rewrite Hs1, Hs2, Hsame.
  by rewrite (Permutation_length Hperm).
Qed.

End SyncCounts.

Lemma sync_inserts_distinct_fresh_witness :
  (handlers.Sync (H := stubs.prose) "alice"
     (Some {| models.DeviceID := "device-a";
              models.Transactions :=
                [ stubs.input 100 "EXPENSE" "DATA" 11 stubs.noon;
                  stubs.input 200 "EXPENSE" "DATA" 31 stubs.noon;
                  stubs.input 300 "EXPENSE" "DATA" 31 stubs.noon;
                  stubs.input 400 "INCOME" "GIFT" 32 stubs.noon ];
              models.Timestamp := stubs.noon |})
     (stubs.world_of stubs.ledger)).1
  = handlers.SyncCompleted 2 2 4.
Proof.
  set (req := {| models.DeviceID := "device-a";
                 models.Transactions :=
                   [ stubs.input 100 "EXPENSE" "DATA" 11 stubs.noon;
                     stubs.input 200 "EXPENSE" "DATA" 31 stubs.noon;
                     stubs.input 300 "EXPENSE" "DATA" 31 stubs.noon;
                     stubs.input 400 "INCOME" "GIFT" 32 stubs.noon ];
                 models.Timestamp := stubs.noon |}).
  destruct (sync_inserts_distinct_fresh (H := stubs.prose) "alice" req
              (stubs.world_of stubs.ledger)) as [(w' & Hrun & _) _].
  - reflexivity.
  - reflexivity.
  - reflexivity.
  - reflexivity.
  - intros t id Hin. reflexivity.
  - rewrite Hrun. simpl. by vm_compute.
Defined.

(** ** The transaction listing *)

Section Listing.

Import runtime database handlers.

Context `{External}.

#[local] Instance date_desc_trans : Transitive date_desc.
Proof. intros a b c. unfold date_desc. lia. Qed.

#[local] Instance date_desc_total : Total date_desc.
Proof. intros a b. unfold date_desc. lia. Qed.

(** X5.  A page of [GetTransactions] holds rows of the calling user only,
    each of them stored, newest first, and as many as the page size allows:
    the smaller of the effective limit and what the user has left beyond
    the effective offset. *)
Theorem listing_page_is_sorted_and_owned
    (userID l o : string) (w : World) (rows : list TransactionRow) (limit offset : Z) :
  GetTransactions userID l o w = ListOK rows limit offset →
  let mine := filter (λ r, tx_user_id r = userID) (transactions (db w)) in
  Forall (λ r, tx_user_id r = userID ∧ r ∈ transactions (db w)) rows ∧
  StronglySorted date_desc rows ∧
  Z.of_nat (length rows) = Z.min limit (Z.max 0 (Z.of_nat (length mine) - offset)).
Proof.
  unfold GetTransactions. destruct (db_fails _); [discriminate|].
  intros Heq. injection Heq as <- <- <-. unfold select_page.
  set (mine := filter (λ r, tx_user_id r = userID) (transactions (db w))).
  set (sorted := merge_sort date_desc mine).
  assert (Hperm : sorted ≡ₚ mine) by apply merge_sort_Permutation.
  assert (Hsorted : StronglySorted date_desc sorted) by apply (StronglySorted_merge_sort _).
  assert (Hlim : 1 ≤ page_limit l ≤ 100).
  { unfold page_limit. case_bool_decide; [|lia].
    destruct (parseInt l) as [n|]; [|lia].
    destruct (0 <? n) eqn:E1; destruct (n <=? 100) eqn:E2; simpl; lia. }
  assert (Hoff : 0 ≤ page_offset o).
  { unfold page_offset. case_bool_decide; [|lia].
    destruct (parseInt o) as [n|]; [|lia].
    destruct (0 <=? n) eqn:E1; lia. }
  split_and!.
  - apply Forall_forall. intros r Hr.
    assert (Hin : r ∈ mine).
    { rewrite <- Hperm. eapply elem_of_sublist; [exact Hr|].
      etrans; [apply sublist_take | apply sublist_drop]. }
    apply list_elem_of_filter in Hin. tauto.
  - rewrite <- (take_drop (Z.to_nat (page_offset o)) sorted) in Hsorted.
    apply StronglySorted_app_1_r in Hsorted.
    rewrite <- (take_drop (Z.to_nat (page_limit l))
                         (drop (Z.to_nat (page_offset o)) sorted)) in Hsorted.
    by apply StronglySorted_app_1_l in Hsorted.
  - rewrite length_take, length_drop, (Permutation_length Hperm). lia.
Qed.

(** What [parseInt] has read is not changed by text after the number. *)
Lemma scan_digits_app (s u : string) (acc : Z) :
  (u = "" ∨ ∃ c u', u = String c u' ∧ digit_of c = None) →
  scan_digits (s +:+ u) acc = scan_digits s acc.
Proof.
  intros Hu. revert acc. induction s as [|a s IH]; intros acc; simpl.
  - destruct Hu as [->|(c & u' & -> & Hc)]; [done|]. simpl. by rewrite Hc.
  - destruct (digit_of a); [apply IH | done].
Qed.

Lemma scan_number_app (neg : bool) (s u : string) (n : Z) :
  (u = "" ∨ ∃ c u', u = String c u' ∧ digit_of c = None) →
  scan_number neg s = Some n → scan_number neg (s +:+ u) = Some n.
Proof.
  intros Hu. destruct s as [|a s]; [discriminate|].
  unfold scan_number. simpl. destruct (digit_of a) eqn:Ha; [|discriminate].
  pose proof (scan_digits_app (String a s) u 0 Hu) as Hscan. simpl in Hscan.
  rewrite Ha in Hscan. by rewrite Hscan.
Qed.

Lemma space2_ascii (a b : Ascii.ascii) :
  (Ascii.nat_of_ascii a < 128)%nat → gostrings.space2 a b = false.
Proof.
  intros Ha. unfold gostrings.space2, gostrings.is_c2.
  rewrite bool_decide_false by lia. reflexivity.
Qed.

Lemma space3_ascii (a b c : Ascii.ascii) :
  (Ascii.nat_of_ascii a < 128)%nat → gostrings.space3 a b c = false.
Proof.
  intros Ha. unfold gostrings.space3.
  destruct (Nat.eqb_spec (Ascii.nat_of_ascii a) 225); [lia|].
  destruct (Nat.eqb_spec (Ascii.nat_of_ascii a) 226); [lia|].
  destruct (Nat.eqb_spec (Ascii.nat_of_ascii a) 227); [lia|].
  reflexivity.
Qed.

(** A byte of ASCII that is no space ends the skipping, whatever follows
    it. *)
Lemma skip_space_ascii (a : Ascii.ascii) (s : string) :
  (Ascii.nat_of_ascii a < 128)%nat →
  bool_decide (Ascii.nat_of_ascii a = 10%nat) = false → Ascii.is_space a = false →
  skip_space (String a s) = Some (String a s).
Proof.
  intros Ha Hnl Hsp. cbn [skip_space]. rewrite Hnl, Hsp.
  destruct s as [|b [|c s]]; rewrite ?space2_ascii, ?space3_ascii by exact Ha; reflexivity.
Qed.

Lemma skip_space_app (s u : string) (c : Ascii.ascii) (tok : string) :
  skip_space s = Some (String c tok) → (Ascii.nat_of_ascii c < 128)%nat →
  skip_space (s +:+ u) = Some (String c tok +:+ u).
Proof.
  intros Hskip Hc.
  assert (Hall : ∀ (n : nat) (s : string),
            (String.length s < n)%nat →
            skip_space s = Some (String c tok) →
            skip_space (s +:+ u) = Some (String c tok +:+ u)).
  2:{ by apply (Hall (S (String.length s))); [lia|]. }
  clear s Hskip. induction n as [|n IH]; intros s Hlen Hs; [lia|].
  destruct s as [|a s1]; [discriminate|].
  change (String a s1 +:+ u) with (String a (s1 +:+ u)).
  destruct (bool_decide (Ascii.nat_of_ascii a = 10%nat)) eqn:Hnl.
  { cbn [skip_space] in Hs. rewrite Hnl in Hs. discriminate. }
  destruct (Ascii.is_space a) eqn:Hsp.
  { cbn [skip_space] in Hs |- *. rewrite Hnl, Hsp in Hs |- *.
    apply IH; [simpl in Hlen; lia | exact Hs]. }
  destruct (decide (Ascii.nat_of_ascii a < 128)%nat) as [Ha|Ha].
  { rewrite skip_space_ascii in Hs by done. injection Hs as -> ->.
    by rewrite skip_space_ascii. }
  cbn [skip_space] in Hs |- *. rewrite Hnl, Hsp in Hs |- *.
  destruct s1 as [|b s2]; [injection Hs as <- <-; lia|].
  change (String b s2 +:+ u) with (String b (s2 +:+ u)). cbv beta iota.
  destruct (gostrings.space2 a b).
  { apply IH; [simpl in Hlen; lia | exact Hs]. }
  destruct s2 as [|d s3]; [injection Hs as <- <-; lia|].
  change (String d s3 +:+ u) with (String d (s3 +:+ u)). cbv beta iota.
  destruct (gostrings.space3 a b d); [|injection Hs as <- <-; lia].
  apply IH; [simpl in Hlen; lia | exact Hs].
Qed.

Lemma parseInt_app (s u : string) (n : Z) :
  (u = "" ∨ ∃ c u', u = String c u' ∧ digit_of c = None) →
  parseInt s = Some n → parseInt (s +:+ u) = Some n.
Proof.
  intros Hu. unfold parseInt.
  destruct (skip_space s) as [[|c tok]|] eqn:Hskip; [discriminate| |discriminate].
  intros Hn.
  assert (Hc : (Ascii.nat_of_ascii c < 128)%nat).
  { destruct (bool_decide (Ascii.nat_of_ascii c = 45%nat)) eqn:Hminus.
    { apply bool_decide_eq_true in Hminus. lia. }
    destruct (bool_decide (Ascii.nat_of_ascii c = 43%nat)) eqn:Hplus.
    { apply bool_decide_eq_true in Hplus. lia. }
    unfold scan_number in Hn. destruct (digit_of c) eqn:Hd; [|discriminate].
    unfold digit_of in Hd.
    destruct ((48 <=? Z.of_nat (Ascii.nat_of_ascii c))
              && (Z.of_nat (Ascii.nat_of_ascii c) <=? 57)) eqn:Hrange; [|discriminate].
    apply andb_true_iff in Hrange as [_ Hhi]. apply Z.leb_le in Hhi. lia. }
  rewrite (skip_space_app _ u _ _ Hskip Hc). simpl.
  revert Hn. repeat case_bool_decide; intros Hn.
  - by apply scan_number_app.
  - by apply scan_number_app.
  - by apply (scan_number_app false (String c tok) u n).
Qed.

(** X6.  The page parameters are read like [Sscanf] reads a number: text
    after the digits is ignored and blanks before them are skipped, so a
    limit that reads as a number keeps its effect when anything that does
    not start with a digit is appended, or a blank is put in front. *)
Theorem page_parameters_ignore_trailing_text (s u : string) (n : Z) :
  parseInt s = Some n →
  (u = "" ∨ ∃ c u', u = String c u' ∧ digit_of c = None) →
  parseInt (s +:+ u) = Some n ∧
  parseInt (" " +:+ s) = Some n ∧
  page_limit (s +:+ u) = page_limit s ∧
  page_offset (s +:+ u) = page_offset s ∧
  page_limit (" " +:+ s) = page_limit s ∧
  page_offset (" " +:+ s) = page_offset s.
Proof.
  intros Hn Hu.
  pose proof (parseInt_app s u n Hu Hn) as Happ.
  assert (Hsp : parseInt (" " +:+ s) = Some n) by exact Hn.
  assert (Hs : s ≠ "") by (by eapply parseInt_nonempty).
  assert (Hsu : s +:+ u ≠ "") by (by eapply parseInt_nonempty).
  unfold page_limit, page_offset.
  rewrite Happ, Hsp, Hn.
  rewrite !(bool_decide_true (s ≠ "")), !(bool_decide_true (s +:+ u ≠ "")) by done.
  rewrite !(bool_decide_true (" " +:+ s ≠ "")) by done.
  done.
Qed.

End Listing.

Lemma listing_page_is_sorted_and_owned_witness :
  ∃ rows,
    handlers.GetTransactions (H := stubs.prose) "alice" "2" "1" (stubs.world_of stubs.ledger)
    = handlers.ListOK rows 2 1 ∧
    database.tx_category <$> rows = ["AIRTIME"; "SALARY"].
Proof.
  destruct (handlers.GetTransactions (H := stubs.prose) "alice" "2" "1"
              (stubs.world_of stubs.ledger)) as [|rows limit offset] eqn:Hrun;
    [vm_compute in Hrun; discriminate Hrun|].
  pose proof (listing_page_is_sorted_and_owned (H := stubs.prose) "alice" "2" "1"
                (stubs.world_of stubs.ledger) rows limit offset Hrun) as _.
  vm_compute in Hrun. injection Hrun as <- <- <-.
  eexists. split; reflexivity.
Defined.

Lemma page_parameters_ignore_trailing_text_witness :
  handlers.page_limit "25abc" = 25 ∧ handlers.page_limit " 25" = 25.
Proof.
  destruct (page_parameters_ignore_trailing_text "25" "abc" 25 eq_refl)
    as (_ & _ & Hl & _ & Hsp & _).
  { right. eexists _, _. split; reflexivity. }
  split.
  - exact Hl.
  - exact Hsp.
Defined.

(** ** The spending aggregate: how its figures relate *)

Section AggregateFigures.

Import runtime database handlers.

Context `{External}.

Implicit Types (rows : list TransactionRow) (r : TransactionRow).

Lemma sum_permutation (l l' : list Z) : l ≡ₚ l' → foldr Z.add 0 l = foldr Z.add 0 l'.
Proof. induction 1; simpl; lia. Qed.

(** With distinct keys, the loop over the category rows builds the map of
    the list. *)
Lemma inserts_as_map (l : list (string * Z)) :
  NoDup l.*1 →
  foldl (λ (m : gmap string Z) ca, <[ca.1 := ca.2]> m) ∅ l = list_to_map l.
Proof.
  intros Hnd. apply map_eq. intros c.
  destruct (decide (c ∈ l.*1)) as [Hin|Hout].
  - apply list_elem_of_fmap in Hin as ([c' v] & -> & Hin). simpl.
    rewrite (inserts_member l ∅ c' v Hnd Hin).
    symmetry. by apply elem_of_list_to_map_1.
  - rewrite inserts_other by done. rewrite lookup_empty.
    symmetry. by apply not_elem_of_list_to_map_1.
Qed.

(** An amount filed under its category is counted once over distinct
    categories. *)
Lemma one_category (cs : list string) (c : string) (a : Z) :
  NoDup cs → c ∈ cs →
  foldr Z.add 0 ((λ c', if decide (c = c') then a else 0) <$> cs) = a.
Proof.
  assert (Hzero : ∀ cs', c ∉ cs' →
            foldr Z.add 0 ((λ c', if decide (c = c') then a else 0) <$> cs') = 0).
  { induction cs' as [|c1 cs' IH]; intros Hout; [done|].
    apply not_elem_of_cons in Hout as [Hne Hout]. rewrite fmap_cons. cbn [foldr].
    rewrite decide_False by done. rewrite IH by done. lia. }
  induction cs as [|c0 cs IH]; intros Hnd Hin; [by apply elem_of_nil in Hin|].
  apply NoDup_cons in Hnd as [Hc0 Hnd]. rewrite fmap_cons. cbn [foldr].
  destruct (decide (c = c0)) as [->|Hne].
  - rewrite Hzero by done. lia.
  - apply elem_of_cons in Hin as [?|Hin]; [done|]. rewrite IH by done. lia.
Qed.

(** The sums per group add up to the sum of all rows. *)
Lemma categories_partition (key : TransactionRow → string) (cs : list string) rows :
  NoDup cs → (∀ r, r ∈ rows → key r ∈ cs) →
  foldr Z.add 0 ((λ c, spec.total (λ r, key r = c) rows) <$> cs)
  = spec.total (λ _, True) rows.
Proof.
  intros Hnd. induction rows as [|r rows IH]; intros Hcs.
  - unfold spec.total. simpl. clear. induction cs as [|c cs IHc]; [done|].
    rewrite fmap_cons. cbn [foldr]. by rewrite IHc.
  - unfold spec.total in *. rewrite filter_cons_True by done.
    cbn [foldr].
    rewrite <- IH by (intros r' Hr'; apply Hcs; by right).
    rewrite <- (one_category cs (key r) (tx_amount r) Hnd) at 1
      by (apply Hcs; left).
    clear IH Hcs Hnd. induction cs as [|c cs IHc]; [done|].
    rewrite !fmap_cons. cbn [foldr].
    rewrite filter_cons. rewrite IHc.
    destruct (decide (key r = c)); cbn [foldr]; lia.
Qed.

(** The map built from the rows of a [GROUP BY] query adds up to the sum
    of the rows grouped. *)
Lemma group_map_total (key : TransactionRow → string) rows :
  views.map_total
    (foldl (λ (m : gmap string Z) ca, <[ca.1 := ca.2]> m) ∅
           ((λ k, (k, COALESCE (SUM (tx_amount <$> filter (λ r, key r = k) rows)) 0))
              <$> remove_dups (key <$> rows)))
  = spec.total (λ _, True) rows.
Proof.
  unfold views.map_total.
  set (cats := remove_dups (key <$> rows)).
  set (f := λ k : string,
         (k, COALESCE (SUM (tx_amount <$> filter (λ r, key r = k) rows)) 0)).
  assert (Hkeys : (f <$> cats).*1 = cats).
  { rewrite <- list_fmap_compose. apply list_fmap_id. }
  assert (Hnd : NoDup cats) by apply NoDup_remove_dups.
  rewrite inserts_as_map by (by rewrite Hkeys).
  rewrite (sum_permutation _ ((f <$> cats).*2)).
  2:{ apply fmap_Permutation. apply map_to_list_to_map. by rewrite Hkeys. }
  rewrite <- list_fmap_compose.
  rewrite <- (categories_partition key cats rows Hnd).
  2:{ intros r Hr. unfold cats. rewrite elem_of_remove_dups.
      by apply list_elem_of_fmap_2. }
  f_equal. apply list_fmap_ext. intros i c _. simpl.
  rewrite sum_amount_total, total_filter. apply total_ext. tauto.
Qed.

(** X7.  When its three queries succeed, the figures of the aggregate are
    consistent: the values of the category map add up to the total expenses,
    and the savings deposits are the entry of the map under SAVINGS (zero
    when there is none).  Savings deposits are therefore part of the
    expenses and lower the net balance. *)
Theorem category_map_partitions_expenses
    (h : InsightsHandler) (userID period : string) (w : World) :
  db_fails (SelectTotals userID (startDate period w)) = false →
  db_fails (SelectByCategory userID (startDate period w)) = false →
  db_fails (SelectSavings userID (startDate period w)) = false →
  ∃ data,
    fetchSpendingData h userID period w = Some data ∧
    views.map_total (services.ByCategory data) = services.TotalExpenses data ∧
    default 0 (services.ByCategory data !! "SAVINGS") = services.SavingsDeposits data ∧
    services.NetBalance data
    = services.TotalIncome data - views.map_total (services.ByCategory data).
Proof.
  intros Htotals Hcats Hsavings.
  set (start := startDate period w) in *.
  set (expenses := filter (λ r, tx_type r = "EXPENSE")
                          (filter (in_window userID start) (transactions (db w)))).
  assert (Hmap : views.map_total
                   (foldl (λ (m : gmap string Z) ca, <[ca.1 := ca.2]> m) ∅
                          (select_by_category userID start (db w)))
                 = spec.total (λ _, True) expenses).
  { unfold select_by_category. apply (group_map_total tx_category). }
  eexists. split.
  { unfold fetchSpendingData. fold start. rewrite Htotals, Hcats, Hsavings.
    unfold select_totals. reflexivity. }
  simpl. rewrite Hmap.
  assert (Hexp : COALESCE (SUM (CASE_WHEN_type "EXPENSE"
                                  <$> filter (in_window userID start) (transactions (db w)))) 0
                 = spec.total (λ _, True) expenses).
  { rewrite sum_case_total. unfold expenses. rewrite !total_filter.
    apply total_ext. tauto. }
  split_and!.
  - by rewrite Hexp.
  - rewrite by_category_lookup. simpl. fold expenses.
    unfold select_savings. rewrite sum_amount_total. fold expenses.
    case_decide as Hc; simpl.
    + unfold expenses. rewrite !total_filter. apply total_ext. tauto.
    + unfold spec.total. rewrite (filter_none (λ _, True)); [done|].
      intros r Hr _. apply Hc.
      rewrite !list_elem_of_filter in Hr. destruct Hr as ((Hcat & Hty) & Hw & Hr).
      rewrite <- Hcat. apply list_elem_of_fmap_2. unfold expenses.
      by rewrite !list_elem_of_filter.
  - by rewrite Hexp.
Qed.

End AggregateFigures.

Lemma category_map_partitions_expenses_witness :
  ∃ data,
    handlers.fetchSpendingData (H := stubs.prose) stubs.handler "alice" "weekly"
      (stubs.world_of stubs.ledger) = Some data ∧
    views.map_total (services.ByCategory data) = 112400 ∧
    services.SavingsDeposits data = 10000.
Proof.
  destruct (category_map_partitions_expenses (H := stubs.prose) stubs.handler "alice"
              "weekly" (stubs.world_of stubs.ledger) eq_refl eq_refl eq_refl)
    as (data & Hfetch & Hsum & Hsav & _).
  exists data. split; [exact Hfetch|].
  rewrite Hsum. clear Hsum Hsav.
  vm_compute in Hfetch. injection Hfetch as <-. split; reflexivity.
Defined.

(** ** The aggregate when a secondary query fails, and its windows *)

Section AggregateEdges.

Import runtime database handlers.

Context `{External}.

(** X8.  Only the totals query can make the aggregate fail.  When the
    category query fails the aggregate is still returned, with an empty
    category map; when the savings query fails, with savings deposits of
    zero; income, expenses, net balance and count are those of the totals
    query in both cases. *)
Theorem aggregate_survives_secondary_failures
    (h : InsightsHandler) (userID period : string) (w : World) :
  let start := startDate period w in
  (fetchSpendingData h userID period w = None
   ↔ db_fails (SelectTotals userID start) = true) ∧
  ∀ data, fetchSpendingData h userID period w = Some data →
    (services.TotalIncome data, services.TotalExpenses data, services.TransactionCount data)
    = select_totals userID start (db w) ∧
    services.NetBalance data = services.TotalIncome data - services.TotalExpenses data ∧
    (db_fails (SelectByCategory userID start) = true → services.ByCategory data = ∅) ∧
    (db_fails (SelectSavings userID start) = true → services.SavingsDeposits data = 0) ∧
    services.UserID data = userID ∧ services.Period data = period.
Proof.
  intros start. unfold fetchSpendingData. fold start.
  destruct (db_fails (SelectTotals userID start)) eqn:Htotals.
  - split; [done|]. intros data [=].
  - split; [split; discriminate|].
    unfold select_totals. intros data [= <-]. simpl.
    split_and!; try done.
    + by intros ->.
    + by intros ->.
Qed.

Lemma filter_length_mono {A} (P Q : A → Prop)
    `{∀ x, Decision (P x)} `{∀ x, Decision (Q x)} (l : list A) :
  (∀ x, P x → Q x) → (length (filter P l) ≤ length (filter Q l))%nat.
Proof.
  intros HPQ. induction l as [|x l IH]; [done|].
  rewrite !filter_cons.
  destruct (decide (P x)) as [HP|HP]; destruct (decide (Q x)) as [HQ|HQ]; simpl; try lia.
  by destruct HQ; apply HPQ.
Qed.

(** The count of the aggregate is the number of rows in its window. *)
Lemma fetch_count (h : InsightsHandler) (userID period : string) (w : World) data :
  fetchSpendingData h userID period w = Some data →
  services.TransactionCount data
  = COUNT (filter (in_window userID (startDate period w)) (transactions (db w))).
Proof.
  unfold fetchSpendingData.
  destruct (db_fails (SelectTotals _ _)); [discriminate|].
  unfold select_totals. by intros [= <-].
Qed.

(** One calendar month back is 28 to 31 days back. *)
Lemma AddDate_month_back (loc t : Z) :
  ∃ L, 28 ≤ L ≤ 31 ∧ time.AddDate loc t 0 (-1) 0 = t - L * time.day.
Proof.
  unfold time.AddDate.
  destruct (civil_roundtrip ((t + loc) / time.day)) as (y & m & d & -> & Hm & Hd & Hdays).
  unfold time.Date. rewrite !Z.add_0_r.
  set (Y := y + (m + -1 - 1) / 12).
  set (M := (m + -1 - 1) mod 12 + 1).
  exists (time.days_from_civil y m 1 - time.days_from_civil Y M 1).
  split.
  - assert (Hcases : m = 1 ∨ m = 2 ∨ m = 3 ∨ m = 4 ∨ m = 5 ∨ m = 6 ∨ m = 7 ∨ m = 8
                     ∨ m = 9 ∨ m = 10 ∨ m = 11 ∨ m = 12) by lia.
    clear Hdays Hd Hm. subst Y M.
    destruct Hcases as [->|[->|[->|[->|[->|[->|[->|[->|[->|[->|[->| ->]]]]]]]]]]];
      unfold time.days_from_civil; simpl;
      Z.div_mod_to_equations; lia.
  - pose proof (Hdays 1) as H1. clearbody Y M.
    unfold time.day, time.Hour, time.Minute, time.Second in *. simpl in *.
    Z.div_mod_to_equations; lia.
Qed.

(** X9.  The windows of the aggregate are nested.  The daily window
    starts 24 hours before the clock, the weekly one 7 days before, the
    monthly one a calendar month before, which is 28 to 31 days; any other
    period keyword is read as daily.  So every transaction of the daily
    aggregate is in the weekly one and every transaction of the weekly one
    in the monthly one, and the counts grow accordingly. *)
Theorem period_windows_nest
    (h : InsightsHandler) (userID period : string) (w : World) :
  startDate "daily" w = clock w - time.day ∧
  startDate "weekly" w = clock w - 7 * time.day ∧
  (∃ L, 28 ≤ L ≤ 31 ∧ startDate "monthly" w = clock w - L * time.day) ∧
  (period ≠ "weekly" → period ≠ "monthly" → startDate period w = startDate "daily" w) ∧
  (∀ r, in_window userID (startDate "daily" w) r
        → in_window userID (startDate "weekly" w) r) ∧
  (∀ r, in_window userID (startDate "weekly" w) r
        → in_window userID (startDate "monthly" w) r) ∧
  (∀ daily weekly monthly,
     fetchSpendingData h userID "daily" w = Some daily →
     fetchSpendingData h userID "weekly" w = Some weekly →
     fetchSpendingData h userID "monthly" w = Some monthly →
     services.TransactionCount daily ≤ services.TransactionCount weekly
     ≤ services.TransactionCount monthly).
Proof.
  assert (Hd : startDate "daily" w = clock w - time.day).
  { unfold startDate. simpl. rewrite AddDate_days. lia. }
  assert (Hw : startDate "weekly" w = clock w - 7 * time.day).
  { unfold startDate. simpl. rewrite AddDate_days. lia. }
  assert (Hm : ∃ L, 28 ≤ L ≤ 31 ∧ startDate "monthly" w = clock w - L * time.day).
  { unfold startDate. simpl. apply AddDate_month_back. }
  assert (Hdw : ∀ r, in_window userID (startDate "daily" w) r
                     → in_window userID (startDate "weekly" w) r).
  { intros r [Hu Hr]. split; [done|]. rewrite Hd in Hr. rewrite Hw.
    unfold time.day, time.Hour, time.Minute, time.Second in *. lia. }
  assert (Hwm : ∀ r, in_window userID (startDate "weekly" w) r
                     → in_window userID (startDate "monthly" w) r).
  { destruct Hm as (L & HL & HmL). intros r [Hu Hr]. split; [done|].
    rewrite Hw in Hr. rewrite HmL.
    unfold time.day, time.Hour, time.Minute, time.Second in *. lia. }
  split; [exact Hd|]. split; [exact Hw|]. split; [exact Hm|].
  split; [|split; [exact Hdw|split; [exact Hwm|]]].
  - intros Hnw Hnm. rewrite Hd. unfold startDate.
    rewrite (bool_decide_false (period = "weekly")) by exact Hnw.
    rewrite (bool_decide_false (period = "monthly")) by exact Hnm.
    destruct (bool_decide (period = "daily")); rewrite AddDate_days; lia.
  - intros daily weekly monthly Hdaily Hweekly Hmonthly.
    rewrite (fetch_count _ _ _ _ _ Hdaily), (fetch_count _ _ _ _ _ Hweekly),
      (fetch_count _ _ _ _ _ Hmonthly).
    unfold COUNT.
    pose proof (filter_length_mono _ _ (transactions (db w)) Hdw).
    pose proof (filter_length_mono _ _ (transactions (db w)) Hwm).
    lia.
Qed.

End AggregateEdges.

(** ** The generator: attempts, stamps, and the text of the push *)

Section GeneratorEdges.

Import runtime services.

Context `{External}.

(** X10.  [AnalyzeSpending] hands the HTTP client at most one request
    and changes nothing else in the world.  With a context the request is
    recorded once, whatever its outcome; with the [nil] context, which the
    sweep passes, the request cannot be created: nothing is sent, whatever
    the service would have answered, and the error says so.  It returns
    insights exactly when there is a context and the service answers with
    status 200 and a body whose first candidate has a first part; every
    insight returned, parsed or fallback, is stamped with the time of the
    call; every error is the error of the request, prefixed. *)
Theorem analyze_asks_at_most_once (ctx : option Context) (data : SpendingData) (w : World) :
  let prompt := buildAnalysisPrompt data in
  let r := AnalyzeSpending ctx data w in
  r.2 = match ctx with
        | Some _ => emit (EvGenerate ctx prompt) w
        | None => w
        end ∧
  spec.generate_calls (events r.2)
  = (spec.generate_calls (events w) + match ctx with Some _ => 1 | None => 0 end)%nat ∧
  (ctx = None →
   r.1 = Error "failed to generate content: failed to create request: net/http: nil Context") ∧
  ((∃ insights, r.1 = Ok insights)
   ↔ ∃ c body text parts candidates,
       ctx = Some c ∧
       http_post w ctx prompt = Response 200 body ∧
       json_candidates body = Some ((text :: parts) :: candidates)) ∧
  (∀ insights, r.1 = Ok insights → Forall (λ i, GeneratedAt i = clock w) insights) ∧
  (∀ err, r.1 = Error err → ∃ cause, err = "failed to generate content: " +:+ cause).
Proof.
  intros prompt r. destruct ctx as [c|].
  2:{ subst r. rewrite analyze_nil_context. simpl. split_and!.
      - reflexivity.
      - lia.
      - reflexivity.
      - split; [intros [? [=]] | intros (? & ? & ? & ? & ? & [=] & _)].
      - intros ? [=].
      - intros ? [= <-]. eauto. }
  assert (Hworld : r.2 = emit (EvGenerate (Some c) prompt) w).
  { subst r. destruct (AnalyzeSpending (Some c) data w) as [res w1] eqn:Hgen.
    by apply analyze_world in Hgen. }
  split; [exact Hworld|]. split.
  { rewrite Hworld. simpl. unfold spec.generate_calls.
    rewrite filter_app, length_app. rewrite filter_cons_True by done. simpl. lia. }
  split; [intros [=]|].
  subst r. unfold AnalyzeSpending, generateContent. fold prompt.
  destruct (http_post w (Some c) prompt) as [msg|code body]; simpl.
  { split_and!.
    - split; [intros [? [=]] | intros (? & ? & ? & ? & ? & _ & [=] & _)].
    - intros ? [=].
    - intros ? [= <-]. eauto. }
  destruct (code =? 200) eqn:Hcode; simpl.
  2:{ split_and!.
      - split; [intros [? [=]] | intros (? & ? & ? & ? & ? & _ & [= -> _] & _); lia].
      - intros ? [=].
      - intros ? [= <-]. eauto. }
  apply Z.eqb_eq in Hcode as ->.
  destruct (json_candidates body) as [[|[|text parts] candidates]|] eqn:Hjson; simpl.
  - split_and!.
    + split; [intros [? [=]] | intros (? & ? & ? & ? & ? & _ & [= <-] & Hc); congruence].
    + intros ? [=].
    + intros ? [= <-]. eauto.
  - split_and!.
    + split; [intros [? [=]] | intros (? & ? & ? & ? & ? & _ & [= <-] & Hc); congruence].
    + intros ? [=].
    + intros ? [= <-]. eauto.
  - assert (Hstamp : Forall (λ i, GeneratedAt i = clock w) (fallbackInsights data (clock w))).
    { unfold fallbackInsights.
      destruct (0 <? SavingsDeposits data), (0 <? NetBalance data),
        (NetBalance data <? 0); simpl; repeat constructor. }
    unfold parseInsights.
    destruct (json_insights (cleanResponse text)) as [raw|]; simpl.
    + split_and!.
      * split; [|by eauto]. intros _. by exists c, body, text, parts, candidates.
      * intros ? [= <-]. apply Forall_fmap, Forall_forall. by intros.
      * intros ? [=].
    + split_and!.
      * split; [|by eauto]. intros _. by exists c, body, text, parts, candidates.
      * by intros ? [= <-].
      * intros ? [=].
  - split_and!.
    + split; [intros [? [=]] | intros (? & ? & ? & ? & ? & _ & [= <-] & Hc); congruence].
    + intros ? [=].
    + intros ? [= <-]. eauto.
Qed.

(** The reduction never picks the zero insight: its pick is in the list,
    and a pick without a title is the last insight. *)
Lemma best_member (l : list AIInsight) :
  l ≠ [] →
  let best :=
    foldl (λ best insight,
             if bool_decide (Priority insight = "high") || bool_decide (Title best = "")
             then insight else best)
          zeroInsight l in
  best ∈ l ∧ (Title best = "" → last l = Some best).
Proof.
  induction l as [|x l IH] using rev_ind; [done|]. intros _.
  rewrite foldl_snoc. cbv zeta in *.
  set (b := foldl _ zeroInsight l) in *.
  destruct (bool_decide (Priority x = "high")) eqn:Hhigh; simpl.
  { split; [apply elem_of_app; right; left | by rewrite last_snoc]. }
  destruct (bool_decide (Title b = "")) eqn:Hb.
  { split; [apply elem_of_app; right; left | by rewrite last_snoc]. }
  apply bool_decide_eq_false in Hb.
  destruct l as [|y l]; [done|].
  destruct IH as [Hin _]; [done|].
  split; [apply elem_of_app; by left | done].
Qed.

(** X11.  The notification is never made up.  For an empty list it is the
    fixed daily-summary text; for any other list it is the title and message
    of one of the insights in the list, it is those of the last insight
    whenever that one has priority high, and if its title is empty then it
    is the last insight of the list. *)
Theorem notification_comes_from_the_list (insights : list AIInsight) :
  (insights = [] →
   GenerateNotificationText insights
   = ("📊 Daily Summary", "Check your spending insights in the app!")) ∧
  (insights ≠ [] →
   ∃ i, i ∈ insights ∧ GenerateNotificationText insights = spec.heading i ∧
        (Title i = "" → last insights = Some i)) ∧
  (∀ i, last insights = Some i → Priority i = "high" →
        GenerateNotificationText insights = spec.heading i).
Proof.
  split_and!.
  - by intros ->.
  - intros Hne. unfold GenerateNotificationText.
    rewrite bool_decide_false by (by destruct insights).
    destruct (best_member insights Hne) as [Hin Hlast]. cbv zeta in *.
    eexists. split; [exact Hin|]. split; [reflexivity|exact Hlast].
  - intros i Hlast Hhigh.
    destruct insights as [|x l] using rev_ind; [done|]. clear IHl.
    rewrite last_snoc in Hlast. injection Hlast as ->.
    unfold GenerateNotificationText.
    rewrite bool_decide_false by (rewrite length_app; simpl; lia).
    rewrite foldl_snoc. by rewrite (bool_decide_true _ Hhigh).
Qed.

(** X12.  What the push says when the insights are the fallback ones: the
    spending alert whenever the net balance is negative, even with savings;
    otherwise the savings praise when there are savings deposits; otherwise
    the surplus tip when the net balance is positive; otherwise, with no
    fallback insight at all, the fixed daily-summary text. *)
Theorem fallback_notification (data : SpendingData) (now : Z) :
  (GenerateNotificationText (fallbackInsights data now)).1
  = if NetBalance data <? 0 then spec.deficit_title
    else if 0 <? SavingsDeposits data then spec.savings_title
    else if 0 <? NetBalance data then spec.surplus_title
    else "📊 Daily Summary".
Proof.
  unfold fallbackInsights.
  destruct (0 <? SavingsDeposits data) eqn:Es;
    destruct (0 <? NetBalance data) eqn:Ep;
    destruct (NetBalance data <? 0) eqn:En; try lia; reflexivity.
Qed.

End GeneratorEdges.

(** ** The sweep: who it works for, and what it spends *)

Section SweepLedger.

Import runtime database handlers.

Context `{External}.

Implicit Types (w : World) (st : SweepLoop) (h : InsightsHandler) (evs : list Event).

(** [storeInsights], in one step: the rows of the insights whose [INSERT]
    does not fail, in order, after the rows already there. *)
Lemma store_exact (userID : string) (insights : list services.AIInsight) w :
  storeInsights userID insights w
  = set_db {| users := users (db w);
              transactions := transactions (db w);
              user_insights :=
                user_insights (db w)
                ++ (insight_row userID
                      <$> filter (λ i, db_fails (InsertInsight (insight_row userID i)) = false)
                                 insights) |} w.
Proof.
  unfold storeInsights. revert w.
  induction insights as [|i insights IH]; intros w.
  - destruct w as [[us ts ins] c z n e]. unfold set_db. simpl. by rewrite app_nil_r.
  - simpl. rewrite filter_cons.
    destruct (db_fails (InsertInsight (insight_row userID i))) eqn:Hfail.
    + rewrite decide_False by done. apply IH.
    + rewrite decide_True by done. rewrite IH. unfold set_db. simpl.
      by rewrite <- app_assoc.
Qed.

(** X13.  [storeInsights] keeps, in order, exactly the insights whose
    [INSERT] the database accepts, each as a row of the given user after the
    rows already stored; a failing [INSERT] drops its insight silently and
    does not stop the ones after it.  Users, transactions, trace and clock
    are untouched. *)
Theorem insights_stored_in_order
    (userID : string) (insights : list services.AIInsight) w :
  let accepted :=
    filter (λ i, db_fails (InsertInsight (insight_row userID i)) = false) insights in
  let w' := storeInsights userID insights w in
  user_insights (db w') = user_insights (db w) ++ (insight_row userID <$> accepted) ∧
  views.new_insights w w' = insight_row userID <$> accepted ∧
  accepted `sublist_of` insights ∧
  ((∀ i, i ∈ insights → db_fails (InsertInsight (insight_row userID i)) = false)
   → accepted = insights) ∧
  users (db w') = users (db w) ∧ transactions (db w') = transactions (db w) ∧
  events w' = events w ∧ clock w' = clock w ∧ uuid_next w' = uuid_next w.
Proof.
  intros accepted w'. subst w'. rewrite store_exact. fold accepted. simpl.
  split_and!; try done.
  - unfold views.new_insights. simpl. by rewrite drop_app_length.
  - apply sublist_filter.
  - intros Hok. subst accepted. induction insights as [|i l IH]; [done|].
    rewrite filter_cons_True by (apply Hok; left).
    f_equal. apply IH. intros j Hj. apply Hok. by right.
Qed.

Lemma pushed_app evs1 evs2 :
  views.pushed (evs1 ++ evs2) = views.pushed evs1 ++ views.pushed evs2.
Proof. apply omap_app. Qed.

Lemma pushed_visits (l : list string) : views.pushed (EvVisit <$> l) = [].
Proof.
  unfold views.pushed. induction l as [|u l IH]; [done|].
  rewrite fmap_cons. cbn [omap list_omap]. exact IH.
Qed.

Lemma visits_without_context (l : list string) :
  Forall views.without_context (EvVisit <$> l).
Proof. apply Forall_fmap, Forall_forall. by intros. Qed.

Lemma sweep_user (d : DB) (userID : string) :
  userID ∈ (select_sweep_users d).*1 →
  ∃ u, u ∈ users d ∧ usr_consent_given u = true ∧ is_Some (usr_fcm_token u)
       ∧ usr_id u = userID.
Proof.
  unfold select_sweep_users. rewrite <- list_fmap_compose.
  intros Hin. apply list_elem_of_fmap in Hin as (u & -> & Hu).
  apply list_elem_of_filter in Hu as [[Hc Ht] Hu]. by exists u.
Qed.

Lemma sweep_token (d : DB) (token : string) :
  Some token ∈ (select_sweep_users d).*2 →
  ∃ u, u ∈ users d ∧ usr_consent_given u = true ∧ usr_fcm_token u = Some token.
Proof.
  unfold select_sweep_users. rewrite <- list_fmap_compose.
  intros Hin. apply list_elem_of_fmap in Hin as (u & Heq & Hu).
  apply list_elem_of_filter in Hu as [[Hc Ht] Hu]. simpl in Heq. by exists u.
Qed.

(** X14.  The sweep works for consenting users only.  Every user it
    visits, every insight row it stores and every token it pushes to belongs
    to a row of the users table with [consent_given = true] and a token that
    is not [NULL]; it never changes the users or the transactions, never
    removes a stored insight, and makes all its outgoing calls with a [nil]
    context.  This holds whether or not the users query fails. *)
Theorem sweep_serves_consenting_users h w :
  let w' := RunDailyAnalysis h w in
  let evs := views.new_events w w' in
  (∀ userID, userID ∈ spec.visited evs →
     ∃ u, u ∈ users (db w) ∧ usr_consent_given u = true ∧ is_Some (usr_fcm_token u)
          ∧ usr_id u = userID) ∧
  (∀ r, r ∈ views.new_insights w w' →
     ∃ u, u ∈ users (db w) ∧ usr_consent_given u = true ∧ is_Some (usr_fcm_token u)
          ∧ usr_id u = ins_user_id r) ∧
  (∀ token, token ∈ views.pushed evs →
     ∃ u, u ∈ users (db w) ∧ usr_consent_given u = true ∧ usr_fcm_token u = Some token) ∧
  Forall views.without_context evs ∧
  users (db w') = users (db w) ∧
  transactions (db w') = transactions (db w) ∧
  user_insights (db w) `prefix_of` user_insights (db w').
Proof.
  intros w' evs. subst evs w'.
  unfold views.new_events, views.new_insights.
  destruct (db_fails SelectSweepUsers) eqn:Hq.
  { destruct (run_fetch_failed h w Hq) as (took & -> & _). cbn [events db].
    rewrite drop_app_length, drop_all.
    split_and!; try done.
    - intros ? Hin. by apply elem_of_nil in Hin.
    - intros ? Hin. by apply elem_of_nil in Hin.
    - intros ? Hin. by apply elem_of_nil in Hin.
    - by repeat constructor. }
  destruct (run_exact h w Hq) as (errors & took & -> & _). cbn [events db].
  rewrite drop_app_length, drop_all.
  change (EvSweepStart :: ?l) with ([EvSweepStart] ++ l).
  rewrite !visited_app, !pushed_app, visited_visits, pushed_visits.
  cbn [spec.visited views.pushed omap list_omap app].
  rewrite app_nil_r.
  split_and!.
  - apply sweep_user.
  - intros ? Hin. by apply elem_of_nil in Hin.
  - intros ? Hin. by apply elem_of_nil in Hin.
  - constructor; [exact I|].
    apply Forall_app. split; [apply visits_without_context | by repeat constructor].
  - reflexivity.
  - reflexivity.
  - reflexivity.
Qed.

(** X15.  A sweep visits every user of its query, and the scheduler
    re-arms for a later day.  A turn of the sweep loop adds the visit mark
    of its user to the trace and nothing else, lets the time of its calls
    pass, never counts a success, and counts an error exactly when the daily
    aggregate of the user, fetched as the turn begins, has transactions: the
    loop hands the generator the [nil] context.  So, when the users query
    succeeds, the part of the trace of a sweep is the start mark, one visit
    for each selected user, in the order of the query, and the completion
    mark with no success and at most one error for each user; the database
    is as it was and the clock has moved on.  Every turn of the scheduler
    loop waits until the next 06:00 of the local zone, less than 24 hours
    ahead, and sweeps then; when the sweep returns, that 06:00 is past, so
    the next turn waits for a later one: the 06:00 of the following day, if
    the sweep took no more than 24 hours.  [n] turns start and complete [n]
    sweeps. *)
Theorem sweep_completes_and_rearms h w :
  db_fails SelectSweepUsers = false →
  let users := select_sweep_users (db w) in
  let w' := RunDailyAnalysis h w in
  (∀ st (userID : string) (fcmToken : option string),
     sweep_step h st (userID, fcmToken)
     = {| successCount := successCount st;
          errorCount := errorCount st
                        + (if views.active h (sweep_world st) userID then 1 else 0);
          sweep_world := elapse (takes (emit (EvVisit userID) (sweep_world st)))
                                (emit (EvVisit userID) (sweep_world st)) |}) ∧
  (∃ errors,
     views.new_events w w'
     = EvSweepStart :: (EvVisit <$> users.*1) ++ [EvSweepComplete 0 errors] ∧
     0 ≤ errors ≤ Z.of_nat (length users)) ∧
  db w' = db w ∧ clock w < clock w' ∧
  ∀ n : nat,
    let wn := main.startDailyScheduler n h w in
    let wn' := main.startDailyScheduler (S n) h w in
    let wake := Sleep (main.next_run wn - clock wn) wn in
    wn' = RunDailyAnalysis h wake ∧
    0 ≤ main.next_run wn - clock wn < 24 * time.Hour ∧
    (main.next_run wn + zone wn) mod time.day = 6 * time.Hour ∧
    clock wake = main.next_run wn ∧
    main.next_run wn < clock wn' ∧
    main.next_run wn < main.next_run wn' ∧
    (clock wn' ≤ main.next_run wn + 24 * time.Hour →
     main.next_run wn' = main.next_run wn + 24 * time.Hour) ∧
    spec.sweeps_started (events wn) = (spec.sweeps_started (events w) + n)%nat ∧
    spec.sweeps_completed (events wn) = (spec.sweeps_completed (events w) + n)%nat.
Proof.
  intros Hq users w'. split; [apply sweep_step_exact|].
  destruct (run_exact h w Hq) as (errors & took & Hrun & Herrors & Htook).
  split; [|split; [|split]].
  - exists errors. subst w'. unfold views.new_events. rewrite Hrun. cbn [events].
    rewrite drop_app_length. split; [reflexivity | exact Herrors].
  - subst w'. by rewrite Hrun.
  - subst w'. rewrite Hrun. cbn [clock]. lia.
  - intros n wn wn' wake.
    assert (Hlast : wn' = RunDailyAnalysis h wake) by apply scheduler_last.
    destruct (next_run_spec wn) as [Hwait Hsix].
    destruct (turn_clock h wn) as (Hwake & Hpast & Hzone).
    fold wake in Hwake, Hpast, Hzone. rewrite <- Hlast in Hpast, Hzone.
    destruct (next_run_later wn wn' Hzone Hpast) as [Hlater Hday].
    destruct (scheduler_turns n h w) as [Hstarted Hcompleted].
    split; [exact Hlast|]. split; [exact Hwait|]. split; [exact Hsix|].
    split; [exact Hwake|]. split; [exact Hpast|].
    split; [exact Hlater|]. split; [exact Hday|].
    split; [exact Hstarted | exact (Hcompleted Hq)].
Qed.

End SweepLedger.

Lemma sweep_completes_and_rearms_witness :
  let w := stubs.world_of stubs.ledger in
  let w1 := main.startDailyScheduler (H := stubs.prose) 1 stubs.handler w in
  handlers.errorCount
    (handlers.sweep_step (H := stubs.prose) stubs.handler (spec.sweep_start w)
       ("bob", Some "token-b")) = 1 ∧
  main.next_run w1 = main.next_run w + 24 * time.Hour.
Proof.
  intros w w1.
  destruct (sweep_completes_and_rearms (H := stubs.prose) stubs.handler w eq_refl)
    as (Hstep & _ & _ & _ & Hturn).
  split.
  - rewrite Hstep. by vm_compute.
  - destruct (Hturn 0%nat) as (_ & _ & _ & _ & _ & _ & Hnext & _).
    apply Hnext. by vm_compute.
Defined.

(** ** [Sync] and the endpoints that read *)

Section SyncAndRead.

Import runtime database handlers.

Context `{External}.

Implicit Types (st : SyncLoop) (t : models.TransactionInput) (w : World).

Lemma sync_loop_zone userID (batch : list models.TransactionInput) st :
  zone (loop_world (foldl (sync_step userID) st batch)) = zone (loop_world st).
Proof.
  revert st. induction batch as [|t batch IH]; intros st; simpl; [done|].
  rewrite IH. unfold sync_step, uuid_New, insert_on_conflict_do_nothing.
  repeat case_match; simplify_eq/=; done.
Qed.

(** The world after [Sync]: rows of the caller appended, the rest as it
    was. *)
Lemma sync_world_after (userID : string) (body : option models.SyncRequest) w :
  ∃ rows,
    transactions (db (Sync userID body w).2) = transactions (db w) ++ rows ∧
    Forall (λ r, tx_user_id r = userID) rows ∧
    clock (Sync userID body w).2 = clock w ∧
    zone (Sync userID body w).2 = zone w.
Proof.
  assert (Hnone : ∃ rows : list TransactionRow,
            transactions (db w) = transactions (db w) ++ rows ∧
            Forall (λ r, tx_user_id r = userID) rows ∧ clock w = clock w ∧ zone w = zone w).
  { exists []. by rewrite app_nil_r. }
  unfold Sync. destruct body as [req|]; [|exact Hnone].
  destruct (if db_fails (SelectConsent userID) then None else select_consent userID (db w))
    as [[|]|]; try exact Hnone.
  destruct (db_fails Begin); [exact Hnone|].
  set (st0 := {| insertedCount := 0; skippedCount := 0;
                 tx_rows := transactions (db w); loop_world := w |}).
  destruct (sync_loop_world userID (models.Transactions req) st0) as (Hdb & He & Hc).
  pose proof (sync_loop_zone userID (models.Transactions req) st0) as Hz.
  destruct (sync_loop_rows userID (models.Transactions req) st0) as (rows & Hrows & Hall & _).
  destruct (db_fails Commit); simpl in *.
  - exists []. rewrite app_nil_r, Hdb, Hc, Hz. done.
  - exists rows. rewrite Hrows, Hc, Hz. split_and!; try done.
    eapply Forall_impl; [exact Hall|]. by intros r [? ?].
Qed.

Lemma filter_foreign (P : TransactionRow → Prop) `{∀ r, Decision (P r)}
    (userID : string) (old rows : list TransactionRow) :
  Forall (λ r, tx_user_id r = userID) rows →
  (∀ r, P r → tx_user_id r ≠ userID) →
  filter P (old ++ rows) = filter P old.
Proof.
  intros Hall Hforeign. rewrite filter_app.
  rewrite (filter_none P rows); [by rewrite app_nil_r|].
  intros r Hr HP. apply (Hforeign r HP).
  by apply (proj1 (Forall_forall _ _) Hall).
Qed.

(** X16.  A [Sync] of one user is invisible to every other user: whatever
    the request and the database do, the pages [GetTransactions] serves to
    another user and the spending aggregate of another user, for every
    period, are the same after the call as before. *)
Theorem sync_is_invisible_to_other_users
    (h : InsightsHandler) (userID other : string) (body : option models.SyncRequest)
    (l o period : string) w :
  other ≠ userID →
  let w' := (Sync userID body w).2 in
  GetTransactions other l o w' = GetTransactions other l o w ∧
  fetchSpendingData h other period w' = fetchSpendingData h other period w.
Proof.
  intros Hne w'. subst w'.
  destruct (sync_world_after userID body w) as (rows & Hrows & Hall & Hc & Hz).
  split.
  - unfold GetTransactions, select_page. rewrite Hrows.
    rewrite (filter_foreign _ userID); [done|done|]. by intros r ->.
  - unfold fetchSpendingData, startDate. rewrite Hc, Hz.
    unfold select_totals, select_by_category, select_savings. rewrite Hrows.
    rewrite (filter_foreign _ userID); [done|done|]. by intros r [-> _].
Qed.

(** X17.  What [Sync] has stored, [GetTransactions] serves.  With consent
    and a database that accepts the statements, when the caller's rows
    after the call fit the effective page size and the offset is zero, the
    page is a rearrangement of all the rows of the caller, and it holds a
    row for the hash of every transaction of the batch. *)
Theorem synced_transactions_are_listed
    (userID : string) (req : models.SyncRequest) (l o : string) w :
  let w' := (Sync userID (Some req) w).2 in
  let mine := filter (λ r, tx_user_id r = userID) (transactions (db w')) in
  select_consent userID (db w) = Some true →
  db_fails (SelectConsent userID) = false →
  db_fails Begin = false →
  db_fails Commit = false →
  (∀ t id, t ∈ models.Transactions req →
           db_fails (InsertTransaction (row_of id userID t)) = false) →
  db_fails (SelectPage userID (page_limit l) (page_offset o)) = false →
  page_offset o = 0 →
  Z.of_nat (length mine) ≤ page_limit l →
  ∃ rows,
    GetTransactions userID l o w' = ListOK rows (page_limit l) 0 ∧
    rows ≡ₚ mine ∧
    ∀ t, t ∈ models.Transactions req →
         ∃ r, r ∈ rows ∧ tx_user_id r = userID ∧ tx_sms_hash r = models.SMSHash t.
Proof.
  intros w' mine Hconsent Hq Hbegin Hcommit Hok Hpage Hoff Hfit.
  assert (Hstored : views.stored_hashes userID (transactions (db w'))
                    = views.stored_hashes userID (transactions (db w))
                      ∪ views.batch_hashes (models.Transactions req)).
  { subst mine w'. unfold Sync. rewrite Hq, Hconsent, Hbegin, Hcommit.
    set (st0 := {| insertedCount := 0; skippedCount := 0;
                   tx_rows := transactions (db w); loop_world := w |}).
    by destruct (sync_loop_distinct userID (models.Transactions req) st0 Hok) as [_ Hs]. }
  clearbody w'.
  unfold GetTransactions. rewrite Hpage, Hoff. unfold select_page. fold mine.
  eexists. split; [reflexivity|].
  assert (Hall : take (Z.to_nat (page_limit l)) (drop (Z.to_nat 0) (merge_sort date_desc mine))
                 = merge_sort date_desc mine).
  { simpl. rewrite drop_0. apply take_ge.
    rewrite (Permutation_length (merge_sort_Permutation date_desc mine)). lia. }
  rewrite Hall. split; [apply merge_sort_Permutation|].
  intros t Ht.
  assert (Hin : models.SMSHash t ∈ views.stored_hashes userID (transactions (db w'))).
  { rewrite Hstored. apply elem_of_union. right.
    unfold views.batch_hashes. rewrite elem_of_list_to_set. by apply list_elem_of_fmap_2. }
  apply stored_hashes_elem in Hin as (r & Hr & Hu & Hh).
  exists r. split; [|done].
  rewrite merge_sort_Permutation. by apply list_elem_of_filter.
Qed.

(** X18.  The on-demand endpoint only reads and asks.  [GenerateInsights]
    leaves the database and the clock as they are, so the insights it
    returns are not stored; it sends no push and sleeps at no time; it asks
    the generator at most once, with the context of the request; and when it
    answers with insights, the period is daily and the number analysed is
    the number of the caller's transactions dated within the last 24 hours
    or later, which is positive. *)
Theorem on_demand_insights_are_not_stored (h : InsightsHandler) (userID : string) w :
  let r := GenerateInsights h userID w in
  let evs := views.new_events w r.2 in
  db r.2 = db w ∧ clock r.2 = clock w ∧
  (evs = [] ∨ ∃ prompt, evs = [EvGenerate (Some RequestContext) prompt]) ∧
  (r.1 = InsightsNoTransactions ∨ r.1 = InsightsFetchFailed → r.2 = w) ∧
  (∀ insights period analyzed,
     r.1 = InsightsOK insights period analyzed →
     period = "daily" ∧ 0 < analyzed ∧
     analyzed = Z.of_nat (length (filter (in_window userID (clock w - time.day))
                                         (transactions (db w)))) ∧
     Forall (λ i, services.GeneratedAt i = clock w) insights).
Proof.
  intros r evs. subst evs r. unfold GenerateInsights, views.new_events.
  destruct (fetchSpendingData h userID "daily" w) as [data|] eqn:Hfetch; simpl.
  2:{ rewrite drop_all. split_and!; first [done | by left | by intros ??? [=]]. }
  apply fetch_count in Hfetch.
  assert (Hstart : startDate "daily" w = clock w - time.day).
  { unfold startDate. simpl. rewrite AddDate_days. lia. }
  rewrite Hstart in Hfetch. unfold COUNT in Hfetch.
  destruct (services.TransactionCount data =? 0) eqn:Hzero; simpl.
  { rewrite drop_all. split_and!; first [done | by left | by intros ??? [=]]. }
  apply Z.eqb_neq in Hzero.
  destruct (services.AnalyzeSpending (Some RequestContext) data w) as [[insights|err] w1]
    eqn:Hgen; simpl.
  - pose proof (analyze_world _ _ _ _ _ Hgen) as ->. simpl.
    rewrite drop_app_length. split_and!; try done.
    + right. by eexists.
    + intros [[=]|[=]].
    + intros ins p n [= <- <- <-]. split_and!; [done|lia|done|].
      unfold services.AnalyzeSpending, services.generateContent in Hgen.
      repeat case_match; simplify_eq/=.
      * unfold services.parseInsights in *. case_match; simplify_eq/=.
        apply Forall_fmap, Forall_forall. by intros.
      * unfold services.fallbackInsights.
        destruct (0 <? services.SavingsDeposits data), (0 <? services.NetBalance data),
          (services.NetBalance data <? 0); simpl; repeat constructor.
  - pose proof (analyze_world _ _ _ _ _ Hgen) as ->. simpl.
    rewrite drop_app_length. split_and!; try done.
    + right. by eexists.
    + intros [[=]|[=]].
Qed.

End SyncAndRead.

Lemma sync_is_invisible_to_other_users_witness :
  handlers.GetTransactions (H := stubs.prose) "bob" "" ""
    (handlers.Sync (H := stubs.prose) "alice" (Some stubs.batch) (stubs.world_of [])).2
  = handlers.GetTransactions (H := stubs.prose) "bob" "" "" (stubs.world_of []).
Proof.
  refine (proj1 (sync_is_invisible_to_other_users (H := stubs.prose) stubs.handler
                   "alice" "bob" (Some stubs.batch) "" "" "daily" (stubs.world_of []) _)).
  by intros [=].
Defined.

Lemma synced_transactions_are_listed_witness :
  ∃ rows,
    handlers.GetTransactions (H := stubs.prose) "alice" "" ""
      (handlers.Sync (H := stubs.prose) "alice" (Some stubs.batch) (stubs.world_of [])).2
    = handlers.ListOK rows 50 0 ∧
    length rows = 3%nat.
Proof.
  assert (Hlen : length (filter (λ r, database.tx_user_id r = "alice")
                    (database.transactions (runtime.db
                       (handlers.Sync (H := stubs.prose) "alice" (Some stubs.batch)
                          (stubs.world_of [])).2))) = 3%nat) by (by vm_compute).
  destruct (synced_transactions_are_listed (H := stubs.prose) "alice" stubs.batch "" ""
              (stubs.world_of []))
    as (rows & Hrows & Hperm & _).
  - reflexivity.
  - reflexivity.
  - reflexivity.
  - reflexivity.
  - intros t id Hin. reflexivity.
  - reflexivity.
  - reflexivity.
  - rewrite Hlen. by vm_compute.
  - exists rows. split; [exact Hrows|]. by rewrite (Permutation_length Hperm), Hlen.
Defined.

(** ** The middleware *)

Section Middleware.

Import middleware.

(** Without a reset, the limiter lets the requests of a client pass until
    the count of the client reaches the limit. *)
Lemma serve_window (limit : Z) (requests : list (Z * string)) (st : Limiter)
    (clientIP : string) :
  (∀ now ip, (now, ip) ∈ requests → now - lastReset st ≤ time.Minute) →
  let count := default 0 (requestCounts st !! clientIP) in
  length (serve limit requests st).1 = length requests ∧
  lastReset (serve limit requests st).2 = lastReset st ∧
  default 0 (requestCounts (serve limit requests st).2 !! clientIP)
  = count + views.asked clientIP requests ∧
  views.passed clientIP requests (serve limit requests st).1
  = Z.min (views.asked clientIP requests) (Z.max 0 (limit - count)).
Proof.
  revert st. induction requests as [|[now ip] requests IH]; intros st Hin; cbv zeta.
  { unfold views.asked, views.passed. simpl. split_and!; try done; lia. }
  assert (Hnow : time.Minute <? now - lastReset st = false).
  { apply Z.ltb_ge. apply (Hin now ip). left. }
  cbn [serve]. unfold RateLimiter. rewrite Hnow.
  set (n := default 0 (requestCounts st !! ip) + 1).
  set (st1 := {| requestCounts := <[ip := n]> (requestCounts st); lastReset := lastReset st |}).
  assert (Hserve : (if limit <? n then (TooManyRequests, st1) else (Pass, st1))
                   = (if limit <? n then TooManyRequests else Pass, st1))
    by (by destruct (limit <? n)).
  rewrite Hserve. clear Hserve.
  destruct (IH st1) as (Hlen & Hreset & Hcount & Hpassed).
  { intros now' ip' Hin'. simpl. apply (Hin now' ip'). by right. }
  destruct (serve limit requests st1) as [verdicts st2]. simpl in *.
  unfold views.asked, views.passed in *. simpl.
  rewrite !filter_cons. simpl.
  destruct (decide (ip = clientIP)) as [->|Hne].
  - rewrite lookup_insert_eq in Hcount, Hpassed. simpl in *. subst n.
    split; [by rewrite Hlen|]. split; [done|].
    split; [rewrite Hcount; lia|].
    destruct (limit <? default 0 (requestCounts st !! clientIP) + 1) eqn:Hlim.
    + rewrite decide_False by (intros [_ [=]]). lia.
    + rewrite decide_True by done. simpl length. lia.
  - rewrite lookup_insert_ne in Hcount, Hpassed by done.
    split; [by rewrite Hlen|]. split; [done|]. split; [done|].
    rewrite decide_False by (by intros [? _]). done.
Qed.

(** X19.  Between two resets the limiter counts per client.  For a
    sequence of requests none of which comes more than a minute after the
    last reset, the requests of a client that pass are the first ones, as
    many as the limit leaves after the count the client already had, whatever
    the other clients send; every request, passed or rejected, is counted;
    and no reset takes place. *)
Theorem rate_limit_within_a_window (requestsPerMinute : Z) (requests : list (Z * string))
    (st : Limiter) (clientIP : string) :
  (∀ now ip, (now, ip) ∈ requests → now - lastReset st ≤ time.Minute) →
  let count := default 0 (requestCounts st !! clientIP) in
  let result := serve requestsPerMinute requests st in
  length result.1 = length requests ∧
  views.passed clientIP requests result.1
  = Z.min (views.asked clientIP requests) (Z.max 0 (requestsPerMinute - count)) ∧
  default 0 (requestCounts result.2 !! clientIP) = count + views.asked clientIP requests ∧
  lastReset result.2 = lastReset st.
Proof.
  intros Hin count result.
  destruct (serve_window requestsPerMinute requests st clientIP Hin)
    as (Hlen & Hreset & Hcount & Hpassed).
  by split_and!.
Qed.

(** X20.  A request that comes more than a minute after the last reset
    starts a new window: the counts of all clients are forgotten, the request
    is counted as the first of its client and passes exactly when the limit
    is at least 1.  The window is fixed, not sliding: a client that used up
    the limit just before a reset may use it up again right after, so twice
    the limit can pass within a millisecond. *)
Theorem rate_limit_resets_every_window (requestsPerMinute now : Z) (clientIP : string)
    (st : Limiter) :
  time.Minute < now - lastReset st →
  (RateLimiter requestsPerMinute now clientIP st).2
  = {| requestCounts := {[clientIP := 1]}; lastReset := now |} ∧
  ((RateLimiter requestsPerMinute now clientIP st).1 = Pass ↔ 1 ≤ requestsPerMinute) ∧
  ∀ n : nat,
    requestsPerMinute = Z.of_nat n →
    requestCounts st = ∅ →
    (serve requestsPerMinute
           (replicate n (lastReset st + time.Minute, clientIP)
            ++ replicate n (lastReset st + time.Minute + 1, clientIP)) st).1
    = replicate (n + n) Pass.
Proof.
  intros Hlate.
  assert (Hreset : time.Minute <? now - lastReset st = true) by (by apply Z.ltb_lt).
  unfold RateLimiter. rewrite Hreset. simpl. rewrite lookup_empty. simpl.
  change (0 + 1) with 1. rewrite insert_empty.
  split; [by destruct (requestsPerMinute <? 1)|].
  split.
  { destruct (requestsPerMinute <? 1) eqn:Hlim; simpl; split; try done; lia. }
  intros n -> Hempty.
  assert (Hfill : ∀ (k : nat) (t : Z) (s : Limiter) (rest : list (Z * string)),
            t - lastReset s ≤ time.Minute →
            default 0 (requestCounts s !! clientIP) + Z.of_nat k ≤ Z.of_nat n →
            ∃ s', lastReset s' = lastReset s ∧
                  default 0 (requestCounts s' !! clientIP)
                  = default 0 (requestCounts s !! clientIP) + Z.of_nat k ∧
                  (serve (Z.of_nat n) (replicate k (t, clientIP) ++ rest) s).1
                  = replicate k Pass ++ (serve (Z.of_nat n) rest s').1).
  { induction k as [|k IHk]; intros t s rest Ht Hroom.
    - exists s. simpl. split_and!; [done|lia|done].
    - cbn [replicate app serve]. unfold RateLimiter.
      rewrite (proj2 (Z.ltb_ge _ _) Ht).
      set (c := default 0 (requestCounts s !! clientIP) + 1).
      rewrite (proj2 (Z.ltb_ge (Z.of_nat n) c)) by lia.
      set (s1 := {| requestCounts := <[clientIP := c]> (requestCounts s);
                    lastReset := lastReset s |}).
      destruct (IHk t s1 rest) as (s' & Hr & Hc & Hs).
      { done. }
      { simpl. rewrite lookup_insert_eq. simpl. lia. }
      exists s'. simpl in Hr, Hc. rewrite lookup_insert_eq in Hc. simpl in Hc.
      split; [done|]. split; [lia|].
      destruct (serve (Z.of_nat n) (replicate k (t, clientIP) ++ rest) s1) as [vs s2].
      simpl in *. by rewrite Hs. }
  destruct (Hfill n (lastReset st + time.Minute) st
              (replicate n (lastReset st + time.Minute + 1, clientIP)))
    as (s1 & Hr1 & Hc1 & Hs1).
  { lia. }
  { rewrite Hempty, lookup_empty. simpl. lia. }
  rewrite Hs1. rewrite replicate_add. f_equal.
  destruct n as [|n]; [done|].
  cbn [replicate serve]. unfold RateLimiter.
  rewrite (proj2 (Z.ltb_lt time.Minute (lastReset st + time.Minute + 1 - lastReset s1)))
    by lia.
  simpl requestCounts. rewrite lookup_empty. simpl default.
  rewrite (proj2 (Z.ltb_ge (Z.of_nat (S n)) (0 + 1))) by lia.
  cbn [lastReset requestCounts].
  set (s2 := {| requestCounts := <[clientIP := 0 + 1]> ∅;
                lastReset := lastReset st + time.Minute + 1 |}).
  destruct (Hfill n (lastReset st + time.Minute + 1) s2 []) as (s3 & _ & _ & Hs3).
  { simpl. unfold time.Minute, time.Second. lia. }
  { simpl. rewrite lookup_insert_eq. simpl. lia. }
  rewrite app_nil_r in Hs3.
  destruct (serve (Z.of_nat (S n)) (replicate n (lastReset st + time.Minute + 1, clientIP)) s2)
    as [vs s4].
  simpl in *. by rewrite Hs3, app_nil_r.
Qed.

Context `{JWT}.

(** The first part of a split has no space; it is the whole text when it
    is the only part, and otherwise the text up to the first space. *)
Lemma Split_head (s : string) :
  ∃ part parts,
    Split s = part :: parts ∧ views.spaceless part = true ∧
    match parts with
    | [] => s = part
    | _ :: _ => ∃ s', s = part +:+ String space s' ∧ Split s' = parts
    end.
Proof.
  induction s as [|c s IH].
  - by exists "", [].
  - destruct IH as (part & parts & Hsplit & Hpart & Hrest). cbn [Split].
    case_bool_decide as Hc.
    + subst c. exists "", (part :: parts). rewrite Hsplit.
      split; [done|]. split; [done|]. by exists s.
    + rewrite Hsplit. exists (String c part), parts.
      split; [done|]. split.
      { cbn [views.spaceless]. by rewrite bool_decide_false. }
      destruct parts as [|part' parts].
      * by subst s.
      * destruct Hrest as (s' & -> & Hs'). by exists s'.
Qed.

Lemma Split_spaceless (a b : string) :
  views.spaceless a = true →
  Split a = [a] ∧ Split (a +:+ String space b) = a :: Split b.
Proof.
  induction a as [|c a IH]; intros Ha.
  - split; reflexivity.
  - cbn [views.spaceless] in Ha. apply andb_true_iff in Ha as [Hc Ha].
    apply negb_true_iff, bool_decide_eq_false in Hc.
    destruct (IH Ha) as [IH1 IH2]. split.
    + cbn [Split]. rewrite bool_decide_false by done. by rewrite IH1.
    + change (String c a +:+ String space b) with (String c (a +:+ String space b)).
      cbn [Split]. rewrite bool_decide_false by done. by rewrite IH2.
Qed.

(** X21.  [AuthMiddleware] lets a request through exactly when its
    [Authorization] header is the word Bearer, one space, and a token without
    a space that the JWT library accepts with claims of the expected type;
    the identity it sets is the one in the claims.  Every other header,
    among them another spelling of the scheme, a second space or a missing
    token, is answered with status 401. *)
Theorem bearer_header_is_required (jwtSecret authHeader : string) (now : Z) :
  (∀ user_id device_id,
     AuthMiddleware jwtSecret authHeader now = Next user_id device_id
     ↔ ∃ tokenString claims,
         authHeader = "Bearer " +:+ tokenString ∧
         views.spaceless tokenString = true ∧
         ParseWithClaims tokenString jwtSecret now = ValidClaims claims ∧
         UserID claims = user_id ∧ DeviceID claims = device_id) ∧
  (∀ status error,
     AuthMiddleware jwtSecret authHeader now = Abort status error → status = 401).
Proof.
  split.
  - intros user_id device_id. split.
    + unfold AuthMiddleware. case_bool_decide as Hempty; [discriminate|].
      destruct (Split_head authHeader) as (bearer & parts & Hsplit & _ & Hrest).
      rewrite Hsplit.
      destruct parts as [|tokenString [|]]; try discriminate.
      destruct Hrest as (s' & -> & Hs').
      destruct (Split_head s') as (part & parts & Hsplit' & Hpart & Hrest').
      rewrite Hs' in Hsplit'. injection Hsplit' as <- <-. subst s'.
      case_bool_decide as Hbearer; [|discriminate]. subst bearer.
      destruct (ParseWithClaims tokenString jwtSecret now) as [| |claims] eqn:Hparse;
        try discriminate.
      intros [= <- <-]. by exists tokenString, claims.
    + intros (tokenString & claims & -> & Hspaceless & Hparse & <- & <-).
      unfold AuthMiddleware. rewrite bool_decide_false by done.
      change ("Bearer " +:+ tokenString) with ("Bearer" +:+ String space tokenString).
      destruct (Split_spaceless "Bearer" tokenString eq_refl) as [_ ->].
      destruct (Split_spaceless tokenString "" Hspaceless) as [-> _].
      rewrite bool_decide_true by done. by rewrite Hparse.
  - intros status error. unfold AuthMiddleware.
    repeat case_match; by intros [= <- _].
Qed.

End Middleware.

Lemma rate_limit_within_a_window_witness :
  views.passed "10.0.0.1"
    [(10, "10.0.0.1"); (20, "10.0.0.2"); (30, "10.0.0.1"); (40, "10.0.0.1")]
    (middleware.serve 2
       [(10, "10.0.0.1"); (20, "10.0.0.2"); (30, "10.0.0.1"); (40, "10.0.0.1")]
       (middleware.RateLimiter_start 0)).1
  = 2.
Proof.
  destruct (rate_limit_within_a_window 2
              [(10, "10.0.0.1"); (20, "10.0.0.2"); (30, "10.0.0.1"); (40, "10.0.0.1")]
              (middleware.RateLimiter_start 0) "10.0.0.1") as (_ & Hpassed & _).
  - intros now ip Hin. simpl.
    repeat (apply elem_of_cons in Hin as [[= -> ->]|Hin]; [by vm_compute|]).
    by apply elem_of_nil in Hin.
  - rewrite Hpassed. by vm_compute.
Defined.

Lemma rate_limit_resets_every_window_witness :
  (middleware.RateLimiter 5 70000 "10.0.0.1"
     {| middleware.requestCounts := {["10.0.0.1" := 9; "10.0.0.2" := 3]};
        middleware.lastReset := 0 |}).2
  = {| middleware.requestCounts := {["10.0.0.1" := 1]}; middleware.lastReset := 70000 |}.
Proof.
  refine (proj1 (rate_limit_resets_every_window 5 70000 "10.0.0.1"
                   {| middleware.requestCounts := {["10.0.0.1" := 9; "10.0.0.2" := 3]};
                      middleware.lastReset := 0 |} _)).
  reflexivity.
Defined.

(** ** Accounts: registration, consent, deletion *)

Section Accounts.

Import runtime database handlers.

Context `{External} `{accounts.Store} `{middleware.JWT}.

Implicit Types (w : World) (d : DB) (u : UserRow) (h : accounts.AuthHandler).

(** Without a stored consent of [true], [Sync] answers 403 and changes
    nothing. *)
Lemma sync_forbidden (userID : string) (req : models.SyncRequest) w :
  select_consent userID (db w) ≠ Some true →
  Sync userID (Some req) w = (SyncForbidden, w).
Proof.
  intros Hno. unfold Sync.
  destruct (db_fails (SelectConsent userID)); [done|].
  by destruct (select_consent userID (db w)) as [[|]|].
Qed.

Lemma find_user_fmap (g : UserRow → UserRow) (userID : string) (l : list UserRow) :
  (∀ u, usr_id (g u) = usr_id u) →
  List.find (λ u, bool_decide (usr_id u = userID)) (g <$> l)
  = g <$> List.find (λ u, bool_decide (usr_id u = userID)) l.
Proof.
  intros Hid. induction l as [|u l IH]; [done|].
  rewrite fmap_cons. cbn [List.find]. rewrite Hid.
  by destruct (bool_decide (usr_id u = userID)).
Qed.

Lemma find_user_none (userID : string) (l : list UserRow) :
  userID ∉ usr_id <$> l →
  List.find (λ u, bool_decide (usr_id u = userID)) l = None.
Proof.
  induction l as [|u l IH]; [done|]. rewrite fmap_cons, not_elem_of_cons.
  intros [Hne Hl]. cbn [List.find]. rewrite bool_decide_false by done. by apply IH.
Qed.

Lemma find_user_snoc (userID : string) (l : list UserRow) (row : UserRow) :
  userID ∉ usr_id <$> l →
  List.find (λ u, bool_decide (usr_id u = userID)) (l ++ [row])
  = if bool_decide (usr_id row = userID) then Some row else None.
Proof.
  induction l as [|u l IH]; [done|]. rewrite fmap_cons, not_elem_of_cons.
  intros [Hne Hl]. cbn [List.find app]. rewrite bool_decide_false by done. by apply IH.
Qed.

Lemma find_user_some (userID : string) (l : list UserRow) :
  userID ∈ usr_id <$> l →
  ∃ u, List.find (λ u, bool_decide (usr_id u = userID)) l = Some u ∧ usr_id u = userID.
Proof.
  induction l as [|u l IH]; [by intros ?%elem_of_nil|].
  rewrite fmap_cons. intros Hin. cbn [List.find].
  case_bool_decide as Hu; [by exists u|].
  apply elem_of_cons in Hin as [?|Hin]; [done|]. by apply IH.
Qed.

(** What [insert_user] requires and does. *)
Lemma insert_user_some (row : UserRow) d d' :
  accounts.insert_user row d = Some d' →
  usr_id row ∉ usr_id <$> users d ∧
  usr_device_id row ∉ usr_device_id <$> users d ∧
  d' = {| users := users d ++ [row]; transactions := transactions d;
          user_insights := user_insights d |}.
Proof.
  unfold accounts.insert_user.
  destruct (bool_decide (usr_id row ∈ _)) eqn:Hid; [done|].
  destruct (bool_decide (usr_device_id row ∈ _)) eqn:Hdev; [done|].
  apply bool_decide_eq_false in Hid, Hdev. simpl. by intros [= <-].
Qed.

Lemma select_device_snoc (deviceID : string) (l : list UserRow) (row : UserRow) :
  deviceID ∉ usr_device_id <$> l → usr_device_id row = deviceID →
  head (filter (λ u, usr_device_id u = deviceID) (l ++ [row])) = Some row.
Proof.
  intros Hout Hrow. rewrite filter_app.
  rewrite (filter_none _ l).
  - simpl. by rewrite filter_cons_True.
  - intros u Hu Hd. apply Hout. rewrite <- Hd. by apply list_elem_of_fmap_2.
Qed.

(** A registration that answers with [is_new_user = true]: what it
    found and what it left. *)
Lemma register_new_row h (body : option accounts.RegisterRequest) w
    (userID token : string) (expires_in : Z) w' :
  accounts.Register h body w = (accounts.RegisterOK userID token true expires_in, w') →
  ∃ req,
    body = Some req ∧ accounts.DeviceID req ≠ "" ∧
    accounts.exec_fails (accounts.SelectUserByDevice (accounts.DeviceID req)) = false ∧
    userID = accounts.uuid_String (uuid_next w) ∧
    userID ∉ usr_id <$> users (db w) ∧
    accounts.DeviceID req ∉ usr_device_id <$> users (db w) ∧
    db w' = {| users := users (db w)
                        ++ [ {| usr_id := userID;
                                usr_device_id := accounts.DeviceID req;
                                usr_fcm_token := Some (accounts.FCMToken req);
                                usr_consent_given := false |} ];
               transactions := transactions (db w);
               user_insights := user_insights (db w) |}.
Proof.
  unfold accounts.Register.
  destruct body as [req|]; [|discriminate].
  case_bool_decide as Hdev; [discriminate|].
  destruct (accounts.exec_fails (accounts.SelectUserByDevice _)) eqn:Hsel; [discriminate|].
  destruct (accounts.select_user_by_device (accounts.DeviceID req) (db w)) as [known|]
    eqn:Hknown.
  { unfold accounts.respond. destruct (middleware.GenerateToken _ _ _ _ _); discriminate. }
  unfold uuid_New. cbv zeta. cbn [db].
  set (userID' := accounts.uuid_String (uuid_next w)).
  set (row := {| usr_id := userID'; usr_device_id := accounts.DeviceID req;
                 usr_fcm_token := Some (accounts.FCMToken req);
                 usr_consent_given := false |}).
  destruct (accounts.exec_fails (accounts.InsertUser row)); [discriminate|].
  destruct (accounts.insert_user row (db w)) as [d'|] eqn:Hins; [|discriminate].
  apply insert_user_some in Hins as (Hid & Hdevice & ->).
  unfold accounts.respond.
  destruct (middleware.GenerateToken _ _ _ _ _) as [tok|]; [|discriminate].
  intros [= <- <- <- <-]. exists req. simpl in Hid, Hdevice. by split_and!.
Qed.

(** X22.  A registration that answers with [is_new_user = true] has added
    exactly one row to the users table, for a device and under an identifier
    that the table did not have, with the token of the request stored as
    given (the empty text included, which is not [NULL]) and with
    [consent_given = false].  So until the user consents, every [Sync] of
    this user is refused and changes nothing; and registering the same device
    again returns the same user with [is_new_user = false]. *)
Theorem registration_creates_unconsented_user
    h (body : option accounts.RegisterRequest) w
    (userID token : string) (expires_in : Z) w' :
  accounts.Register h body w = (accounts.RegisterOK userID token true expires_in, w') →
  ∃ req,
    body = Some req ∧ accounts.DeviceID req ≠ "" ∧
    userID = accounts.uuid_String (uuid_next w) ∧
    userID ∉ usr_id <$> users (db w) ∧
    accounts.DeviceID req ∉ usr_device_id <$> users (db w) ∧
    users (db w')
    = users (db w) ++ [ {| usr_id := userID;
                           usr_device_id := accounts.DeviceID req;
                           usr_fcm_token := Some (accounts.FCMToken req);
                           usr_consent_given := false |} ] ∧
    transactions (db w') = transactions (db w) ∧
    user_insights (db w') = user_insights (db w) ∧
    select_consent userID (db w') = Some false ∧
    (∀ sync, Sync userID (Some sync) w' = (SyncForbidden, w')) ∧
    (∀ again user_id token' is_new_user expires w'',
       accounts.DeviceID again = accounts.DeviceID req →
       accounts.Register h (Some again) w'
       = (accounts.RegisterOK user_id token' is_new_user expires, w'') →
       user_id = userID ∧ is_new_user = false).
Proof.
  intros Hreg.
  destruct (register_new_row _ _ _ _ _ _ _ Hreg)
    as (req & -> & Hdev & Hsel & Hid & Hfresh & Hdevice & Hdb).
  exists req.
  set (row := {| usr_id := userID; usr_device_id := accounts.DeviceID req;
                 usr_fcm_token := Some (accounts.FCMToken req);
                 usr_consent_given := false |}) in *.
  assert (Hconsent : select_consent userID (db w') = Some false).
  { unfold select_consent. rewrite Hdb. cbn [users]. rewrite find_user_snoc by done.
    by rewrite bool_decide_true. }
  split_and!; try done.
  - by rewrite Hdb.
  - by rewrite Hdb.
  - by rewrite Hdb.
  - intros sync. apply sync_forbidden. by rewrite Hconsent.
  - intros again user_id token' is_new expires w'' Hsame.
    unfold accounts.Register.
    rewrite Hsame, bool_decide_false by done. rewrite Hsel.
    unfold accounts.select_user_by_device. rewrite Hdb. cbn [users].
    rewrite (select_device_snoc _ _ row) by done. cbn [fmap option_fmap option_map].
    unfold accounts.respond.
    destruct (middleware.GenerateToken _ _ _ _ _); [|discriminate].
    by intros [= <- _ <- _ _].
Qed.

(** An update by identifier that keeps a column keeps the column of the
    table. *)
Lemma update_user_column {A} (col : UserRow → A) (f : UserRow → UserRow)
    (userID : string) d :
  (∀ u, col (f u) = col u) →
  col <$> users (accounts.update_user f userID d) = col <$> users d.
Proof.
  intros Hcol. unfold accounts.update_user. simpl. rewrite <- list_fmap_compose.
  apply list_fmap_ext. intros i u _. simpl. by case_bool_decide.
Qed.

Lemma update_user_others (f : UserRow → UserRow) (userID : string) d u :
  u ∈ users (accounts.update_user f userID d) → usr_id u ≠ userID →
  (∀ u, usr_id (f u) = usr_id u) → u ∈ users d.
Proof.
  unfold accounts.update_user. simpl. intros Hin Hne Hid.
  apply list_elem_of_fmap in Hin as (u0 & -> & Hu0).
  case_bool_decide as Hu; [|done]. by rewrite Hid in Hne.
Qed.

Lemma update_user_consent (f : UserRow → UserRow) (userID user : string) d :
  (∀ u, usr_id (f u) = usr_id u) →
  select_consent user (accounts.update_user f userID d)
  = if bool_decide (user = userID)
    then usr_consent_given ∘ f <$> List.find (λ u, bool_decide (usr_id u = user)) (users d)
    else select_consent user d.
Proof.
  intros Hid. unfold select_consent, accounts.update_user. simpl.
  rewrite find_user_fmap by (intros u; by case_bool_decide).
  destruct (List.find _ (users d)) as [u|] eqn:Hfind; simpl; [|by case_bool_decide].
  apply find_some in Hfind as [_ Hu]. apply bool_decide_eq_true in Hu. subst user.
  by repeat case_bool_decide.
Qed.

(** X23.  Registering a device that the users table knows creates
    nothing.  The answer carries the identifier of the stored user and
    [is_new_user = false], or is the error of the signer; identifiers,
    devices and consents of all users, the transactions and the insights are
    as before; the only change there can be is the token of that user, set to
    the token of the request when this is not empty; with an empty token the
    world is unchanged. *)
Theorem registration_of_known_device
    h (req : accounts.RegisterRequest) (known : string) w :
  accounts.DeviceID req ≠ "" →
  accounts.exec_fails (accounts.SelectUserByDevice (accounts.DeviceID req)) = false →
  accounts.select_user_by_device (accounts.DeviceID req) (db w) = Some known →
  let r := accounts.Register h (Some req) w in
  ((∃ token, r.1 = accounts.RegisterOK known token false
                     (config.JWTExpiration (accounts.Config h) * 3600))
   ∨ r.1 = accounts.RegisterInternalServerError "Failed to generate token") ∧
  usr_id <$> users (db r.2) = usr_id <$> users (db w) ∧
  usr_device_id <$> users (db r.2) = usr_device_id <$> users (db w) ∧
  usr_consent_given <$> users (db r.2) = usr_consent_given <$> users (db w) ∧
  (∀ u, u ∈ users (db r.2) → usr_id u ≠ known → u ∈ users (db w)) ∧
  (∀ user, select_consent user (db r.2) = select_consent user (db w)) ∧
  transactions (db r.2) = transactions (db w) ∧
  user_insights (db r.2) = user_insights (db w) ∧
  uuid_next r.2 = uuid_next w ∧
  (accounts.FCMToken req = "" → r.2 = w).
Proof.
  intros Hdev Hsel Hknown r. subst r. unfold accounts.Register.
  rewrite bool_decide_false by done. rewrite Hsel, Hknown.
  set (w1 := if bool_decide (accounts.FCMToken req ≠ "") then _ else w).
  assert (Hw1 : w1 = w
                ∨ (accounts.FCMToken req ≠ ""
                   ∧ w1 = set_db (accounts.update_user
                                    (accounts.set_token (accounts.FCMToken req)) known (db w))
                                 w)).
  { subst w1. case_bool_decide as Hne; [|by left].
    destruct (accounts.exec_fails (accounts.UpdateToken _ _)); [by left | right; by split]. }
  clearbody w1.
  assert (Hresp : (accounts.respond h known (accounts.DeviceID req) true w1).2 = w1).
  { unfold accounts.respond. by destruct (middleware.GenerateToken _ _ _ _ _). }
  rewrite Hresp. split.
  { unfold accounts.respond. destruct (middleware.GenerateToken _ _ _ _ _) as [token|].
    - left. by exists token.
    - by right. }
  destruct Hw1 as [->|[Hne ->]]; [by split_and!|].
  cbn [db set_db uuid_next].
  split_and!.
  - by apply update_user_column.
  - by apply update_user_column.
  - by apply update_user_column.
  - intros u Hu Hother. by eapply update_user_others.
  - intros user. rewrite update_user_consent by done.
    case_bool_decide; [|done]. unfold select_consent.
    by destruct (List.find _ (users (db w))).
  - done.
  - done.
  - done.
  - done.
Qed.

(** X24.  [UpdateConsent] answers that the consent is updated whenever
    its statement does not fail, also for an identifier that no row has, in
    which case nothing changes.  It sets the consent of the rows with the
    caller's identifier and of no other user, and keeps identifiers, devices,
    tokens, transactions and insights.  After a revocation every [Sync] of the
    user is refused and the sweep does not select the user, while the
    transactions and insights stored before stay; after a grant, [Sync] is no
    longer refused for want of consent. *)
Theorem consent_switch h (userID : string) (consentGiven : bool) w :
  accounts.exec_fails (accounts.UpdateConsentGiven consentGiven userID) = false →
  let r := accounts.UpdateConsent h userID (Some consentGiven) w in
  r.1 = accounts.ConsentUpdated ∧
  (userID ∈ usr_id <$> users (db w) → select_consent userID (db r.2) = Some consentGiven) ∧
  (userID ∉ usr_id <$> users (db w) → db r.2 = db w) ∧
  (∀ other, other ≠ userID → select_consent other (db r.2) = select_consent other (db w)) ∧
  usr_id <$> users (db r.2) = usr_id <$> users (db w) ∧
  usr_device_id <$> users (db r.2) = usr_device_id <$> users (db w) ∧
  usr_fcm_token <$> users (db r.2) = usr_fcm_token <$> users (db w) ∧
  transactions (db r.2) = transactions (db w) ∧
  user_insights (db r.2) = user_insights (db w) ∧
  (consentGiven = false →
   (∀ sync, Sync userID (Some sync) r.2 = (SyncForbidden, r.2)) ∧
   userID ∉ (select_sweep_users (db r.2)).*1) ∧
  (consentGiven = true → userID ∈ usr_id <$> users (db w) →
   db_fails (SelectConsent userID) = false →
   ∀ sync, (Sync userID (Some sync) r.2).1 ≠ SyncForbidden).
Proof.
  intros Hok r. subst r. unfold accounts.UpdateConsent. rewrite Hok.
  cbn [fst snd db set_db].
  assert (Hself : userID ∈ usr_id <$> users (db w) →
                  select_consent userID
                    (accounts.update_user (accounts.set_consent consentGiven) userID (db w))
                  = Some consentGiven).
  { intros Hin. rewrite update_user_consent by done. rewrite bool_decide_true by done.
    by destruct (find_user_some userID (users (db w)) Hin) as (u & -> & _). }
  split; [done|]. split; [exact Hself|]. split.
  { intros Hout. destruct (db w) as [us ts ins]. unfold accounts.update_user. simpl in *.
    f_equal. induction us as [|u us IH]; [done|].
    rewrite fmap_cons in Hout. apply not_elem_of_cons in Hout as [Hne Hout].
    rewrite fmap_cons, bool_decide_false by done. f_equal. by apply IH. }
  split.
  { intros other Hne. rewrite update_user_consent by done.
    by rewrite bool_decide_false. }
  split; [by apply update_user_column|].
  split; [by apply update_user_column|].
  split; [by apply update_user_column|].
  split; [done|]. split; [done|]. split.
  - intros ->. split.
    + intros sync. apply sync_forbidden. cbn [db set_db].
      rewrite update_user_consent by done. rewrite bool_decide_true by done.
      by destruct (List.find _ (users (db w))).
    + intros Hin. apply sweep_user in Hin as (u & Hu & Hc & _ & Hid).
      unfold accounts.update_user in Hu. simpl in Hu.
      apply list_elem_of_fmap in Hu as (u0 & -> & Hu0).
      case_bool_decide as Hu; simpl in *; congruence.
  - intros -> Hin Hq sync. unfold Sync. rewrite Hq. cbn [db set_db].
    rewrite (Hself Hin).
    destruct (db_fails Begin); [done|]. by destruct (db_fails Commit).
Qed.

Lemma filter_other {A} (key : A → string) (other userID : string) (l : list A) :
  other ≠ userID →
  filter (λ x, key x = other) (filter (λ x, key x ≠ userID) l)
  = filter (λ x, key x = other) l.
Proof.
  intros Hne. induction l as [|x l IH]; [done|].
  rewrite !filter_cons.
  destruct (decide (key x ≠ userID)) as [Hx|Hx].
  - rewrite filter_cons. by rewrite IH.
  - rewrite IH. rewrite decide_False; [done|]. intros Hk. apply Hx. congruence.
Qed.

Lemma filter_twice {A} (P : A → Prop) `{∀ x, Decision (P x)} (l : list A) :
  filter P (filter P l) = filter P l.
Proof.
  induction l as [|x l IH]; [done|].
  rewrite filter_cons. destruct (decide (P x)) as [HP|HP]; [|done].
  by rewrite filter_cons_True, IH.
Qed.

(** X25.  [DeleteData] answers that all data is deleted exactly when
    neither of its two statements fails, and then no row of the users,
    transactions and insights tables carries the identifier; every later
    [Sync] of that user is refused and the sweep does not select the user.
    Whatever the outcome, the rows of every other user in the three tables are
    as before. *)
Theorem delete_data_erases_the_user h (userID : string) w :
  let r := accounts.DeleteData h userID w in
  (r.1 = accounts.AllDataDeleted
   ↔ accounts.exec_fails (accounts.DeleteTransactions userID) = false
     ∧ accounts.exec_fails (accounts.DeleteUser userID) = false) ∧
  (r.1 = accounts.AllDataDeleted →
   userID ∉ usr_id <$> users (db r.2) ∧
   userID ∉ tx_user_id <$> transactions (db r.2) ∧
   userID ∉ ins_user_id <$> user_insights (db r.2) ∧
   (∀ sync, Sync userID (Some sync) r.2 = (SyncForbidden, r.2)) ∧
   userID ∉ (select_sweep_users (db r.2)).*1) ∧
  (∀ other, other ≠ userID →
     filter (λ u, usr_id u = other) (users (db r.2))
     = filter (λ u, usr_id u = other) (users (db w)) ∧
     filter (λ t, tx_user_id t = other) (transactions (db r.2))
     = filter (λ t, tx_user_id t = other) (transactions (db w)) ∧
     filter (λ i, ins_user_id i = other) (user_insights (db r.2))
     = filter (λ i, ins_user_id i = other) (user_insights (db w))).
Proof.
  intros r. subst r. unfold accounts.DeleteData.
  assert (Hgone : ∀ {A} (key : A → string) (l : list A),
            userID ∉ key <$> filter (λ x, key x ≠ userID) l).
  { intros A key l Hin. apply list_elem_of_fmap in Hin as (x & Hx & Hin).
    apply list_elem_of_filter in Hin as [Hne _]. done. }
  destruct (accounts.exec_fails (accounts.DeleteTransactions userID)) eqn:Htx.
  { cbn [fst snd]. split_and!; [split; [done|by intros [[=] _]] | done | done]. }
  destruct (accounts.exec_fails (accounts.DeleteUser userID)) eqn:Hus; cbn [fst snd db set_db].
  { split_and!; [split; [done|by intros [_ [=]]] | done |].
    intros other Hne. unfold accounts.delete_transactions. cbn [users transactions user_insights].
    by rewrite filter_other. }
  unfold accounts.delete_user, accounts.delete_transactions.
  cbn [users transactions user_insights].
  split_and!.
  - done.
  - intros _. split_and!.
    + apply Hgone.
    + apply Hgone.
    + apply Hgone.
    + intros sync. apply sync_forbidden. unfold select_consent.
      cbn [db set_db users]. rewrite find_user_none; [done|]. apply Hgone.
    + intros Hin. apply sweep_user in Hin as (u & Hu & _ & _ & Hid).
      cbn [users] in Hu. apply list_elem_of_filter in Hu as [Hne _]. done.
  - intros other Hne. rewrite !filter_other by done. done.
Qed.

(** X26.  [DeleteData] is not atomic.  When the deletion of the user row
    fails after the deletion of the transactions went through, the answer is
    an error although the transactions of the user are gone for good, while
    the user row, its consent and the stored insights remain.  When the first
    statement fails nothing is changed. *)
Theorem delete_data_can_stop_half_way h (userID : string) w :
  let r := accounts.DeleteData h userID w in
  (accounts.exec_fails (accounts.DeleteTransactions userID) = true →
   r = (accounts.DeleteInternalServerError "Failed to delete transactions", w)) ∧
  (accounts.exec_fails (accounts.DeleteTransactions userID) = false →
   accounts.exec_fails (accounts.DeleteUser userID) = true →
   r.1 = accounts.DeleteInternalServerError "Failed to delete user" ∧
   userID ∉ tx_user_id <$> transactions (db r.2) ∧
   users (db r.2) = users (db w) ∧
   user_insights (db r.2) = user_insights (db w) ∧
   select_consent userID (db r.2) = select_consent userID (db w)).
Proof.
  intros r. subst r. unfold accounts.DeleteData. split.
  - by intros ->.
  - intros -> ->. cbn [fst snd db set_db]. split_and!; try done.
    intros Hin. unfold accounts.delete_transactions in Hin. cbn [transactions] in Hin.
    apply list_elem_of_fmap in Hin as (x & Hx & Hin).
    apply list_elem_of_filter in Hin as [Hne _]. done.
Qed.

(** X27.  The handlers keep the keys of the users table: if no two rows
    share an identifier and no two share a device before [Register],
    [UpdateConsent] or [DeleteData], none do afterwards, for every request and
    every behaviour of the database and of the signer. *)
Theorem user_keys_stay_unique
    h (body : option accounts.RegisterRequest) (userID : string) (consent : option bool) w :
  NoDup (usr_id <$> users (db w)) →
  NoDup (usr_device_id <$> users (db w)) →
  ∀ w', w' = (accounts.Register h body w).2
        ∨ w' = (accounts.UpdateConsent h userID consent w).2
        ∨ w' = (accounts.DeleteData h userID w).2 →
        NoDup (usr_id <$> users (db w')) ∧ NoDup (usr_device_id <$> users (db w')).
Proof.
  intros Hids Hdevs w' [->|[->| ->]].
  - unfold accounts.Register.
    destruct body as [req|]; [|done].
    case_bool_decide; [done|].
    destruct (accounts.exec_fails (accounts.SelectUserByDevice _)); [done|].
    assert (Hrespond : ∀ uid dev e w0, (accounts.respond h uid dev e w0).2 = w0).
    { intros. unfold accounts.respond. by destruct (middleware.GenerateToken _ _ _ _ _). }
    destruct (accounts.select_user_by_device _ _) as [known|].
    + rewrite Hrespond. case_bool_decide; [|done].
      destruct (accounts.exec_fails (accounts.UpdateToken _ _)); [done|].
      cbn [db set_db]. by rewrite !update_user_column.
    + unfold uuid_New. cbv zeta. cbn [db].
      destruct (accounts.exec_fails (accounts.InsertUser _)); [done|].
      destruct (accounts.insert_user _ (db w)) as [d'|] eqn:Hins; [|done].
      apply insert_user_some in Hins as (Hid & Hdev & ->).
      rewrite Hrespond. cbn [db set_db users]. rewrite !fmap_app.
      split; apply NoDup_app; (split; [done|]); simpl;
        (split; [|apply NoDup_singleton]);
        intros x Hx Hx'; apply list_elem_of_singleton in Hx'; by subst.
  - unfold accounts.UpdateConsent. destruct consent as [b|]; [|done].
    destruct (accounts.exec_fails _); [done|].
    cbn [snd db set_db]. by rewrite !update_user_column.
  - unfold accounts.DeleteData.
    destruct (accounts.exec_fails (accounts.DeleteTransactions userID)); [done|].
    destruct (accounts.exec_fails (accounts.DeleteUser userID)); [done|].
    cbn [snd db set_db]. unfold accounts.delete_user, accounts.delete_transactions.
    cbn [users].
    split; [apply (sublist_NoDup _ _ Hids) | apply (sublist_NoDup _ _ Hdevs)];
      apply fmap_sublist, sublist_filter.
Qed.

#[local] Instance generated_desc_trans : Transitive accounts.generated_desc.
Proof. intros a b c. unfold accounts.generated_desc. lia. Qed.

#[local] Instance generated_desc_total : Total accounts.generated_desc.
Proof. intros a b. unfold accounts.generated_desc. lia. Qed.

Lemma StronglySorted_fmap_rows {A B} (R : relation B) (f : A → B) (l : list A) :
  StronglySorted (λ a b, R (f a) (f b)) l → StronglySorted R (f <$> l).
Proof.
  induction 1 as [|x l Hl IH Hx]; [constructor|].
  rewrite fmap_cons. constructor; [done|].
  apply Forall_fmap. exact Hx.
Qed.

(** X28.  [GetUserInsights] serves the caller's most recent stored
    insights: as many as the caller has, up to ten, newest first, each the
    reading of a stored row of the caller, and no row left out is newer than a
    row served.  Reading back the row that [storeInsights] writes for an
    insight gives the insight; so what is stored for a user without earlier
    insights, ten at most and with every [INSERT] accepted, is exactly what
    the user is served, up to order. *)
Theorem stored_insights_are_served (userID : string) w :
  let mine := filter (λ r, ins_user_id r = userID) (user_insights (db w)) in
  (∀ insights,
     accounts.GetUserInsights userID w = accounts.StoredInsights insights →
     length insights = (10 `min` length mine)%nat ∧
     StronglySorted (λ a b, services.GeneratedAt b ≤ services.GeneratedAt a) insights ∧
     ∃ rest,
       accounts.insight_of_row <$> mine ≡ₚ insights ++ rest ∧
       ∀ i j, i ∈ insights → j ∈ rest →
              services.GeneratedAt j ≤ services.GeneratedAt i) ∧
  (∀ user insight, accounts.insight_of_row (insight_row user insight) = insight) ∧
  (∀ l : list services.AIInsight,
     accounts.exec_fails (accounts.SelectInsights userID) = false →
     (∀ row, db_fails (InsertInsight row) = false) →
     mine = [] → (length l ≤ 10)%nat →
     ∃ served,
       accounts.GetUserInsights userID (storeInsights userID l w)
       = accounts.StoredInsights served ∧
       served ≡ₚ l).
Proof.
  intros mine.
  assert (Hround : ∀ user insight,
            accounts.insight_of_row (insight_row user insight) = insight).
  { intros user []. reflexivity. }
  split_and!; [|exact Hround|].
  - intros insights. unfold accounts.GetUserInsights.
    destruct (accounts.exec_fails _); [discriminate|].
    intros [= <-]. unfold accounts.select_insights. fold mine.
    set (sorted := merge_sort accounts.generated_desc mine).
    assert (Hperm : sorted ≡ₚ mine) by apply merge_sort_Permutation.
    assert (Hsorted : StronglySorted accounts.generated_desc sorted)
      by apply (StronglySorted_merge_sort _).
    rewrite <- (take_drop 10 sorted) in Hsorted.
    split_and!.
    + by rewrite length_fmap, length_take, (Permutation_length Hperm).
    + apply (StronglySorted_fmap_rows
               (λ a b, services.GeneratedAt b ≤ services.GeneratedAt a)).
      by apply StronglySorted_app_1_l in Hsorted.
    + exists (accounts.insight_of_row <$> drop 10 sorted). split.
      * by rewrite <- fmap_app, take_drop, Hperm.
      * intros i j Hi Hj.
        apply list_elem_of_fmap in Hi as (a & -> & Ha).
        apply list_elem_of_fmap in Hj as (b & -> & Hb).
        exact (StronglySorted_app_1_elem_of _ _ _ _ _ Hsorted Ha Hb).
  - intros l Hsel Hok Hnone Hlen. unfold accounts.GetUserInsights. rewrite Hsel.
    eexists. split; [reflexivity|].
    unfold accounts.select_insights. rewrite store_exact. cbn [db set_db user_insights].
    rewrite filter_app. fold mine. rewrite Hnone, app_nil_l.
    assert (Hall : filter (λ i, db_fails (InsertInsight (insight_row userID i)) = false) l = l).
    { clear Hlen. induction l as [|i l IH]; [done|].
      by rewrite filter_cons_True, IH by apply Hok. }
    rewrite Hall.
    assert (Hmine : filter (λ r, ins_user_id r = userID) (insight_row userID <$> l)
                    = insight_row userID <$> l).
    { clear. induction l as [|i l IH]; [done|].
      rewrite fmap_cons, filter_cons_True by done. by rewrite IH. }
    rewrite Hmine, take_ge.
    2:{ rewrite (Permutation_length (merge_sort_Permutation _ _)), length_fmap. lia. }
    rewrite merge_sort_Permutation, <- list_fmap_compose.
    rewrite (list_fmap_ext _ id l); [by rewrite list_fmap_id|]. intros ? i _. apply Hround.
Qed.

(** X30.  A user registered through [Register] always has a token that
    is not [NULL], even when the request carried none: the empty text is
    stored.  The handlers keep this for every row, so the condition of the
    sweep on the token excludes nobody and the sweep selects every consenting
    user; in particular a user who registers, with or without a token, and
    then grants consent is selected with the token of the request. *)
Theorem token_is_never_null
    h (body : option accounts.RegisterRequest) (userID : string) (consent : option bool) w :
  Forall (λ u, is_Some (usr_fcm_token u)) (users (db w)) →
  (∀ w', w' = (accounts.Register h body w).2
         ∨ w' = (accounts.UpdateConsent h userID consent w).2
         ∨ w' = (accounts.DeleteData h userID w).2 →
         Forall (λ u, is_Some (usr_fcm_token u)) (users (db w'))) ∧
  select_sweep_users (db w)
  = (λ u, (usr_id u, usr_fcm_token u))
      <$> filter (λ u, usr_consent_given u = true) (users (db w)) ∧
  (∀ req token expires_in w1,
     body = Some req →
     accounts.Register h body w = (accounts.RegisterOK userID token true expires_in, w1) →
     accounts.exec_fails (accounts.UpdateConsentGiven true userID) = false →
     (userID, Some (accounts.FCMToken req))
     ∈ select_sweep_users (db (accounts.UpdateConsent h userID (Some true) w1).2)).
Proof.
  intros Htokens.
  assert (Hupdate : ∀ f uid d,
            (∀ u, is_Some (usr_fcm_token u) → is_Some (usr_fcm_token (f u))) →
            Forall (λ u, is_Some (usr_fcm_token u)) (users d) →
            Forall (λ u, is_Some (usr_fcm_token u)) (users (accounts.update_user f uid d))).
  { intros f uid d Hf Hall. unfold accounts.update_user. cbn [users].
    apply Forall_fmap. eapply Forall_impl; [exact Hall|].
    intros u Hu. simpl. case_bool_decide; [by apply Hf | done]. }
  split_and!.
  - intros w' [->|[->| ->]].
    + unfold accounts.Register.
      destruct body as [req|]; [|done].
      case_bool_decide; [done|].
      destruct (accounts.exec_fails (accounts.SelectUserByDevice _)); [done|].
      assert (Hrespond : ∀ uid dev e w0, (accounts.respond h uid dev e w0).2 = w0).
      { intros. unfold accounts.respond. by destruct (middleware.GenerateToken _ _ _ _ _). }
      destruct (accounts.select_user_by_device _ _) as [known|].
      * rewrite Hrespond. case_bool_decide; [|done].
        destruct (accounts.exec_fails (accounts.UpdateToken _ _)); [done|].
        cbn [db set_db]. apply Hupdate; [|done]. intros u _. by eexists.
      * unfold uuid_New. cbv zeta. cbn [db].
        destruct (accounts.exec_fails (accounts.InsertUser _)); [done|].
        destruct (accounts.insert_user _ (db w)) as [d'|] eqn:Hins; [|done].
        apply insert_user_some in Hins as (_ & _ & ->).
        rewrite Hrespond. cbn [db set_db users].
        apply Forall_app. split; [done|]. constructor; [by eexists | constructor].
    + unfold accounts.UpdateConsent. destruct consent as [b|]; [|done].
      destruct (accounts.exec_fails _); [done|].
      cbn [snd db set_db]. by apply Hupdate.
    + unfold accounts.DeleteData.
      destruct (accounts.exec_fails (accounts.DeleteTransactions userID)); [done|].
      destruct (accounts.exec_fails (accounts.DeleteUser userID)); [done|].
      cbn [snd db set_db]. unfold accounts.delete_user, accounts.delete_transactions.
      cbn [users]. apply Forall_forall. intros u Hu.
      apply list_elem_of_filter in Hu as [_ Hu].
      by apply (proj1 (Forall_forall _ _) Htokens).
  - unfold select_sweep_users. f_equal.
    induction (users (db w)) as [|u us IH]; [done|].
    apply Forall_cons in Htokens as [Hu Hus].
    rewrite !filter_cons, (IH Hus).
    destruct (decide (usr_consent_given u = true)) as [Hc|Hc].
    + by rewrite decide_True.
    + rewrite decide_False; [done|]. by intros [? _].
  - intros req token expires_in w1 -> Hreg Hok.
    destruct (register_new_row _ _ _ _ _ _ _ Hreg)
      as (req' & [= <-] & _ & _ & _ & Hfresh & _ & Hdb).
    unfold accounts.UpdateConsent. rewrite Hok. cbn [snd db set_db].
    unfold select_sweep_users, accounts.update_user. rewrite Hdb. cbn [users].
    rewrite fmap_app. cbn [fmap list_fmap]. rewrite bool_decide_true by done.
    apply (list_elem_of_fmap_2' (λ u, (usr_id u, usr_fcm_token u)) _
             (accounts.set_consent true
                {| usr_id := userID; usr_device_id := accounts.DeviceID req;
                   usr_fcm_token := Some (accounts.FCMToken req);
                   usr_consent_given := false |})); [|done].
    apply list_elem_of_filter. split; [by split; [|eexists]|].
    apply elem_of_app. right. left.
Qed.

End Accounts.

Lemma registration_creates_unconsented_user_witness :
  ∃ token w',
    accounts.Register (H := views.reliable) (H0 := views.jwt_stub)
      {| accounts.Config := {| config.JWTSecret := "secret"; config.JWTExpiration := 720 |} |}
      (Some {| accounts.DeviceID := "device-d"; accounts.FCMToken := "";
               accounts.Operator := "MTN" |})
      (stubs.world_of [])
    = (accounts.RegisterOK "0" token true 2592000, w') ∧
    database.select_consent "0" (runtime.db w') = Some false.
Proof.
  eexists _, _. split; [by vm_compute|].
  match goal with
  | |- database.select_consent _ (runtime.db ?w1) = _ =>
      destruct (registration_creates_unconsented_user
                  (H := stubs.prose) (H0 := views.reliable) (H1 := views.jwt_stub)
                  {| accounts.Config :=
                       {| config.JWTSecret := "secret"; config.JWTExpiration := 720 |} |}
                  (Some {| accounts.DeviceID := "device-d"; accounts.FCMToken := "";
                           accounts.Operator := "MTN" |})
                  (stubs.world_of []) "0" "jwt-for-0" 2592000 w1)
        as (req & _ & _ & _ & _ & _ & _ & _ & _ & Hconsent & _)
  end.
  - by vm_compute.
  - exact Hconsent.
Defined.

Lemma registration_of_known_device_witness :
  (accounts.Register (H := views.reliable) (H0 := views.jwt_stub)
     {| accounts.Config := {| config.JWTSecret := "secret"; config.JWTExpiration := 720 |} |}
     (Some {| accounts.DeviceID := "device-a"; accounts.FCMToken := "";
              accounts.Operator := "MTN" |})
     (stubs.world_of [])).2
  = stubs.world_of [].
Proof.
  destruct (registration_of_known_device
              (H0 := views.reliable) (H1 := views.jwt_stub)
              {| accounts.Config :=
                   {| config.JWTSecret := "secret"; config.JWTExpiration := 720 |} |}
              {| accounts.DeviceID := "device-a"; accounts.FCMToken := "";
                 accounts.Operator := "MTN" |}
              "alice" (stubs.world_of []))
    as (_ & _ & _ & _ & _ & _ & _ & _ & _ & Hsame).
  - by intros [=].
  - reflexivity.
  - reflexivity.
  - by apply Hsame.
Defined.

Lemma consent_switch_witness :
  database.select_consent "carol"
    (runtime.db
       (accounts.UpdateConsent (H := views.reliable)
          {| accounts.Config :=
               {| config.JWTSecret := "secret"; config.JWTExpiration := 720 |} |}
          "carol" (Some true) (stubs.world_of [])).2)
  = Some true.
Proof.
  destruct (consent_switch
              (H := stubs.prose) (H0 := views.reliable)
              {| accounts.Config :=
                   {| config.JWTSecret := "secret"; config.JWTExpiration := 720 |} |}
              "carol" true (stubs.world_of []))
    as (_ & Hset & _).
  - reflexivity.
  - apply Hset. apply (bool_decide_unpack _). by vm_compute.
Defined.

Lemma user_keys_stay_unique_witness :
  NoDup (database.usr_device_id
           <$> database.users
                 (runtime.db
                    (accounts.Register (H := views.reliable) (H0 := views.jwt_stub)
                       {| accounts.Config :=
                            {| config.JWTSecret := "secret"; config.JWTExpiration := 720 |} |}
                       (Some {| accounts.DeviceID := "device-d"; accounts.FCMToken := "t";
                                accounts.Operator := "MTN" |})
                       (stubs.world_of [])).2)).
Proof.
  refine (proj2 (user_keys_stay_unique
                   (H0 := views.reliable) (H1 := views.jwt_stub)
                   {| accounts.Config :=
                        {| config.JWTSecret := "secret"; config.JWTExpiration := 720 |} |}
                   (Some {| accounts.DeviceID := "device-d"; accounts.FCMToken := "t";
                            accounts.Operator := "MTN" |})
                   "alice" None (stubs.world_of []) _ _ _ (or_introl eq_refl))).
  - apply (bool_decide_unpack _). by vm_compute.
  - apply (bool_decide_unpack _). by vm_compute.
Defined.

(** ** The analytics summary *)

Section Analytics.

Import runtime database handlers.

Context `{analytics.Store}.

Lemma total_by_type (rows : list TransactionRow) :
  Forall (λ r, tx_type r = "INCOME" ∨ tx_type r = "EXPENSE") rows →
  spec.total (λ _, True) rows
  = spec.total (λ r, tx_type r = "INCOME") rows
    + spec.total (λ r, tx_type r = "EXPENSE") rows.
Proof.
  unfold spec.total. induction 1 as [|r rows Hr _ IH]; [done|].
  rewrite filter_cons_True by done. cbn [foldr]. rewrite IH.
  rewrite !filter_cons. destruct Hr as [Hr|Hr]; rewrite Hr.
  - rewrite decide_True by done. rewrite decide_False by done. cbn [foldr]. lia.
  - rewrite decide_False by done. rewrite decide_True by done. cbn [foldr]. lia.
Qed.

(** X29.  The figures of a summary that [GetSummary] returns.  The net
    balance is income minus expenses and the count is that of the caller's
    rows in the range; the category map adds up to the total expenses; the
    operator map is built from the rows of every type, so it adds up to the
    sum of all amounts in the range, which is income plus expenses when every
    row is an income or an expense.  The period defaults to month, and a
    period other than week, month and year (daily, weekly and monthly among
    them) stands for all time: the range starts at the zero time. *)
Theorem summary_figures (userID : string) (period : option string) (w : World)
    (summary : analytics.AnalyticsSummary) :
  analytics.GetSummary userID period w = analytics.SummaryOK summary →
  let p := default "month" period in
  let start := analytics.startDate p w in
  let rows := filter (in_window userID start) (transactions (db w)) in
  analytics.Period summary = p ∧
  analytics.NetBalance summary
  = analytics.TotalIncome summary - analytics.TotalExpenses summary ∧
  analytics.TransactionCount summary = Z.of_nat (length rows) ∧
  (analytics.query_fails (analytics.SelectByCategory userID start) = false →
   views.map_total (analytics.ByCategory summary) = analytics.TotalExpenses summary) ∧
  (analytics.query_fails (analytics.SelectByOperator userID start) = false →
   views.map_total (analytics.ByOperator summary) = spec.total (λ _, True) rows ∧
   (Forall (λ r, tx_type r = "INCOME" ∨ tx_type r = "EXPENSE") rows →
    views.map_total (analytics.ByOperator summary)
    = analytics.TotalIncome summary + analytics.TotalExpenses summary)) ∧
  (p ≠ "week" → p ≠ "month" → p ≠ "year" → start = analytics.zeroTime).
Proof.
  intros Hget p start rows. unfold analytics.GetSummary, analytics.DefaultQuery in Hget.
  fold p in Hget. fold start in Hget.
  destruct (analytics.query_fails (analytics.SelectTotals userID start)); [discriminate|].
  unfold select_totals in Hget. fold rows in Hget. injection Hget as <-.
  cbn [analytics.Period analytics.NetBalance analytics.TotalIncome analytics.TotalExpenses
       analytics.TransactionCount analytics.ByCategory analytics.ByOperator].
  assert (Hop : views.map_total
                  (foldl (λ (m : gmap string Z) oa, <[oa.1 := oa.2]> m) ∅
                         (analytics.select_by_operator userID start (db w)))
                = spec.total (λ _, True) rows).
  { unfold analytics.select_by_operator. fold rows. apply (group_map_total tx_operator). }
  split; [done|]. split; [done|]. split; [done|]. split; [|split].
  - intros ->. unfold select_by_category. fold rows.
    rewrite (group_map_total tx_category), sum_case_total, total_filter.
    apply total_ext. tauto.
  - intros ->. split; [exact Hop|].
    intros Htypes. rewrite Hop, !sum_case_total. by apply total_by_type.
  - intros Hw Hm Hy. subst start. unfold analytics.startDate.
    by rewrite !bool_decide_false.
Qed.

End Analytics.

Lemma summary_figures_witness :
  ∃ summary,
    analytics.GetSummary (H := views.answering) "alice" (Some "weekly")
      (stubs.world_of stubs.ledger)
    = analytics.SummaryOK summary ∧
    analytics.TransactionCount summary = 4.
Proof.
  destruct (analytics.GetSummary (H := views.answering) "alice" (Some "weekly")
              (stubs.world_of stubs.ledger)) as [|summary] eqn:Hget;
    [by vm_compute in Hget|].
  exists summary. split; [reflexivity|].
  destruct (summary_figures (H := views.answering) "alice" (Some "weekly")
              (stubs.world_of stubs.ledger) summary Hget) as (_ & _ & Hcount & _).
  rewrite Hcount. by vm_compute.
Defined.

Lemma token_is_never_null_witness :
  handlers.select_sweep_users
    {| database.users := [stubs.alice; stubs.bob];
       database.transactions := [];
       database.user_insights := [] |}
  = [("alice", Some "token-a"); ("bob", Some "token-b")].
Proof.
  destruct (token_is_never_null (H0 := views.reliable) (H1 := views.jwt_stub)
              {| accounts.Config :=
                   {| config.JWTSecret := "secret"; config.JWTExpiration := 720 |} |}
              None "alice" None
              {| runtime.db := {| database.users := [stubs.alice; stubs.bob];
                                  database.transactions := [];
                                  database.user_insights := [] |};
                 runtime.clock := stubs.noon; runtime.zone := 0;
                 runtime.uuid_next := 0; runtime.events := [] |})
    as (_ & Hsel & _).
  - repeat constructor; by eexists.
  - cbn [runtime.db] in Hsel. rewrite Hsel. by vm_compute.
Defined.
